(** * rpi-openmax: camera -> video_encode -> null_sink pipeline control

    A shallow embedding of the control code of the OpenMAX IL camera
    encoder (the monolithic program with [main], and the rearranged
    [omx_component] sources), and the properties of its polling loops,
    its drain loop and its teardown.

    The hardware-control layer (OpenMAX IL on VideoCore) is external: it
    is an interface ([OMX_IL]) the code is generic in.  Status codes,
    handles and structure fields are modelled as the code uses them. *)

From Stdlib Require Import String ZArith List Lia Bool.
Import ListNotations.
Open Scope Z_scope.

(** ** OpenMAX IL vocabulary used by the program *)

Definition OMX_ERRORTYPE := Z.
Definition OMX_ErrorNone : OMX_ERRORTYPE := 0.

(** [OMX_BOOL] is an enumeration with [OMX_FALSE = 0] and [OMX_TRUE = 1];
    the hardware may write any value into a field of that type. *)
Definition OMX_BOOL := Z.
Definition OMX_FALSE : OMX_BOOL := 0.
Definition OMX_TRUE : OMX_BOOL := 1.

Inductive OMX_STATETYPE : Type :=
| OMX_StateInvalid
| OMX_StateLoaded
| OMX_StateIdle
| OMX_StateExecuting
| OMX_StatePause
| OMX_StateWaitForResources.

Definition OMX_STATETYPE_eqb (a b : OMX_STATETYPE) : bool :=
  match a, b with
  | OMX_StateInvalid, OMX_StateInvalid
  | OMX_StateLoaded, OMX_StateLoaded
  | OMX_StateIdle, OMX_StateIdle
  | OMX_StateExecuting, OMX_StateExecuting
  | OMX_StatePause, OMX_StatePause
  | OMX_StateWaitForResources, OMX_StateWaitForResources => true
  | _, _ => false
  end.

Inductive OMX_COMMANDTYPE : Type :=
| OMX_CommandStateSet
| OMX_CommandFlush
| OMX_CommandPortDisable
| OMX_CommandPortEnable
| OMX_CommandMarkBuffer.

(** The value an [OMX_STATETYPE] has as the [nParam] of a command. *)
Definition nParam_of_state (s : OMX_STATETYPE) : Z :=
  match s with
  | OMX_StateInvalid => 0
  | OMX_StateLoaded => 1
  | OMX_StateIdle => 2
  | OMX_StateExecuting => 3
  | OMX_StatePause => 4
  | OMX_StateWaitForResources => 5
  end.

(** A handle names the component it was acquired for. *)
Inductive OMX_HANDLETYPE : Type :=
| camera_handle
| encoder_handle
| null_sink_handle.

(** The fields of [OMX_PARAM_PORTDEFINITIONTYPE] the control code reads
    or writes. *)
Record OMX_PARAM_PORTDEFINITIONTYPE : Type := mk_portdef {
  nPortIndex : Z;
  bEnabled : OMX_BOOL
}.

(** [OMX_INIT_STRUCTURE(a)]: [memset] to zero, then size and version. *)
Definition OMX_INIT_STRUCTURE : OMX_PARAM_PORTDEFINITIONTYPE :=
  {| nPortIndex := 0; bEnabled := 0 |}.

Definition set_nPortIndex (p : OMX_PARAM_PORTDEFINITIONTYPE) (n : Z) :=
  {| nPortIndex := n; bEnabled := bEnabled p |}.

Definition set_bEnabled (p : OMX_PARAM_PORTDEFINITIONTYPE) (b : OMX_BOOL) :=
  {| nPortIndex := nPortIndex p; bEnabled := b |}.

(** [OMX_U32] arithmetic wraps around. *)
Definition u32 (z : Z) : Z := z mod 2 ^ 32.

(** ** Outcomes of a run of control code *)

(** What [die] leaves behind: the exit status, the OMX status code when
    the caller was [omx_die], and the message. *)
Inductive fatal : Type :=
| Fatal (exit_status : Z) (omx_error : option OMX_ERRORTYPE) (message : string).

Inductive outcome (St A : Type) : Type :=
| Returned (a : A) (s : St)     (* the function returned *)
| Died (d : fatal) (s : St)     (* the process left through [exit] *)
| Spinning (s : St).            (* the loop is still polling: fuel ran out *)

Arguments Returned {St A} a s.
Arguments Died {St A} d s.
Arguments Spinning {St A} s.

Definition prog (St A : Type) : Type := St -> outcome St A.

Definition ret {St A} (a : A) : prog St A := fun s => Returned a s.

Definition bind {St A B} (m : prog St A) (k : A -> prog St B) : prog St B :=
  fun s =>
    match m s with
    | Returned a s' => k a s'
    | Died d s' => Died d s'
    | Spinning s' => Spinning s'
    end.

Declare Scope prog_scope.
Delimit Scope prog_scope with prog.
Notation "x <- m ;; k" := (bind m (fun x => k))
  (at level 61, m at next level, right associativity) : prog_scope.
Notation "m ;; k" := (bind m (fun _ => k))
  (at level 61, right associativity) : prog_scope.

(** [die(message)]: print and [exit(1)]. *)
Definition die {St A} (message : string) : prog St A :=
  fun s => Died (Fatal 1 None message) s.

(** [omx_die(error, message)]: format the status code and [die]. *)
Definition omx_die {St A} (error : OMX_ERRORTYPE) (message : string) : prog St A :=
  fun s => Died (Fatal 1 (Some error) message) s.

Definition spin {St A} : prog St A := fun s => Spinning s.

Definition when {St} (c : bool) (m : prog St unit) : prog St unit :=
  if c then m else ret tt.

(** ** The hardware-control layer as an interface *)

(** The synchronous calls of the protocol the polling loops use.  Each
    takes the hardware state and returns what the call reports together
    with the next hardware state; [hw_sleep] is what the hardware does
    while the control thread sleeps.  A port-definition query is by port
    index and reports the status and the port's enabled flag. *)
Class OMX_IL (hw : Type) : Type := {
  hw_get_port_definition : OMX_HANDLETYPE -> Z -> hw -> OMX_ERRORTYPE * OMX_BOOL * hw;
  hw_get_state : OMX_HANDLETYPE -> hw -> OMX_STATETYPE * hw;
  hw_send_command : OMX_HANDLETYPE -> OMX_COMMANDTYPE -> Z -> hw -> OMX_ERRORTYPE * hw;
  hw_sleep : Z -> hw -> hw
}.

(** One entry per call into the layer, with what the call reported. *)
Inductive call : Type :=
| Call_GetParameter (h : OMX_HANDLETYPE) (port : Z)
    (r : OMX_ERRORTYPE) (reported : OMX_BOOL)
| Call_GetState (h : OMX_HANDLETYPE) (reported : OMX_STATETYPE)
| Call_SendCommand (h : OMX_HANDLETYPE) (cmd : OMX_COMMANDTYPE) (nParam : Z)
    (r : OMX_ERRORTYPE)
| Call_usleep (usec : Z).

Record world (hw : Type) : Type := mk_world {
  hardware : hw;
  calls : list call
}.
Arguments mk_world {hw} hardware calls.
Arguments hardware {hw} w.
Arguments calls {hw} w.

Section Primitives.
Context {hw : Type} `{OMX_IL hw}.

(** [OMX_GetParameter(h, OMX_IndexParamPortDefinition, &portdef)]: the
    layer fills in the definition of port [portdef.nPortIndex]. *)
Definition OMX_GetParameter (h : OMX_HANDLETYPE) (portdef : OMX_PARAM_PORTDEFINITIONTYPE)
  : prog (world hw) (OMX_ERRORTYPE * OMX_PARAM_PORTDEFINITIONTYPE) :=
  fun w =>
    let '(r, b, hw') := hw_get_port_definition h (nPortIndex portdef) (hardware w) in
    Returned (r, set_bEnabled portdef b)
      (mk_world hw' (calls w ++ [Call_GetParameter h (nPortIndex portdef) r b])).

(** [OMX_GetState(h, &eState)] on a layer that answers every state
    query: the call stores the state it reports.  The callers discard
    its status; a query that fails and stores nothing is the subject of
    [StateQuery] below. *)
Definition OMX_GetState (h : OMX_HANDLETYPE) : prog (world hw) OMX_STATETYPE :=
  fun w =>
    let '(st, hw') := hw_get_state h (hardware w) in
    Returned st (mk_world hw' (calls w ++ [Call_GetState h st])).

Definition OMX_SendCommand (h : OMX_HANDLETYPE) (cmd : OMX_COMMANDTYPE) (nParam : Z)
  : prog (world hw) OMX_ERRORTYPE :=
  fun w =>
    let '(r, hw') := hw_send_command h cmd nParam (hardware w) in
    Returned r (mk_world hw' (calls w ++ [Call_SendCommand h cmd nParam r])).

Definition usleep (usec : Z) : prog (world hw) unit :=
  fun w =>
    Returned tt (mk_world (hw_sleep usec (hardware w)) (calls w ++ [Call_usleep usec])).

Local Open Scope prog_scope.

(** ** PortController: [block_until_port_changed]

    The loop; [fuel] bounds the number of times its condition is
    evaluated.
<<
    OMX_U32 i = 0;
    while(i++ == 0 || portdef.bEnabled != bEnabled) {
        if((r = OMX_GetParameter(hComponent, OMX_IndexParamPortDefinition, &portdef)) != OMX_ErrorNone) {
            omx_die(r, "Failed to get port definition");
        }
        if(portdef.bEnabled != bEnabled) {
            usleep(10000);
        }
    }
>> *)
Fixpoint port_changed_loop (fuel : nat) (hComponent : OMX_HANDLETYPE)
    (bEnabled' : OMX_BOOL) (i : Z) (portdef : OMX_PARAM_PORTDEFINITIONTYPE)
  : prog (world hw) unit :=
  match fuel with
  | O => spin
  | S fuel' =>
      let again := (i =? 0) || negb (bEnabled portdef =? bEnabled') in
      let i := u32 (i + 1) in
      if again then
        rp <- OMX_GetParameter hComponent portdef ;;
        when (negb (fst rp =? OMX_ErrorNone))
             (omx_die (fst rp) "Failed to get port definition") ;;
        when (negb (bEnabled (snd rp) =? bEnabled')) (usleep 10000) ;;
        port_changed_loop fuel' hComponent bEnabled' i (snd rp)
      else ret tt
  end.

Definition block_until_port_changed (fuel : nat) (hComponent : OMX_HANDLETYPE)
    (nPortIndex' : Z) (bEnabled' : OMX_BOOL) : prog (world hw) unit :=
  let portdef := OMX_INIT_STRUCTURE in
  let portdef := set_nPortIndex portdef nPortIndex' in
  port_changed_loop fuel hComponent bEnabled' 0 portdef.

(** ** StateController: [block_until_state_changed] and its callers *)

(** [int] arithmetic as the target does it (two's complement). *)
Definition int32 (z : Z) : Z := (z + 2 ^ 31) mod 2 ^ 32 - 2 ^ 31.

(** The loop of [block_until_state_changed].  [eState] is declared
    without an initializer; the first evaluation of the condition does
    not read it ([i++ == 0] decides), and on a layer that answers every
    query the first call has stored a state before the second
    evaluation reads it.
<<
    int i = 0;
    while(i++ == 0 || eState != wanted_eState) {
        OMX_GetState(hComponent, &eState);
        if(eState != wanted_eState) {
            usleep(10000);
        }
    }
>> *)
Fixpoint state_changed_loop (fuel : nat) (hComponent : OMX_HANDLETYPE)
    (wanted_eState : OMX_STATETYPE) (i : Z) (eState : OMX_STATETYPE)
  : prog (world hw) unit :=
  match fuel with
  | O => spin
  | S fuel' =>
      let again := (i =? 0) || negb (OMX_STATETYPE_eqb eState wanted_eState) in
      let i := int32 (i + 1) in
      if again then
        eState <- OMX_GetState hComponent ;;
        when (negb (OMX_STATETYPE_eqb eState wanted_eState)) (usleep 10000) ;;
        state_changed_loop fuel' hComponent wanted_eState i eState
      else ret tt
  end.

Definition block_until_state_changed (fuel : nat) (hComponent : OMX_HANDLETYPE)
    (wanted_eState : OMX_STATETYPE) : prog (world hw) unit :=
  state_changed_loop fuel hComponent wanted_eState 0 OMX_StateInvalid.

(** [if((r = OMX_SendCommand(h, OMX_CommandStateSet, s, NULL)) != OMX_ErrorNone) omx_die(r, msg);
     block_until_state_changed(h, s);] *)
Definition switch_state (fuel : nat) (h : OMX_HANDLETYPE) (s : OMX_STATETYPE)
    (msg : string) : prog (world hw) unit :=
  r <- OMX_SendCommand h OMX_CommandStateSet (nParam_of_state s) ;;
  when (negb (r =? OMX_ErrorNone)) (omx_die r msg) ;;
  block_until_state_changed fuel h s.

(** The rearranged camera component (omx_camera.c). *)
Definition camera_idle_state (fuel : nat) : prog (world hw) unit :=
  switch_state fuel camera_handle OMX_StateIdle
    "Failed to switch state of the camera component to idle".

Definition camera_excute_state (fuel : nat) : prog (world hw) unit :=
  switch_state fuel camera_handle OMX_StateExecuting
    "Failed to switch state of the camera component to executing".

(** As written in omx_camera.c: the body sends and awaits [OMX_StateIdle]. *)
Definition camera_load_state (fuel : nat) : prog (world hw) unit :=
  switch_state fuel camera_handle OMX_StateIdle
    "Failed to switch state of the camera component to idle".

(** [main], "Transition all the components to idle and then to loaded
    states". *)
Definition main_transition_to_loaded (fuel : nat) : prog (world hw) unit :=
  switch_state fuel camera_handle OMX_StateIdle
    "Failed to switch state of the camera component to idle" ;;
  switch_state fuel encoder_handle OMX_StateIdle
    "Failed to switch state of the encoder component to idle" ;;
  switch_state fuel null_sink_handle OMX_StateIdle
    "Failed to switch state of the null sink component to idle" ;;
  switch_state fuel camera_handle OMX_StateLoaded
    "Failed to switch state of the camera component to loaded" ;;
  switch_state fuel encoder_handle OMX_StateLoaded
    "Failed to switch state of the encoder component to loaded" ;;
  switch_state fuel null_sink_handle OMX_StateLoaded
    "Failed to switch state of the null sink component to loaded".

End Primitives.

(** The world a run ends in, and the calls a run added to the log. *)
Definition final_world {St A} (o : outcome St A) : St :=
  match o with
  | Returned _ s => s
  | Died _ s => s
  | Spinning s => s
  end.

Definition calls_since {hw A} (w : world hw) (o : outcome (world hw) A) : list call :=
  skipn (length (calls w)) (calls (final_world o)).

Definition is_Died {St A} (o : outcome St A) : bool :=
  match o with Died _ _ => true | _ => false end.

Definition is_Returned {St A} (o : outcome St A) : bool :=
  match o with Returned _ _ => true | _ => false end.

Definition is_Spinning {St A} (o : outcome St A) : bool :=
  match o with Spinning _ => true | _ => false end.

(** Reading the log of calls. *)

Definition query_succeeded (c : call) : Prop :=
  match c with
  | Call_GetParameter _ _ r _ => r = OMX_ErrorNone
  | _ => True
  end.

Definition is_poll_of (h : OMX_HANDLETYPE) (c : call) : Prop :=
  match c with
  | Call_GetState h' _ => h' = h
  | Call_usleep _ => True
  | _ => False
  end.

(** The state-set commands among a list of calls: component and target. *)
Fixpoint state_commands (X : list call) : list (OMX_HANDLETYPE * Z) :=
  match X with
  | [] => []
  | Call_SendCommand h OMX_CommandStateSet n _ :: X' => (h, n) :: state_commands X'
  | _ :: X' => state_commands X'
  end.

(** ** A simulated VideoCore, to run the code on

    Components obey commands asynchronously: a state or port command is
    accepted at once and takes effect while the control thread sleeps.
    A query for a port the layer does not know fails with
    [OMX_ErrorBadPortIndex]. *)

Definition OMX_ErrorBadPortIndex : OMX_ERRORTYPE := 0x8000101B.

Inductive vc_effect : Type :=
| PendState (h : OMX_HANDLETYPE) (s : OMX_STATETYPE)
| PendPort (port : Z) (b : OMX_BOOL).

Record videocore : Type := mk_vc {
  vc_camera : OMX_STATETYPE;
  vc_encoder : OMX_STATETYPE;
  vc_null_sink : OMX_STATETYPE;
  vc_ports : list (Z * OMX_BOOL);
  vc_pending : list vc_effect
}.

Definition state_of_nParam (n : Z) : OMX_STATETYPE :=
  if n =? 1 then OMX_StateLoaded
  else if n =? 2 then OMX_StateIdle
  else if n =? 3 then OMX_StateExecuting
  else if n =? 4 then OMX_StatePause
  else if n =? 5 then OMX_StateWaitForResources
  else OMX_StateInvalid.

Fixpoint vc_port_lookup (port : Z) (ps : list (Z * OMX_BOOL)) : option OMX_BOOL :=
  match ps with
  | [] => None
  | (p, b) :: ps' => if p =? port then Some b else vc_port_lookup port ps'
  end.

Fixpoint vc_port_set (port : Z) (b : OMX_BOOL) (ps : list (Z * OMX_BOOL))
  : list (Z * OMX_BOOL) :=
  match ps with
  | [] => []
  | (p, b0) :: ps' =>
      if p =? port then (p, b) :: ps' else (p, b0) :: vc_port_set port b ps'
  end.

Definition vc_component_state (h : OMX_HANDLETYPE) (v : videocore) : OMX_STATETYPE :=
  match h with
  | camera_handle => vc_camera v
  | encoder_handle => vc_encoder v
  | null_sink_handle => vc_null_sink v
  end.

Definition vc_apply (v : videocore) (p : vc_effect) : videocore :=
  match p with
  | PendState camera_handle s =>
      mk_vc s (vc_encoder v) (vc_null_sink v) (vc_ports v) (vc_pending v)
  | PendState encoder_handle s =>
      mk_vc (vc_camera v) s (vc_null_sink v) (vc_ports v) (vc_pending v)
  | PendState null_sink_handle s =>
      mk_vc (vc_camera v) (vc_encoder v) s (vc_ports v) (vc_pending v)
  | PendPort port b =>
      mk_vc (vc_camera v) (vc_encoder v) (vc_null_sink v)
            (vc_port_set port b (vc_ports v)) (vc_pending v)
  end.

Definition vc_enqueue (v : videocore) (p : vc_effect) : videocore :=
  mk_vc (vc_camera v) (vc_encoder v) (vc_null_sink v) (vc_ports v) (vc_pending v ++ [p]).

Definition vc_sleep (v : videocore) : videocore :=
  let v' := fold_left vc_apply (vc_pending v) v in
  mk_vc (vc_camera v') (vc_encoder v') (vc_null_sink v') (vc_ports v') [].

#[export] Instance videocore_IL : OMX_IL videocore := {
  hw_get_port_definition := fun _ port v =>
    match vc_port_lookup port (vc_ports v) with
    | Some b => (OMX_ErrorNone, b, v)
    | None => (OMX_ErrorBadPortIndex, 0, v)
    end;
  hw_get_state := fun h v => (vc_component_state h v, v);
  hw_send_command := fun h cmd n v =>
    match cmd with
    | OMX_CommandStateSet => (OMX_ErrorNone, vc_enqueue v (PendState h (state_of_nParam n)))
    | OMX_CommandPortEnable => (OMX_ErrorNone, vc_enqueue v (PendPort n OMX_TRUE))
    | OMX_CommandPortDisable => (OMX_ErrorNone, vc_enqueue v (PendPort n OMX_FALSE))
    | _ => (OMX_ErrorNone, v)
    end;
  hw_sleep := fun _ v => vc_sleep v
}.

(** The pipeline running: every component executing, every port enabled. *)
Definition vc_running : videocore :=
  mk_vc OMX_StateExecuting OMX_StateExecuting OMX_StateExecuting
        [(73, 1); (70, 1); (71, 1); (200, 1); (201, 1); (240, 1)] [].

Definition vc_world (v : videocore) : world videocore := mk_world v [].

(** ** The application context, its callbacks and the control thread

    The part of the program that shares state with the callback context:
    the flags of [appctx], the output buffer of the encoder, the output
    stream, and [want_quit].  The callback context and signal delivery
    are asynchronous; the control thread meets them at its sleeps, where
    the events scripted in [deliveries] are handled one after the
    other.  (The control thread reads each shared flag once per
    iteration of a polling loop, and the encoder completes a fill only
    while one is requested, so an event handled during the sleep stands
    for the same event handled anywhere since the previous sleep.) *)

Module App.

Set Primitive Projections.

Definition OMX_BUFFERFLAG_SYNCFRAME : Z := 0x00000020.

(** The fields of [OMX_BUFFERHEADERTYPE] the program uses; [pBuffer] is
    the memory the header points to. *)
Record OMX_BUFFERHEADERTYPE : Type := mk_buffer {
  pBuffer : list Byte.byte;
  nAllocLen : Z;
  nFilledLen : Z;
  nOffset : Z;
  nFlags : Z
}.

(** [appctx], flattened: [camera_ready] is [ctx.camera.ready] (and
    [omx_camera.ready] in the rearranged sources), [encoder_ready] is
    [ctx.encoder.ready], [buffer_out] is [*ctx.encoder.buffer_out],
    [fd_out] holds what the stream received, one chunk per [fwrite], and
    [handler_lock] is the count of the semaphore. *)
Record appctx : Type := mk_ctx {
  camera_ready : Z;
  encoder_ready : Z;
  buffer_out : OMX_BUFFERHEADERTYPE;
  flushed : Z;
  fd_out : list (list Byte.byte);
  handler_lock : Z
}.

(** The locals of the capture and encode loop of [main]. *)
Record loop_vars : Type := mk_vars {
  quit_detected : Z;
  quit_in_keyframe : Z;
  need_next_buffer_to_be_filled : Z
}.

Inductive thread : Type := Control | Callback.

Inductive flag : Type := Flag_flushed | Flag_camera_ready | Flag_encoder_ready.

(** Accesses to the shared flags and to the critical section. *)
Inductive access : Type :=
| Acquire            (* vcos_semaphore_wait(&ctx->handler_lock) *)
| Release            (* vcos_semaphore_post(&ctx->handler_lock) *)
| Load (f : flag)
| Store (f : flag).

Inductive OMX_INDEXTYPE : Type :=
| OMX_IndexParamCameraDeviceNumber
| OMX_IndexOther (index : Z).

(** What [event_handler] receives: [eEvent] with [nData1] and [nData2]. *)
Inductive omx_event : Type :=
| OMX_EventCmdComplete (nData1 : OMX_COMMANDTYPE) (nData2 : Z)
| OMX_EventParamOrConfigChanged (nData1 : Z) (nData2 : OMX_INDEXTYPE)
| OMX_EventError (nData1 : OMX_ERRORTYPE)
| OMX_EventOther (eEvent : Z).

Inductive async_event : Type :=
| Ev_event (e : omx_event)                           (* the layer calls EventHandler *)
| Ev_FillBufferDone (filled : OMX_BUFFERHEADERTYPE)  (* the encoder filled the buffer *)
| Ev_signal.                                         (* SIGINT, SIGTERM or SIGQUIT *)

(** What the program does that can be seen from outside. *)
Inductive obs : Type :=
| Tr_say (message : string)
| Tr_fwrite (b : OMX_BUFFERHEADERTYPE) (output_written : Z)
| Tr_FillThisBuffer (r : OMX_ERRORTYPE)
| Tr_FillBufferDone (b : OMX_BUFFERHEADERTYPE).

Record machine : Type := mk_machine {
  ctx : appctx;
  want_quit : Z;
  locals : loop_vars;
  outstanding : nat;                      (* encoder: fills requested, not yet done *)
  fill_statuses : list OMX_ERRORTYPE;     (* what the next OMX_FillThisBuffer calls return *)
  room : Z;                               (* bytes the output stream still accepts *)
  deliveries : list (list async_event);   (* events handled during the next sleeps *)
  accesses : list (thread * access);
  trace : list obs
}.

Unset Primitive Projections.

Definition with_ctx (m : machine) (c : appctx) : machine :=
  mk_machine c (want_quit m) (locals m) (outstanding m) (fill_statuses m) (room m)
             (deliveries m) (accesses m) (trace m).

Definition with_locals (m : machine) (v : loop_vars) : machine :=
  mk_machine (ctx m) (want_quit m) v (outstanding m) (fill_statuses m) (room m)
             (deliveries m) (accesses m) (trace m).

Definition log_access (t : thread) (a : access) (m : machine) : machine :=
  mk_machine (ctx m) (want_quit m) (locals m) (outstanding m) (fill_statuses m) (room m)
             (deliveries m) (accesses m ++ [(t, a)]) (trace m).

Definition log_obs (o : obs) (m : machine) : machine :=
  mk_machine (ctx m) (want_quit m) (locals m) (outstanding m) (fill_statuses m) (room m)
             (deliveries m) (accesses m) (trace m ++ [o]).

Definition flag_value (f : flag) (c : appctx) : Z :=
  match f with
  | Flag_flushed => flushed c
  | Flag_camera_ready => camera_ready c
  | Flag_encoder_ready => encoder_ready c
  end.

Definition set_flag (f : flag) (v : Z) (c : appctx) : appctx :=
  match f with
  | Flag_flushed =>
      mk_ctx (camera_ready c) (encoder_ready c) (buffer_out c) v (fd_out c) (handler_lock c)
  | Flag_camera_ready =>
      mk_ctx v (encoder_ready c) (buffer_out c) (flushed c) (fd_out c) (handler_lock c)
  | Flag_encoder_ready =>
      mk_ctx (camera_ready c) v (buffer_out c) (flushed c) (fd_out c) (handler_lock c)
  end.

Definition set_handler_lock (v : Z) (c : appctx) : appctx :=
  mk_ctx (camera_ready c) (encoder_ready c) (buffer_out c) (flushed c) (fd_out c) v.

Definition set_buffer_out (b : OMX_BUFFERHEADERTYPE) (c : appctx) : appctx :=
  mk_ctx (camera_ready c) (encoder_ready c) b (flushed c) (fd_out c) (handler_lock c).

Definition set_fd_out (f : list (list Byte.byte)) (c : appctx) : appctx :=
  mk_ctx (camera_ready c) (encoder_ready c) (buffer_out c) (flushed c) f (handler_lock c).

Local Open Scope prog_scope.

(** *** Primitives *)

Definition load (t : thread) (f : flag) : prog machine Z :=
  fun m => Returned (flag_value f (ctx m)) (log_access t (Load f) m).

Definition store (t : thread) (f : flag) (v : Z) : prog machine unit :=
  fun m => Returned tt (log_access t (Store f) (with_ctx m (set_flag f v (ctx m)))).

(** A wait on a semaphore whose count is zero does not come back. *)
Definition vcos_semaphore_wait (t : thread) : prog machine unit :=
  fun m =>
    if 0 <? handler_lock (ctx m) then
      Returned tt
        (log_access t Acquire
           (with_ctx m (set_handler_lock (handler_lock (ctx m) - 1) (ctx m))))
    else Spinning m.

Definition vcos_semaphore_post (t : thread) : prog machine unit :=
  fun m =>
    Returned tt
      (log_access t Release
         (with_ctx m (set_handler_lock (handler_lock (ctx m) + 1) (ctx m)))).

Definition say (message : string) : prog machine unit :=
  fun m => Returned tt (log_obs (Tr_say message) m).

Definition get_locals : prog machine loop_vars :=
  fun m => Returned (locals m) m.

Definition put_locals (v : loop_vars) : prog machine unit :=
  fun m => Returned tt (with_locals m v).

Definition get_want_quit : prog machine Z :=
  fun m => Returned (want_quit m) m.

Definition get_buffer_out : prog machine OMX_BUFFERHEADERTYPE :=
  fun m => Returned (buffer_out (ctx m)) m.

(** The bytes [pBuffer + nOffset .. pBuffer + nOffset + nFilledLen). *)
Definition payload (b : OMX_BUFFERHEADERTYPE) : list Byte.byte :=
  firstn (Z.to_nat (nFilledLen b)) (skipn (Z.to_nat (nOffset b)) (pBuffer b)).

(** [fwrite(b->pBuffer + b->nOffset, 1, b->nFilledLen, ctx.fd_out)]: the
    stream takes as many of the bytes as it has room for; the count is
    returned. *)
Definition fwrite (b : OMX_BUFFERHEADERTYPE) : prog machine Z :=
  fun m =>
    let n := Z.max 0 (Z.min (nFilledLen b) (room m)) in
    let chunk := firstn (Z.to_nat n) (payload b) in
    Returned n
      (log_obs (Tr_fwrite b n)
         (mk_machine (set_fd_out (fd_out (ctx m) ++ [chunk]) (ctx m))
                     (want_quit m) (locals m) (outstanding m) (fill_statuses m)
                     (room m - n) (deliveries m) (accesses m) (trace m))).

(** [OMX_FillThisBuffer(ctx.encoder.handle, ctx.encoder.buffer_out)]:
    the encoder answers with the next scripted status ([OMX_ErrorNone]
    once the script is used up) and, when it accepts, owes one fill. *)
Definition OMX_FillThisBuffer : prog machine OMX_ERRORTYPE :=
  fun m =>
    let r := hd OMX_ErrorNone (fill_statuses m) in
    Returned r
      (log_obs (Tr_FillThisBuffer r)
         (mk_machine (ctx m) (want_quit m) (locals m)
                     (if r =? OMX_ErrorNone then S (outstanding m) else outstanding m)
                     (tl (fill_statuses m)) (room m) (deliveries m) (accesses m) (trace m))).

(** *** The callbacks (part_000) *)

(** [signal_handler]: [want_quit = 1]. *)
Definition signal_handler : prog machine unit :=
  fun m =>
    Returned tt
      (mk_machine (ctx m) 1 (locals m) (outstanding m) (fill_statuses m) (room m)
                  (deliveries m) (accesses m) (trace m)).

Definition dump_event_message : string :=
  "Received event 0x%08x %s, hComponent:0x%08x, nData1:0x%08x, nData2:0x%08x".

Definition dump_event : prog machine unit := say dump_event_message.

Definition event_handler (e : omx_event) : prog machine unit :=
  dump_event ;;
  match e with
  | OMX_EventCmdComplete nData1 _ =>
      vcos_semaphore_wait Callback ;;
      match nData1 with
      | OMX_CommandFlush => store Callback Flag_flushed 1
      | _ => ret tt
      end ;;
      vcos_semaphore_post Callback
  | OMX_EventParamOrConfigChanged _ nData2 =>
      vcos_semaphore_wait Callback ;;
      match nData2 with
      | OMX_IndexParamCameraDeviceNumber => store Callback Flag_camera_ready 1
      | OMX_IndexOther _ => ret tt
      end ;;
      vcos_semaphore_post Callback
  | OMX_EventError nData1 => omx_die nData1 "error event received"
  | OMX_EventOther _ => ret tt
  end.

Definition fill_output_buffer_done_handler : prog machine unit :=
  vcos_semaphore_wait Callback ;;
  store Callback Flag_encoder_ready 1 ;;
  vcos_semaphore_post Callback.

(** The encoder finishes the fill it owes: the header and the memory of
    the output buffer are the encoder's to write until it calls
    [FillBufferDone].  With no fill requested there is nothing for it to
    finish. *)
Definition encoder_fills (filled : OMX_BUFFERHEADERTYPE) : prog machine unit :=
  fun m =>
    Returned tt
      (log_obs (Tr_FillBufferDone filled)
         (mk_machine (set_buffer_out filled (ctx m)) (want_quit m) (locals m)
                     (pred (outstanding m)) (fill_statuses m) (room m)
                     (deliveries m) (accesses m) (trace m))).

Definition handle_async (e : async_event) : prog machine unit :=
  match e with
  | Ev_event ev => event_handler ev
  | Ev_FillBufferDone filled =>
      fun m =>
        match outstanding m with
        | O => Returned tt m
        | S _ => (encoder_fills filled ;; fill_output_buffer_done_handler) m
        end
  | Ev_signal => signal_handler
  end.

Fixpoint handle_all (es : list async_event) : prog machine unit :=
  match es with
  | [] => ret tt
  | e :: es' => handle_async e ;; handle_all es'
  end.

(** [usleep]: the control thread sleeps; the events scripted for this
    sleep are handled meanwhile. *)
Definition usleep (usec : Z) : prog machine unit :=
  fun m =>
    handle_all (hd [] (deliveries m))
      (mk_machine (ctx m) (want_quit m) (locals m) (outstanding m) (fill_statuses m)
                  (room m) (tl (deliveries m)) (accesses m) (trace m)).

(** *** The polling waits of the control thread *)

(** [main] (part_000), "Ensure camera is ready":
<<
    while(!ctx.camera_ready) {
        usleep(10000);
    }
>> *)
Fixpoint main_wait_camera_ready (fuel : nat) : prog machine unit :=
  match fuel with
  | O => spin
  | S fuel' =>
      ready <- load Control Flag_camera_ready ;;
      if ready =? 0 then usleep 10000 ;; main_wait_camera_ready fuel'
      else ret tt
  end.

(** [camera_block_until_camera_ready] (omx_camera.c):
<<
    int n = 0;
    while(!omx_camera.ready) {
        usleep(10000);
        if(n++ > 100) die("Failed to configuring camera");
    }
>> *)
Fixpoint camera_ready_loop (fuel : nat) (n : Z) : prog machine unit :=
  match fuel with
  | O => spin
  | S fuel' =>
      ready <- load Control Flag_camera_ready ;;
      if ready =? 0 then
        usleep 10000 ;;
        when (100 <? n) (die "Failed to configuring camera") ;;
        camera_ready_loop fuel' (int32 (n + 1))
      else ret tt
  end.

Definition camera_block_until_camera_ready (fuel : nat) : prog machine unit :=
  camera_ready_loop fuel 0.

(** [block_until_flushed]; [quit] is declared without an initializer, so
    the value the loop starts from is whatever the stack holds.
<<
    int quit;
    while(!quit) {
        vcos_semaphore_wait(&ctx->handler_lock);
        if(ctx->flushed) {
            ctx->flushed = 0;
            quit = 1;
        }
        vcos_semaphore_post(&ctx->handler_lock);
        if(!quit) {
            usleep(10000);
        }
    }
>> *)
Fixpoint flushed_loop (fuel : nat) (quit : Z) : prog machine unit :=
  match fuel with
  | O => spin
  | S fuel' =>
      if quit =? 0 then
        vcos_semaphore_wait Control ;;
        f <- load Control Flag_flushed ;;
        quit <- (if negb (f =? 0)
                 then store Control Flag_flushed 0 ;; ret 1
                 else ret quit) ;;
        vcos_semaphore_post Control ;;
        when (quit =? 0) (usleep 10000) ;;
        flushed_loop fuel' quit
      else ret tt
  end.

Definition block_until_flushed (fuel : nat) (quit_on_entry : Z) : prog machine unit :=
  flushed_loop fuel quit_on_entry.

(** *** The capture and encode loop of [main] *)

Inductive flow : Type := Continue | Break.

(** The three messages of the loop. *)
Definition exit_signal_message : string :=
  "Exit signal detected, waiting for next key frame boundry before exiting...".

Definition boundary_message : string :=
  "Key frame boundry reached, exiting loop...".

Definition wrote_message : string :=
  "Read from output buffer and wrote to output file %d/%d".

Definition set_need (v : loop_vars) (n : Z) : loop_vars :=
  mk_vars (quit_detected v) (quit_in_keyframe v) n.

(** The body of [if(ctx.encoder.ready) { ... }]:
<<
    if(want_quit && !quit_detected) {
        say("Exit signal detected, waiting for next key frame boundry before exiting...");
        quit_detected = 1;
        quit_in_keyframe = ctx.encoder.buffer_out->nFlags & OMX_BUFFERFLAG_SYNCFRAME;
    }
    if(quit_detected && (quit_in_keyframe ^ (ctx.encoder.buffer_out->nFlags & OMX_BUFFERFLAG_SYNCFRAME))) {
        say("Key frame boundry reached, exiting loop...");
        break;
    }
    output_written = fwrite(ctx.encoder.buffer_out->pBuffer + ctx.encoder.buffer_out->nOffset, 1, ctx.encoder.buffer_out->nFilledLen, ctx.fd_out);
    if(output_written != ctx.encoder.buffer_out->nFilledLen) {
        die("Failed to write to output file: %s", strerror(errno));
    }
    say("Read from output buffer and wrote to output file %d/%d", ...);
    need_next_buffer_to_be_filled = 1;
>> *)
Definition flush_ready_buffer : prog machine flow :=
  v <- get_locals ;;
  quit <- get_want_quit ;;
  b <- get_buffer_out ;;
  (if negb (quit =? 0) && (quit_detected v =? 0) then
     say exit_signal_message ;;
     put_locals (mk_vars 1 (Z.land (nFlags b) OMX_BUFFERFLAG_SYNCFRAME)
                         (need_next_buffer_to_be_filled v))
   else ret tt) ;;
  v <- get_locals ;;
  if negb (quit_detected v =? 0)
     && negb (Z.lxor (quit_in_keyframe v) (Z.land (nFlags b) OMX_BUFFERFLAG_SYNCFRAME) =? 0)
  then
    say boundary_message ;;
    ret Break
  else
    output_written <- fwrite b ;;
    when (negb (output_written =? nFilledLen b))
         (die "Failed to write to output file: %s") ;;
    say wrote_message ;;
    put_locals (set_need v 1) ;;
    ret Continue.

(** [if(need_next_buffer_to_be_filled) { ... }]:
<<
    need_next_buffer_to_be_filled = 0;
    ctx.encoder.ready = 0;
    if((r = OMX_FillThisBuffer(ctx.encoder.handle, ctx.encoder.buffer_out)) != OMX_ErrorNone) {
        omx_die(r, "Failed to request filling of the output buffer on encoder output port 201");
    }
>> *)
Definition request_next_fill : prog machine unit :=
  v <- get_locals ;;
  if negb (need_next_buffer_to_be_filled v =? 0) then
    put_locals (set_need v 0) ;;
    store Control Flag_encoder_ready 0 ;;
    r <- OMX_FillThisBuffer ;;
    when (negb (r =? OMX_ErrorNone))
         (omx_die r "Failed to request filling of the output buffer on encoder output port 201")
  else ret tt.

(** One iteration of [while(1) { ... usleep(1000); }]. *)
Definition loop_body : prog machine flow :=
  ready <- load Control Flag_encoder_ready ;;
  fl <- (if negb (ready =? 0) then flush_ready_buffer else ret Continue) ;;
  match fl with
  | Break => ret Break
  | Continue => request_next_fill ;; usleep 1000 ;; ret Continue
  end.

Fixpoint capture_encode_loop (fuel : nat) : prog machine unit :=
  match fuel with
  | O => spin
  | S fuel' =>
      fl <- loop_body ;;
      match fl with
      | Break => ret tt
      | Continue => capture_encode_loop fuel'
      end
  end.

(** [int quit_detected = 0, quit_in_keyframe = 0, need_next_buffer_to_be_filled = 1;] *)
Definition main_loop (fuel : nat) : prog machine unit :=
  put_locals (mk_vars 0 0 1) ;;
  capture_encode_loop fuel.

(** The machine when [main] reaches the loop: the context zeroed, the
    semaphore created with count 1, the output buffer allocated, nothing
    requested from the encoder, [want_quit] clear. *)
Definition at_loop_entry (b : OMX_BUFFERHEADERTYPE) (statuses : list OMX_ERRORTYPE)
    (room' : Z) (script : list (list async_event)) : machine :=
  mk_machine (mk_ctx 0 0 b 0 [] 1) 0 (mk_vars 0 0 0) 0 statuses room' script [] [].

(** *** Reading the logs *)

(** The critical-section discipline over a log of accesses: a flag is
    loaded or stored only by the thread that holds the lock. *)
Definition thread_eqb (a b : thread) : bool :=
  match a, b with
  | Control, Control | Callback, Callback => true
  | _, _ => false
  end.

Fixpoint disciplined (holder : option thread) (l : list (thread * access)) : bool :=
  match l with
  | [] => true
  | (t, Acquire) :: l' =>
      match holder with
      | None => disciplined (Some t) l'
      | Some _ => false
      end
  | (t, Release) :: l' =>
      match holder with
      | Some t' => thread_eqb t t' && disciplined None l'
      | None => false
      end
  | (t, Load _) :: l' | (t, Store _) :: l' =>
      match holder with
      | Some t' => thread_eqb t t' && disciplined holder l'
      | None => false
      end
  end.

(** The buffers written, the buffers the encoder completed, and the
    fills requested, in the order of the trace. *)
Fixpoint written (t : list obs) : list OMX_BUFFERHEADERTYPE :=
  match t with
  | [] => []
  | Tr_fwrite b _ :: t' => b :: written t'
  | _ :: t' => written t'
  end.

Fixpoint completed (t : list obs) : list OMX_BUFFERHEADERTYPE :=
  match t with
  | [] => []
  | Tr_FillBufferDone b :: t' => b :: completed t'
  | _ :: t' => completed t'
  end.

(** The trace from the point the loop reports the exit signal. *)
Fixpoint since_exit_signal (t : list obs) : option (list obs) :=
  match t with
  | [] => None
  | Tr_say msg :: t' =>
      if String.eqb msg exit_signal_message then Some t' else since_exit_signal t'
  | _ :: t' => since_exit_signal t'
  end.

(** The keyframe marker of a buffer. *)
Definition syncframe (b : OMX_BUFFERHEADERTYPE) : Z :=
  Z.land (nFlags b) OMX_BUFFERFLAG_SYNCFRAME.

Definition is_keyframe (b : OMX_BUFFERHEADERTYPE) : bool :=
  negb (syncframe b =? 0).

(** The fill protocol of the one output buffer, read off a trace: a fill
    is requested, the encoder completes it, the buffer is written, and
    only then is the next fill requested. *)
Inductive phase : Type :=
| Unrequested    (* nothing asked of the encoder yet *)
| Requested      (* one fill outstanding *)
| Filled         (* the fill completed, the buffer not yet written *)
| Drained.       (* the buffer written, the next fill not yet requested *)

Definition phase_step (p : phase) (o : obs) : option phase :=
  match o, p with
  | Tr_say _, _ => Some p
  | Tr_FillThisBuffer r, Unrequested | Tr_FillThisBuffer r, Drained =>
      if r =? OMX_ErrorNone then Some Requested else Some p
  | Tr_FillThisBuffer _, _ => None
  | Tr_FillBufferDone _, Requested => Some Filled
  | Tr_FillBufferDone _, _ => None
  | Tr_fwrite _ _, Filled => Some Drained
  | Tr_fwrite _ _, _ => None
  end.

Fixpoint fill_protocol (p : phase) (t : list obs) : option phase :=
  match t with
  | [] => Some p
  | o :: t' =>
      match phase_step p o with
      | Some p' => fill_protocol p' t'
      | None => None
      end
  end.

(** *** The vocabulary of the properties *)

(** Events that neither raise the camera-ready flag nor end the process. *)
Definition leaves_camera_unready (e : async_event) : bool :=
  match e with
  | Ev_event (OMX_EventParamOrConfigChanged _ OMX_IndexParamCameraDeviceNumber) => false
  | Ev_event (OMX_EventError _) => false
  | _ => true
  end.

Definition camera_never_ready (m : machine) : Prop :=
  camera_ready (ctx m) = 0 /\
  Forall (fun es => forallb leaves_camera_unready es = true) (deliveries m).

Definition consumed_flush : list (thread * access) :=
  [(Control, Acquire); (Control, Load Flag_flushed);
   (Control, Store Flag_flushed); (Control, Release)].

(** A piece of code only ever adds to the log of accesses. *)
Definition appends {A} (p : prog machine A) : Prop :=
  forall m, exists X, accesses (final_world (p m)) = accesses m ++ X.

(** The buffer the callback has marked ready and the loop has not yet
    taken. *)
Definition pending (m : machine) : list OMX_BUFFERHEADERTYPE :=
  if encoder_ready (ctx m) =? 0 then [] else [buffer_out (ctx m)].

(** What holds of the encoder and the trace at every point of a run. *)
Definition protocol_kept (m : machine) : Prop :=
  exists ph,
    fill_protocol Unrequested (trace m) = Some ph /\
    outstanding m = match ph with Requested => 1%nat | _ => 0%nat end.

(** What the loop has observed of the exit signal. *)
Definition shutdown_state (m : machine) : Prop :=
  (quit_detected (locals m) = 0 /\ since_exit_signal (trace m) = None) \/
  (quit_detected (locals m) <> 0 /\
   exists post b0 rest,
     since_exit_signal (trace m) = Some post /\
     written post = b0 :: rest /\
     Forall (fun b => syncframe b = syncframe b0) (written post) /\
     quit_in_keyframe (locals m) = syncframe b0 /\
     written post ++ pending m = b0 :: completed post).

(** The invariant at the head of the loop. *)
Record loop_invariant (m : machine) : Prop := mk_inv {
  inv_lock : handler_lock (ctx m) = 1;
  inv_phase :
    exists ph,
      fill_protocol Unrequested (trace m) = Some ph /\
      match ph with
      | Unrequested =>
          need_next_buffer_to_be_filled (locals m) <> 0 /\
          encoder_ready (ctx m) = 0 /\ outstanding m = 0%nat
      | Requested =>
          need_next_buffer_to_be_filled (locals m) = 0 /\
          encoder_ready (ctx m) = 0 /\ outstanding m = 1%nat
      | Filled =>
          need_next_buffer_to_be_filled (locals m) = 0 /\
          encoder_ready (ctx m) <> 0 /\ outstanding m = 0%nat
      | Drained => False
      end;
  inv_sink : fd_out (ctx m) = map payload (written (trace m));
  inv_order : written (trace m) ++ pending m = completed (trace m);
  inv_shutdown : shutdown_state m
}.

Definition not_exit_signal (msg : string) : Prop :=
  String.eqb msg exit_signal_message = false.

(** The loop body up to its sleep. *)
Definition loop_control : prog machine flow :=
  bind (load Control Flag_encoder_ready) (fun ready =>
  bind (if negb (ready =? 0) then flush_ready_buffer else ret Continue) (fun fl =>
  match fl with
  | Break => ret Break
  | Continue => bind request_next_fill (fun _ => ret Continue)
  end)).

(** What holds when the loop is left through [break]: the buffer in
    hand is the one buffer completed and not written; the buffers
    written since the exit signal was reported start with the buffer
    that was ready then, carry its keyframe marker, and are followed by
    the buffer in hand, whose marker is the other one. *)
Definition exit_state (m : machine) : Prop :=
  protocol_kept m /\
  fd_out (ctx m) = map payload (written (trace m)) /\
  written (trace m) ++ [buffer_out (ctx m)] = completed (trace m) /\
  exists post b0 rest,
    since_exit_signal (trace m) = Some post /\
    written post = b0 :: rest /\
    Forall (fun b => syncframe b = syncframe b0) (written post) /\
    syncframe (buffer_out (ctx m)) <> syncframe b0 /\
    written post ++ [buffer_out (ctx m)] = b0 :: completed post.

Definition quit_seen (m : machine) : Prop :=
  want_quit m <> 0 \/ quit_detected (locals m) <> 0.

(** A run in which no signal is delivered. *)
Definition no_signal (script : list (list async_event)) : Prop :=
  ~ In Ev_signal (concat script).

(** The number of fills requested and accepted but not completed, after
    a trace. *)
Fixpoint fills_outstanding (t : list obs) : Z :=
  match t with
  | [] => 0
  | Tr_FillThisBuffer r :: t' =>
      (if r =? OMX_ErrorNone then 1 else 0) + fills_outstanding t'
  | Tr_FillBufferDone _ :: t' => fills_outstanding t' - 1
  | _ :: t' => fills_outstanding t'
  end.

Definition owed (p : phase) : Z :=
  match p with Requested => 1 | _ => 0 end.

End App.

(** ** The context and the callback table in memory

    What the initialisation code does to the bytes of [ctx] and of
    [callbacks].  Sizes and offsets follow the declarations of the
    structures under an ABI; the pointer size and the size of
    [VCOS_SEMAPHORE_T] are the ABI's. *)

Module Layout.

Record abi : Type := mk_abi {
  ptr_size : nat;      (* data and function pointers *)
  sem_size : nat;      (* sizeof(VCOS_SEMAPHORE_T) *)
  sem_align : nat
}.

(** The Raspberry Pi the program is written for (32-bit ARM, a POSIX
    semaphore of 16 bytes), and a 64-bit Linux. *)
Definition ILP32 : abi := mk_abi 4 16 4.
Definition LP64 : abi := mk_abi 8 32 8.

Record field : Type := mk_field {
  f_name : string;
  f_size : nat;
  f_align : nat
}.

Definition align_up (n a : nat) : nat := ((n + a - 1) / a * a)%nat.

Fixpoint struct_align (fs : list field) : nat :=
  match fs with
  | [] => 1%nat
  | f :: fs' => Nat.max (f_align f) (struct_align fs')
  end.

(** The end of the last field when the fields are laid out from [cur]. *)
Fixpoint struct_end (cur : nat) (fs : list field) : nat :=
  match fs with
  | [] => cur
  | f :: fs' => struct_end (align_up cur (f_align f) + f_size f) fs'
  end.

Definition struct_size (fs : list field) : nat :=
  align_up (struct_end 0 fs) (struct_align fs).

Fixpoint offset_from (cur : nat) (fs : list field) (name : string) : option nat :=
  match fs with
  | [] => None
  | f :: fs' =>
      let off := align_up cur (f_align f) in
      if String.eqb (f_name f) name then Some off
      else offset_from (off + f_size f) fs' name
  end.

Definition field_offset (fs : list field) (name : string) : nat :=
  match offset_from 0 fs name with Some off => off | None => 0%nat end.

Fixpoint field_size (fs : list field) (name : string) : nat :=
  match fs with
  | [] => 0%nat
  | f :: fs' => if String.eqb (f_name f) name then f_size f else field_size fs' name
  end.

Definition int_field (name : string) : field := mk_field name 4 4.
Definition pointer_field (a : abi) (name : string) : field :=
  mk_field name (ptr_size a) (ptr_size a).
Definition semaphore_field (a : abi) (name : string) : field :=
  mk_field name (sem_size a) (sem_align a).
Definition struct_field (name : string) (fs : list field) : field :=
  mk_field name (struct_size fs) (struct_align fs).

(** The declarations of part_000. *)
Definition camera_t (a : abi) : list field :=
  [int_field "ready"; pointer_field a "handle"; pointer_field a "buffer_in"].

Definition encoder_t (a : abi) : list field :=
  [int_field "ready"; pointer_field a "handle"; pointer_field a "buffer_out"].

Definition null_sink_t (a : abi) : list field :=
  [pointer_field a "handle"].

Definition appctx (a : abi) : list field :=
  [struct_field "camera" (camera_t a);
   struct_field "encoder" (encoder_t a);
   struct_field "null_sink" (null_sink_t a);
   int_field "flushed";
   pointer_field a "fd_out";
   semaphore_field a "handler_lock"].

(** The declaration of omx_common.h. *)
Definition common_context_t (a : abi) : list field :=
  [int_field "flushed"; semaphore_field a "handler_lock"].

(** [OMX_CALLBACKTYPE] (OpenMAX IL, OMX_Core.h): three function
    pointers. *)
Definition OMX_CALLBACKTYPE (a : abi) : list field :=
  [pointer_field a "EventHandler";
   pointer_field a "EmptyBufferDone";
   pointer_field a "FillBufferDone"].

(** A byte of memory: indeterminate, a value, or the [i]-th byte of the
    representation of something opaque (the address of a function, a
    created semaphore). *)
Inductive memval : Type :=
| Undef
| Byte (b : Z)
| Fragment (what : string) (i : nat).

Definition object := list memval.

(** An object with automatic storage starts indeterminate, one with
    static storage starts zeroed. *)
Definition automatic (size : nat) : object := repeat Undef size.
Definition static (size : nat) : object := repeat (Byte 0) size.

(** [memset(&obj, c, n)]; the model stops at the end of the object. *)
Definition memset (obj : object) (c : Z) (n : nat) : object :=
  repeat (Byte c) (Nat.min n (List.length obj)) ++ skipn n obj.

(** Storing the [size] bytes of the representation of [what] at [off]. *)
Definition store (obj : object) (off size : nat) (what : string) : object :=
  firstn off obj ++ map (Fragment what) (seq 0 size) ++ skipn (off + size) obj.

Definition field_bytes (fs : list field) (name : string) (obj : object) : object :=
  firstn (field_size fs name) (skipn (field_offset fs name) obj).

(** The two objects the initialisation code writes to, and the log of
    its writes: which object, the first byte and the number of bytes. *)
Inductive target : Type :=
| Obj_ctx
| Obj_callbacks.

Record write : Type := mk_write {
  w_target : target;
  w_first : nat;
  w_count : nat
}.

Record memory : Type := mk_memory {
  m_ctx : object;
  m_callbacks : object;
  m_writes : list write
}.

Definition object_at (t : target) (s : memory) : object :=
  match t with
  | Obj_ctx => m_ctx s
  | Obj_callbacks => m_callbacks s
  end.

Definition write_object (t : target) (o : object) (first count : nat) (s : memory)
  : memory :=
  match t with
  | Obj_ctx => mk_memory o (m_callbacks s) (m_writes s ++ [mk_write t first count])
  | Obj_callbacks => mk_memory (m_ctx s) o (m_writes s ++ [mk_write t first count])
  end.

(** [memset(&t, c, n)]. *)
Definition memset_object (t : target) (c : Z) (n : nat) (s : memory) : memory :=
  write_object t (memset (object_at t s) c n) 0 n s.

(** An assignment to, or an initialisation of, the [size] bytes at
    [off] of [t]. *)
Definition store_object (t : target) (off size : nat) (what : string) (s : memory)
  : memory :=
  write_object t (store (object_at t s) off size what) off size s.

(** [vcos_semaphore_create(&ctx.handler_lock, "handler_lock", 1)]. *)
Definition vcos_semaphore_create (fs : list field) (a : abi) (s : memory) : memory :=
  store_object Obj_ctx (field_offset fs "handler_lock") (sem_size a)
               "handler_lock, count 1" s.

(** [callbacks.EventHandler = event_handler;
     callbacks.FillBufferDone = fill_output_buffer_done_handler;] *)
Definition assign_callbacks (a : abi) (s : memory) : memory :=
  let s :=
    store_object Obj_callbacks (field_offset (OMX_CALLBACKTYPE a) "EventHandler")
                 (ptr_size a) "event_handler" s in
  store_object Obj_callbacks (field_offset (OMX_CALLBACKTYPE a) "FillBufferDone")
               (ptr_size a) "fill_output_buffer_done_handler" s.

(** The memory of [ctx] at two points of an initialisation (the
    context initialised, and after the registration step), the callback
    table after the registration step, and all the writes made. *)
Record init_memory : Type := mk_init {
  ctx_initialised : object;
  ctx_registered : object;
  callbacks_registered : object;
  init_writes : list write
}.

(** [main] (part_000): both objects are locals.
<<
    appctx ctx;
    memset(&ctx, 0, sizeof(ctx));
    if(vcos_semaphore_create(&ctx.handler_lock, "handler_lock", 1) != VCOS_SUCCESS) { ... }
>> *)
Definition main_start (a : abi) : memory :=
  mk_memory (automatic (struct_size (appctx a)))
            (automatic (struct_size (OMX_CALLBACKTYPE a))) [].

Definition main_context_setup (a : abi) (s : memory) : memory :=
  let s := memset_object Obj_ctx 0 (struct_size (appctx a)) s in
  vcos_semaphore_create (appctx a) a s.

(** The registration step of [main]:
<<
    OMX_CALLBACKTYPE callbacks;
    memset(&ctx, 0, sizeof(callbacks));
    callbacks.EventHandler   = event_handler;
    callbacks.FillBufferDone = fill_output_buffer_done_handler;
>> *)
Definition main_register_callbacks (a : abi) (s : memory) : memory :=
  let s := memset_object Obj_ctx 0 (struct_size (OMX_CALLBACKTYPE a)) s in
  assign_callbacks a s.

Definition main_init (a : abi) : init_memory :=
  let s0 := main_context_setup a (main_start a) in
  let s1 := main_register_callbacks a s0 in
  mk_init (m_ctx s0) (m_ctx s1) (m_callbacks s1) (m_writes s1).

(** The rearranged sources: [common_context_init] then [callback_init],
    on the globals [ctx] and [callbacks].
<<
    memset(&ctx, 0, sizeof(ctx));
    if(vcos_semaphore_create(&ctx.handler_lock, "handler_lock", 1) != VCOS_SUCCESS) { ... }
>>
<<
    memset(&ctx, 0, sizeof(callbacks));
    callbacks.EventHandler   = event_handler;
    callbacks.FillBufferDone = fill_output_buffer_done_handler;
>> *)
Definition common_context_init (a : abi) (s : memory) : memory :=
  let s := memset_object Obj_ctx 0 (struct_size (common_context_t a)) s in
  vcos_semaphore_create (common_context_t a) a s.

Definition callback_init (a : abi) (s : memory) : memory :=
  let s := memset_object Obj_ctx 0 (struct_size (OMX_CALLBACKTYPE a)) s in
  assign_callbacks a s.

Definition rearranged_start (a : abi) : memory :=
  mk_memory (static (struct_size (common_context_t a)))
            (static (struct_size (OMX_CALLBACKTYPE a))) [].

Definition rearranged_init (a : abi) : init_memory :=
  let s0 := common_context_init a (rearranged_start a) in
  let s1 := callback_init a s0 in
  mk_init (m_ctx s0) (m_ctx s1) (m_callbacks s1) (m_writes s1).

(** The bytes of a created semaphore, and of the two handlers. *)
Definition created_semaphore (a : abi) : object :=
  map (Fragment "handler_lock, count 1") (seq 0 (sem_size a)).

Definition handler_address (a : abi) (name : string) : object :=
  map (Fragment name) (seq 0 (ptr_size a)).

End Layout.

(** ** Port sequences of the components and of [main] *)

Section PortSequences.
Context {hw : Type} `{OMX_IL hw}.
Local Open Scope prog_scope.





(** What a component answers to [n] state queries made 10 ms apart,
    and a port to [n] queries of its definition. *)
Fixpoint state_reports (n : nat) (h : OMX_HANDLETYPE) (v : hw) : list OMX_STATETYPE :=
  match n with
  | O => []
  | S n' =>
      let '(e, v') := hw_get_state h v in
      e :: state_reports n' h (hw_sleep 10000 v')
  end.

Fixpoint port_reports (n : nat) (h : OMX_HANDLETYPE) (port : Z) (v : hw)
  : list (OMX_ERRORTYPE * OMX_BOOL) :=
  match n with
  | O => []
  | S n' =>
      let '(r, b, v') := hw_get_port_definition h port v in
      (r, b) :: port_reports n' h port (hw_sleep 10000 v')
  end.

End PortSequences.

(** The calls of a wait that polled and slept: one query and one sleep
    per answer that was not the wanted one. *)
Definition state_polls (h : OMX_HANDLETYPE) (es : list OMX_STATETYPE) : list call :=
  flat_map (fun e => [Call_GetState h e; Call_usleep 10000]) es.

Definition port_polls (h : OMX_HANDLETYPE) (port : Z) (vs : list OMX_BOOL) : list call :=
  flat_map (fun v => [Call_GetParameter h port OMX_ErrorNone v; Call_usleep 10000]) vs.

(** A successful query of the definition of [port] of [h], or a sleep. *)
Definition is_port_poll (h : OMX_HANDLETYPE) (port : Z) (c : call) : Prop :=
  match c with
  | Call_GetParameter h' port' r _ => h' = h /\ port' = port /\ r = OMX_ErrorNone
  | Call_usleep _ => True
  | _ => False
  end.

(** The port commands among a list of calls. *)
Fixpoint port_commands (X : list call) : list (OMX_HANDLETYPE * OMX_COMMANDTYPE * Z) :=
  match X with
  | [] => []
  | Call_SendCommand h OMX_CommandPortDisable n _ :: X' =>
      (h, OMX_CommandPortDisable, n) :: port_commands X'
  | Call_SendCommand h OMX_CommandPortEnable n _ :: X' =>
      (h, OMX_CommandPortEnable, n) :: port_commands X'
  | _ :: X' => port_commands X'
  end.

(** The calls of one port step that went through: the command,
    accepted; then polls of that port; at last the query that reports
    the flag as wanted. *)
Definition port_confirmed (cmd : OMX_COMMANDTYPE) (b : OMX_BOOL)
    (p : OMX_HANDLETYPE * Z * string) (seg : list call) : Prop :=
  let '(h, port, _) := p in
  exists pre,
    seg = Call_SendCommand h cmd port OMX_ErrorNone
            :: pre ++ [Call_GetParameter h port OMX_ErrorNone b] /\
    Forall (is_port_poll h port) pre.

(** A query of the definition of [port] of [h], whatever it reported,
    or a sleep. *)
Definition is_port_query (h : OMX_HANDLETYPE) (port : Z) (c : call) : Prop :=
  match c with
  | Call_GetParameter h' port' _ _ => h' = h /\ port' = port
  | Call_usleep _ => True
  | _ => False
  end.




(** ** The stride of the camera's video format

    [camera_param_set] (omx_camera.c) and [main] (part_000) compute the
    stride of the preview port from the frame width and the buffer
    alignment the port reports:
<<
    camera_portdef.format.video.nStride =
        (camera_portdef.format.video.nFrameWidth + camera_portdef.nBufferAlignment - 1)
        & (~(camera_portdef.nBufferAlignment - 1));
>>
    [nFrameWidth] and [nBufferAlignment] are [OMX_U32]; [nStride] is an
    [OMX_S32]. *)
Definition nStride_of (nFrameWidth nBufferAlignment : Z) : Z :=
  int32 (Z.land (u32 (u32 (nFrameWidth + nBufferAlignment) - 1))
                (u32 (Z.lnot (u32 (nBufferAlignment - 1))))).

Definition VIDEO_WIDTH : Z := 1920.

(** ** Character arrays and the strings the program builds in them

    The message helpers and [init_component_handle] build strings in
    fixed-size [char] arrays with the C library.  An array is a list of
    characters of the array's size; a string argument is given by its
    characters (it ends at its first NUL).  A library call that would
    read or write outside the array has no defined result: [None]. *)

Module CStr.

Definition NUL : Ascii.ascii := Ascii.zero.

Definition newline : Ascii.ascii := Ascii.ascii_of_nat 10.

Definition buffer := list Ascii.ascii.

(** The characters of a string argument. *)
Fixpoint chars (s : string) : list Ascii.ascii :=
  match s with
  | EmptyString => []
  | String c s' => if Ascii.eqb c NUL then [] else c :: chars s'
  end.

(** The string an array holds: its characters up to the first NUL. *)
Fixpoint held (buf : buffer) : list Ascii.ascii :=
  match buf with
  | [] => []
  | c :: buf' => if Ascii.eqb c NUL then [] else c :: held buf'
  end.

(** [memset(buf, 0, sizeof(buf))] on an array of [size] characters, and
    [calloc(size, sizeof(char))] when it succeeds. *)
Definition zeroed (size : nat) : buffer := repeat NUL size.

(** [strlen(buf)]: the index of the first NUL. *)
Fixpoint strlen (buf : buffer) : option nat :=
  match buf with
  | [] => None
  | c :: buf' => if Ascii.eqb c NUL then Some O else option_map S (strlen buf')
  end.

(** [strnlen(buf, maxlen)]: as [strlen], looking at no more than
    [maxlen] characters. *)
Fixpoint strnlen (buf : buffer) (maxlen : nat) : nat :=
  match maxlen, buf with
  | S n, c :: buf' => if Ascii.eqb c NUL then O else S (strnlen buf' n)
  | _, _ => O
  end.

(** Storing the characters [cs] and a terminating NUL from index [pos]. *)
Definition store_string (buf : buffer) (pos : nat) (cs : list Ascii.ascii)
  : option buffer :=
  if (pos + length cs + 1 <=? length buf)%nat then
    Some (firstn pos buf ++ cs ++ NUL :: skipn (pos + length cs + 1) buf)
  else None.

(** [buf[i] = c] and [buf[i]]. *)
Definition poke (buf : buffer) (i : nat) (c : Ascii.ascii) : option buffer :=
  if (i <? length buf)%nat then Some (firstn i buf ++ c :: skipn (S i) buf) else None.

Definition peek (buf : buffer) (i : nat) : option Ascii.ascii := nth_error buf i.

(** [strcat(dst, src)] and [strncat(dst, src, n)]: the characters of
    [src] (at most [n] of them) are stored from the end of the string
    in [dst], and a NUL after them. *)
Definition strcat (dst : buffer) (src : list Ascii.ascii) : option buffer :=
  match strlen dst with
  | Some l => store_string dst l src
  | None => None
  end.

Definition strncat (dst : buffer) (src : list Ascii.ascii) (n : nat) : option buffer :=
  match strlen dst with
  | Some l => store_string dst l (firstn n src)
  | None => None
  end.

(** [snprintf(buf, size, format, ...)] and [vsnprintf]: of the
    characters the format expands to, at most [size - 1] are stored,
    and a NUL after them; nothing is stored when [size] is 0. *)
Definition snprintf (buf : buffer) (size : nat) (expansion : list Ascii.ascii)
  : option buffer :=
  match size with
  | O => Some buf
  | S n => store_string buf 0 (firstn n expansion)
  end.

(** No NUL among the characters. *)
Definition no_nul (cs : list Ascii.ascii) : Prop :=
  Forall (fun c => Ascii.eqb c NUL = false) cs.

Definition ends_in_newline (cs : list Ascii.ascii) : bool :=
  Ascii.eqb (last cs NUL) newline.

(** [size_t] arithmetic: [a - b] wraps around. *)
Definition size_sub (a b : nat) : nat :=
  Z.to_nat ((Z.of_nat a - Z.of_nat b) mod 2 ^ 32).

(** *** [say] (part_000)
<<
    char str[1024];
    memset(str, 0, sizeof(str));
    va_start(args, message);
    vsnprintf(str, sizeof(str) - 1, message, args);
    va_end(args);
    size_t str_len = strnlen(str, sizeof(str));
    if(str[str_len - 1] != '\n') {
        str[str_len] = '\n';
    }
    fprintf(stderr, str);
>>
    [say_str] is the array handed to [fprintf] as its format;
    [expansion] is what [message] expands to with its arguments. *)
Definition say_str (expansion : list Ascii.ascii) : option buffer :=
  let str := zeroed 1024 in
  match snprintf str (1024 - 1) expansion with
  | None => None
  | Some str =>
      let str_len := strnlen str 1024 in
      match peek str (size_sub str_len 1) with
      | None => None
      | Some c =>
          if negb (Ascii.eqb c newline) then poke str str_len newline
          else Some str
      end
  end.

(** *** The full name of a component, in [init_component_handle]

    part_000:
<<
    char fullname[32];
    memset(fullname, 0, sizeof(fullname));
    strcat(fullname, "OMX.broadcom.");
    strncat(fullname, name, strlen(fullname) - 1);
>>
    the rearranged sources:
<<
    char fullname[64]; // 32 is too short for splitter
    memset(fullname, 0, sizeof(fullname));
    strcat(fullname, "OMX.broadcom.");
    strcat(fullname, name);
>> *)
Definition fullname_bounded (name : list Ascii.ascii) : option buffer :=
  let fullname := zeroed 32 in
  match strcat fullname (chars "OMX.broadcom.") with
  | None => None
  | Some fullname =>
      match strlen fullname with
      | None => None
      | Some l => strncat fullname name (size_sub l 1)
      end
  end.

Definition fullname_unbounded (name : list Ascii.ascii) : option buffer :=
  let fullname := zeroed 64 in
  match strcat fullname (chars "OMX.broadcom.") with
  | None => None
  | Some fullname => strcat fullname name
  end.

(** *** Names of formats the program does not know

    The [default] branch of [dump_compression_format] and of
    [dump_color_format] (part_000):
<<
    f = calloc(23, sizeof(char));
    if(f == NULL) {
        die("Failed to allocate memory");
    }
    snprintf(f, 23 * sizeof(char) - 1, "format type 0x%08x", c);
    return f;
>> *)

Definition hex_digit (d : Z) : Ascii.ascii :=
  nth (Z.to_nat d)
      (chars "0123456789abcdef") (Ascii.ascii_of_nat 48).

(** The [n] low hexadecimal digits of [z], most significant first. *)
Fixpoint hex (n : nat) (z : Z) : list Ascii.ascii :=
  match n with
  | O => []
  | S n' => hex n' (z / 16) ++ [hex_digit (z mod 16)]
  end.

(** ["%08x"] of a 32-bit value: eight digits, padded with zeros. *)
Definition printf_08x (c : Z) : list Ascii.ascii := hex 8 (c mod 2 ^ 32).

(** [OMX_VIDEO_CODINGTYPE] is an enumeration: a variable of the type
    holds any value of its 32-bit underlying type.  The enumerators the
    function names, with the values IL/OMX_Video.h gives them (the
    vendor extensions start after 0x7F000000). *)
Definition OMX_VIDEO_CODINGTYPE := Z.
Definition OMX_VIDEO_CodingUnused : OMX_VIDEO_CODINGTYPE := 0.
Definition OMX_VIDEO_CodingAutoDetect : OMX_VIDEO_CODINGTYPE := 1.
Definition OMX_VIDEO_CodingMPEG2 : OMX_VIDEO_CODINGTYPE := 2.
Definition OMX_VIDEO_CodingH263 : OMX_VIDEO_CODINGTYPE := 3.
Definition OMX_VIDEO_CodingMPEG4 : OMX_VIDEO_CODINGTYPE := 4.
Definition OMX_VIDEO_CodingWMV : OMX_VIDEO_CODINGTYPE := 5.
Definition OMX_VIDEO_CodingRV : OMX_VIDEO_CODINGTYPE := 6.
Definition OMX_VIDEO_CodingAVC : OMX_VIDEO_CODINGTYPE := 7.
Definition OMX_VIDEO_CodingMJPEG : OMX_VIDEO_CODINGTYPE := 8.
Definition OMX_VIDEO_CodingVP6 : OMX_VIDEO_CODINGTYPE := 0x7F000001.
Definition OMX_VIDEO_CodingVP7 : OMX_VIDEO_CODINGTYPE := 0x7F000002.
Definition OMX_VIDEO_CodingVP8 : OMX_VIDEO_CODINGTYPE := 0x7F000003.
Definition OMX_VIDEO_CodingYUV : OMX_VIDEO_CODINGTYPE := 0x7F000004.
Definition OMX_VIDEO_CodingSorenson : OMX_VIDEO_CODINGTYPE := 0x7F000005.
Definition OMX_VIDEO_CodingTheora : OMX_VIDEO_CODINGTYPE := 0x7F000006.
Definition OMX_VIDEO_CodingMVC : OMX_VIDEO_CODINGTYPE := 0x7F000007.

(** [switch(c) { case v: return r; ... }]: the result of the case whose
    label is the value of [c], if there is one. *)
Fixpoint switch_case {A : Type} (c : Z) (cases : list (Z * A)) : option A :=
  match cases with
  | [] => None
  | (v, r) :: cases' => if c =? v then Some r else switch_case c cases'
  end.

(** The cases of [dump_compression_format]. *)
Definition compression_format_cases : list (OMX_VIDEO_CODINGTYPE * string) :=
  [(OMX_VIDEO_CodingUnused, "not used");
   (OMX_VIDEO_CodingAutoDetect, "autodetect");
   (OMX_VIDEO_CodingMPEG2, "MPEG2");
   (OMX_VIDEO_CodingH263, "H.263");
   (OMX_VIDEO_CodingMPEG4, "MPEG4");
   (OMX_VIDEO_CodingWMV, "Windows Media Video");
   (OMX_VIDEO_CodingRV, "RealVideo");
   (OMX_VIDEO_CodingAVC, "H.264/AVC");
   (OMX_VIDEO_CodingMJPEG, "Motion JPEG");
   (OMX_VIDEO_CodingVP6, "VP6");
   (OMX_VIDEO_CodingVP7, "VP7");
   (OMX_VIDEO_CodingVP8, "VP8");
   (OMX_VIDEO_CodingYUV, "Raw YUV video");
   (OMX_VIDEO_CodingSorenson, "Sorenson");
   (OMX_VIDEO_CodingTheora, "OGG Theora");
   (OMX_VIDEO_CodingMVC, "H.264/MVC")]%string.

(** [calloc(n, sizeof(char))]: a zeroed array, or [NULL]. *)
Definition calloc (n : nat) (succeeds : bool) : option buffer :=
  if succeeds then Some (zeroed n) else None.

(** The text [dump_compression_format] returns; [None] stands for an
    undefined result. *)
Definition dump_compression_format {St} (calloc_succeeds : bool)
    (c : OMX_VIDEO_CODINGTYPE) : prog St (option (list Ascii.ascii)) :=
  match switch_case c compression_format_cases with
  | Some name => ret (Some (chars name))
  | None =>
      match calloc 23 calloc_succeeds with
      | None => die "Failed to allocate memory"
      | Some f =>
          ret (option_map held
                 (snprintf f (23 * 1 - 1) (chars "format type 0x" ++ printf_08x c)))
      end
  end.

End CStr.

(** ** Acquiring a component: [init_component_handle]

    The calls of the core ([OMX_GetHandle], and [OMX_GetParameter] for
    the four port groups of a component) are a second interface of the
    layer.  A session logs what the code prints, the calls of the core
    and the calls of the first interface in one sequence. *)

Module Setup.

Inductive OMX_INDEXTYPE : Type :=
| OMX_IndexParamAudioInit
| OMX_IndexParamVideoInit
| OMX_IndexParamImageInit
| OMX_IndexParamOtherInit.

(** The fields of [OMX_PORT_PARAM_TYPE] the code reads. *)
Record OMX_PORT_PARAM_TYPE : Type := mk_ports {
  nPorts : Z;
  nStartPortNumber : Z
}.

Class OMX_Core (hw : Type) : Type := {
  hw_get_handle : list Ascii.ascii -> hw -> OMX_ERRORTYPE * OMX_HANDLETYPE * hw;
  hw_get_ports :
    OMX_HANDLETYPE -> OMX_INDEXTYPE -> hw -> OMX_ERRORTYPE * OMX_PORT_PARAM_TYPE * hw
}.

Inductive arg : Type :=
| Arg_int (z : Z)
| Arg_str (s : list Ascii.ascii).

Inductive step : Type :=
| Say (format : string) (args : list arg)
| GetHandle (cComponentName : list Ascii.ascii) (r : OMX_ERRORTYPE) (h : OMX_HANDLETYPE)
| GetPorts (h : OMX_HANDLETYPE) (index : OMX_INDEXTYPE) (r : OMX_ERRORTYPE)
    (ports : OMX_PORT_PARAM_TYPE)
| IL (c : call).

Record session (hw : Type) : Type := mk_session {
  layer : hw;
  steps : list step
}.
Arguments mk_session {hw} layer steps.
Arguments layer {hw} s.
Arguments steps {hw} s.

Section Code.
Context {hw : Type} `{OMX_IL hw} `{OMX_Core hw}.
Local Open Scope prog_scope.

(** Code written against the first interface, run in a session: its
    calls go to the log of the session. *)
Definition lift {A} (p : prog (world hw) A) : prog (session hw) A :=
  fun x =>
    let out := p (mk_world (layer x) []) in
    let x' := mk_session (hardware (final_world out))
                         (steps x ++ map IL (calls (final_world out))) in
    match out with
    | Returned a _ => Returned a x'
    | Died d _ => Died d x'
    | Spinning _ => Spinning x'
    end.

Definition say (format : string) (args : list arg) : prog (session hw) unit :=
  fun x => Returned tt (mk_session (layer x) (steps x ++ [Say format args])).

(** [OMX_GetHandle(hComponent, fullname, pAppData, callbacks)]. *)
Definition OMX_GetHandle (cComponentName : list Ascii.ascii)
  : prog (session hw) (OMX_ERRORTYPE * OMX_HANDLETYPE) :=
  fun x =>
    let '(r, h, hw') := hw_get_handle cComponentName (layer x) in
    Returned (r, h) (mk_session hw' (steps x ++ [GetHandle cComponentName r h])).

(** [OMX_GetParameter( *hComponent, types[i], &ports)]. *)
Definition OMX_GetParameter (h : OMX_HANDLETYPE) (index : OMX_INDEXTYPE)
  : prog (session hw) (OMX_ERRORTYPE * OMX_PORT_PARAM_TYPE) :=
  fun x =>
    let '(r, ports, hw') := hw_get_ports h index (layer x) in
    Returned (r, ports) (mk_session hw' (steps x ++ [GetPorts h index r ports])).

(** The inner loop; [nPortIndex] and the bound are [OMX_U32].
<<
    for(nPortIndex = ports.nStartPortNumber; nPortIndex < ports.nStartPortNumber + ports.nPorts; nPortIndex++) {
        say("Disabling port %d of component %s", nPortIndex, fullname);
        if((r = OMX_SendCommand( *hComponent, OMX_CommandPortDisable, nPortIndex, NULL)) != OMX_ErrorNone) {
            omx_die(r, "Failed to disable port %d of component %s", nPortIndex, fullname);
        }
        block_until_port_changed( *hComponent, nPortIndex, OMX_FALSE);
    }
>> *)
Fixpoint disable_ports_loop (fuel : nat) (hComponent : OMX_HANDLETYPE)
    (fullname : list Ascii.ascii) (ports : OMX_PORT_PARAM_TYPE) (nPortIndex : Z)
  : prog (session hw) unit :=
  match fuel with
  | O => spin
  | S fuel' =>
      if nPortIndex <? u32 (nStartPortNumber ports + nPorts ports) then
        say "Disabling port %d of component %s" [Arg_int nPortIndex; Arg_str fullname] ;;
        r <- lift (OMX_SendCommand hComponent OMX_CommandPortDisable nPortIndex) ;;
        when (negb (r =? OMX_ErrorNone))
             (omx_die r "Failed to disable port %d of component %s") ;;
        lift (block_until_port_changed fuel' hComponent nPortIndex OMX_FALSE) ;;
        disable_ports_loop fuel' hComponent fullname ports (u32 (nPortIndex + 1))
      else ret tt
  end.

(** The outer loop, over [types[0..3]]:
<<
    for(i = 0; i < 4; i++) {
        if(OMX_GetParameter( *hComponent, types[i], &ports) == OMX_ErrorNone) {
            ... the inner loop ...
        }
    }
>> *)
Fixpoint disable_port_groups (fuel : nat) (hComponent : OMX_HANDLETYPE)
    (fullname : list Ascii.ascii) (types : list OMX_INDEXTYPE)
  : prog (session hw) unit :=
  match types with
  | [] => ret tt
  | index :: types' =>
      rp <- OMX_GetParameter hComponent index ;;
      (if fst rp =? OMX_ErrorNone then
         disable_ports_loop fuel hComponent fullname (snd rp)
           (u32 (nStartPortNumber (snd rp)))
       else ret tt) ;;
      disable_port_groups fuel hComponent fullname types'
  end.

Definition types : list OMX_INDEXTYPE :=
  [OMX_IndexParamAudioInit; OMX_IndexParamVideoInit;
   OMX_IndexParamImageInit; OMX_IndexParamOtherInit].

(** [init_component_handle] from the point where [fullname] is built;
    the value returned is the handle stored through [hComponent].
<<
    say("Initializing component %s", fullname);
    if((r = OMX_GetHandle(hComponent, fullname, pAppData, callbacks)) != OMX_ErrorNone) {
        omx_die(r, "Failed to get handle for component %s", fullname);
    }
    ...
    OMX_INIT_STRUCTURE(ports);
    OMX_GetParameter( *hComponent, OMX_IndexParamVideoInit, &ports);
    ... the loops ...
>> *)
Definition init_component_handle_named (fuel : nat) (fullname : list Ascii.ascii)
  : prog (session hw) OMX_HANDLETYPE :=
  say "Initializing component %s" [Arg_str fullname] ;;
  rh <- OMX_GetHandle fullname ;;
  when (negb (fst rh =? OMX_ErrorNone))
       (omx_die (fst rh) "Failed to get handle for component %s") ;;
  OMX_GetParameter (snd rh) OMX_IndexParamVideoInit ;;
  disable_port_groups fuel (snd rh) fullname types ;;
  ret (snd rh).

(** [init_component_handle(name, ...)] of part_000 and of the
    rearranged sources; [None] when building the name has no defined
    result. *)
Definition init_component_handle (fuel : nat) (name : string)
  : option (prog (session hw) OMX_HANDLETYPE) :=
  option_map (fun fullname => init_component_handle_named fuel (CStr.held fullname))
             (CStr.fullname_bounded (CStr.chars name)).

Definition init_component_handle_rearranged (fuel : nat) (name : string)
  : option (prog (session hw) OMX_HANDLETYPE) :=
  option_map (fun fullname => init_component_handle_named fuel (CStr.held fullname))
             (CStr.fullname_unbounded (CStr.chars name)).

End Code.

(** Reading the log of a session. *)

Fixpoint il_calls (l : list step) : list call :=
  match l with
  | [] => []
  | IL c :: l' => c :: il_calls l'
  | _ :: l' => il_calls l'
  end.

Fixpoint handle_requests (l : list step)
  : list (list Ascii.ascii * OMX_ERRORTYPE * OMX_HANDLETYPE) :=
  match l with
  | [] => []
  | GetHandle name r h :: l' => (name, r, h) :: handle_requests l'
  | _ :: l' => handle_requests l'
  end.

Fixpoint group_queries (l : list step)
  : list (OMX_HANDLETYPE * OMX_INDEXTYPE * OMX_ERRORTYPE * OMX_PORT_PARAM_TYPE) :=
  match l with
  | [] => []
  | GetPorts h index r ports :: l' => (h, index, r, ports) :: group_queries l'
  | _ :: l' => group_queries l'
  end.

(** The port numbers from [a] up to, not including, [b]. *)
Definition port_numbers (a b : Z) : list Z :=
  map (fun i => a + Z.of_nat i) (seq 0 (Z.to_nat (b - a))).

(** The ports of a group as the code walks them: from the start
    number, as long as the number is below start plus count, both taken
    as [OMX_U32]. *)
Definition ports_walked (ports : OMX_PORT_PARAM_TYPE) : list Z :=
  port_numbers (u32 (nStartPortNumber ports))
               (u32 (nStartPortNumber ports + nPorts ports)).

(** The ports of a group whose query succeeded. *)
Definition ports_reported
    (q : OMX_HANDLETYPE * OMX_INDEXTYPE * OMX_ERRORTYPE * OMX_PORT_PARAM_TYPE) : list Z :=
  let '(_, _, r, ports) := q in
  if r =? OMX_ErrorNone then ports_walked ports else [].

End Setup.

(** ** [block_until_state_changed] when a state query can fail

    [OMX_GetState] returns a status like every call of the layer, and a
    query that fails need not store anything through [pState].  The
    function discards the status and compares [eState], which it
    declares without an initializer.  Here the query has its status and
    the variable its history; [OMX_IL] above is the layer whose state
    queries all succeed. *)

Module StateQuery.

(** A state query reports a status and stores a state, or stores
    nothing. *)
Class OMX_IL_status (hw : Type) : Type := {
  hw_state_query : OMX_HANDLETYPE -> hw -> OMX_ERRORTYPE * option OMX_STATETYPE * hw;
  hw_state_sleep : Z -> hw -> hw
}.

Inductive poll : Type :=
| Poll_GetState (h : OMX_HANDLETYPE) (r : OMX_ERRORTYPE) (stored : option OMX_STATETYPE)
| Poll_usleep (usec : Z).

Record qworld (hw : Type) : Type := mk_qworld {
  q_hardware : hw;
  q_calls : list poll
}.
Arguments mk_qworld {hw} q_hardware q_calls.
Arguments q_hardware {hw} q.
Arguments q_calls {hw} q.

Section Code.
Context {hw : Type} `{OMX_IL_status hw}.

Local Open Scope prog_scope.

(** [OMX_GetState(h, &eState)]: the status, and what [eState] holds
    after the call. *)
Definition OMX_GetState (h : OMX_HANDLETYPE) (eState : OMX_STATETYPE)
  : prog (qworld hw) (OMX_ERRORTYPE * OMX_STATETYPE) :=
  fun w =>
    let '(r, stored, hw') := hw_state_query h (q_hardware w) in
    Returned (r, match stored with Some e => e | None => eState end)
      (mk_qworld hw' (q_calls w ++ [Poll_GetState h r stored])).

Definition usleep (usec : Z) : prog (qworld hw) unit :=
  fun w =>
    Returned tt
      (mk_qworld (hw_state_sleep usec (q_hardware w)) (q_calls w ++ [Poll_usleep usec])).

(** The loop of [block_until_state_changed] (part_000):
<<
    OMX_STATETYPE eState;
    int i = 0;
    while(i++ == 0 || eState != wanted_eState) {
        OMX_GetState(hComponent, &eState);
        if(eState != wanted_eState) {
            usleep(10000);
        }
    }
>> *)
Fixpoint state_changed_loop (fuel : nat) (hComponent : OMX_HANDLETYPE)
    (wanted_eState : OMX_STATETYPE) (i : Z) (eState : OMX_STATETYPE)
  : prog (qworld hw) unit :=
  match fuel with
  | O => spin
  | S fuel' =>
      let again := (i =? 0) || negb (OMX_STATETYPE_eqb eState wanted_eState) in
      let i := int32 (i + 1) in
      if again then
        re <- OMX_GetState hComponent eState ;;
        let eState := snd re in
        when (negb (OMX_STATETYPE_eqb eState wanted_eState)) (usleep 10000) ;;
        state_changed_loop fuel' hComponent wanted_eState i eState
      else ret tt
  end.

(** [eState_on_entry] is what the storage of [eState] holds when the
    function is entered. *)
Definition block_until_state_changed (fuel : nat) (hComponent : OMX_HANDLETYPE)
    (wanted_eState eState_on_entry : OMX_STATETYPE) : prog (qworld hw) unit :=
  state_changed_loop fuel hComponent wanted_eState 0 eState_on_entry.

End Code.

(** Reading the log: a query of [h] or a sleep; what [eState] holds
    after a log of calls, started from [e]; the queries that reported
    a state. *)
Definition is_query_of (h : OMX_HANDLETYPE) (c : poll) : Prop :=
  match c with
  | Poll_GetState h' _ _ => h' = h
  | Poll_usleep _ => True
  end.

Fixpoint eState_after (e : OMX_STATETYPE) (X : list poll) : OMX_STATETYPE :=
  match X with
  | [] => e
  | Poll_GetState _ _ (Some e') :: X' => eState_after e' X'
  | _ :: X' => eState_after e X'
  end.

Definition reported (s : OMX_STATETYPE) (c : poll) : Prop :=
  match c with
  | Poll_GetState _ _ (Some e) => e = s
  | _ => False
  end.

(** The layer of [OMX_IL], whose state queries succeed and store what
    they report, as a layer with a status; its calls and its worlds. *)
Definition answering {hw : Type} `{OMX_IL hw} : OMX_IL_status hw := {|
  hw_state_query := fun h v =>
    let '(e, v') := hw_get_state h v in (OMX_ErrorNone, Some e, v');
  hw_state_sleep := fun usec v => hw_sleep usec v
|}.

Definition answered (c : call) : list poll :=
  match c with
  | Call_GetState h e => [Poll_GetState h OMX_ErrorNone (Some e)]
  | Call_usleep usec => [Poll_usleep usec]
  | _ => []
  end.

Definition as_answering {hw : Type} (w : world hw) : qworld hw :=
  mk_qworld (hardware w) (flat_map answered (calls w)).

End StateQuery.

(** ** Vocabulary for the further properties *)

(** A specification of a piece of control code: from a state that
    satisfies [P], a return satisfies [Q] and an exit through [die]
    satisfies [D]. *)
Definition triple {St A} (P : St -> Prop) (p : prog St A)
    (Q : A -> St -> Prop) (D : fatal -> St -> Prop) : Prop :=
  forall s, P s ->
    match p s with
    | Returned a s' => Q a s'
    | Died d s' => D d s'
    | Spinning _ => True
    end.

(** [p] keeps [J]: it holds again whenever [p] returns. *)
Definition keeps {St A} (J : St -> Prop) (p : prog St A) : Prop :=
  triple J p (fun _ => J) (fun _ _ => True).


Module Drain.
Import App.

(** An event that, if it is a completion, completes a buffer whose
    keyframe marker is [k]. *)
Definition fills_with (k : Z) (e : async_event) : Prop :=
  match e with
  | Ev_FillBufferDone b => syncframe b = k
  | _ => True
  end.

(** Every buffer completed so far, and every one still to come, carries
    the marker [k]. *)
Definition uniform (k : Z) (m : machine) : Prop :=
  Forall (fun b => syncframe b = k) (completed (trace m)) /\
  Forall (Forall (fills_with k)) (deliveries m).


End Drain.

Module Sync.
Import App.

Definition is_error_event (e : async_event) : bool :=
  match e with
  | Ev_event (OMX_EventError _) => true
  | _ => false
  end.

(** The event that raises the camera-ready flag. *)
Definition raises_camera_ready (e : async_event) : bool :=
  match e with
  | Ev_event (OMX_EventParamOrConfigChanged _ OMX_IndexParamCameraDeviceNumber) => true
  | _ => false
  end.

(** Events other than the completion of a flush. *)
Definition leaves_unflushed (e : async_event) : bool :=
  match e with
  | Ev_event (OMX_EventCmdComplete OMX_CommandFlush _) => false
  | _ => true
  end.

Definition flush_never_completes (m : machine) : Prop :=
  flushed (ctx m) = 0 /\
  Forall (fun es => forallb leaves_unflushed es = true) (deliveries m).

(** Who holds the lock after a log of accesses that keeps the
    discipline. *)
Fixpoint holder_after (holder : option thread) (l : list (thread * access))
  : option thread :=
  match l with
  | [] => holder
  | (t, Acquire) :: l' => holder_after (Some t) l'
  | (_, Release) :: l' => holder_after None l'
  | _ :: l' => holder_after holder l'
  end.

(** Complete critical sections: the discipline is kept and the lock is
    free at the end. *)
Definition critical_sections (X : list (thread * access)) : Prop :=
  disciplined None X = true /\ holder_after None X = None.

(** What a piece of code adds to the log of accesses, run with the
    critical section free, is a sequence of complete critical sections,
    and the section is free again when it returns. *)
Definition in_sections {A} (p : prog machine A) : Prop :=
  forall m,
  0 < handler_lock (ctx m) ->
  exists X,
    accesses (final_world (p m)) = accesses m ++ X /\
    critical_sections X /\
    (is_Returned (p m) = true ->
     handler_lock (ctx (final_world (p m))) = handler_lock (ctx m)).

(** The accesses of one thread among a log. *)
Definition accesses_of (t : thread) (X : list (thread * access)) : list access :=
  map snd (filter (fun a => thread_eqb (fst a) t) X).

End Sync.

(** *** Scripts of a well-behaved encoder, and the loop seen from its head

    During one sleep of the loop the layer delivers at most one
    completion (only one fill is ever outstanding) and possibly a
    signal.  A script of such sleeps is what the totality statements of
    the loop are about. *)

Module Feed.
Import App.

(** One sleep: whether a signal is delivered during it, and the buffer
    the encoder completes during it, if it completes one. *)
Definition sleep : Type := (bool * option OMX_BUFFERHEADERTYPE)%type.

Definition completes (f : option OMX_BUFFERHEADERTYPE) : list async_event :=
  match f with
  | Some b => [Ev_FillBufferDone b]
  | None => []
  end.

Definition events_of (s : sleep) : list async_event :=
  (if fst s then [Ev_signal] else []) ++ completes (snd s).

Definition olist {A} (o : option A) : list A :=
  match o with
  | Some a => [a]
  | None => []
  end.

(** The buffers completed during a list of sleeps, in order. *)
Definition completions (ss : list sleep) : list OMX_BUFFERHEADERTYPE :=
  flat_map (fun s => olist (snd s)) ss.

(** The bytes a list of buffers asks the stream to take. *)
Definition total_filled (bs : list OMX_BUFFERHEADERTYPE) : Z :=
  fold_right (fun b n => nFilledLen b + n) 0 bs.

(** The output buffer as the head of the loop finds it: no fill
    requested yet, a fill outstanding, or a completed buffer marked
    ready. *)
Inductive slot : Type :=
| Fresh
| Waiting
| Ready (b : OMX_BUFFERHEADERTYPE).

Definition slot_of (f : option OMX_BUFFERHEADERTYPE) : slot :=
  match f with
  | Some b => Ready b
  | None => Waiting
  end.

Definition in_hand (sl : slot) : list OMX_BUFFERHEADERTYPE :=
  match sl with
  | Ready b => [b]
  | _ => []
  end.

(** The marker latched when the exit signal was reported, the buffers
    written since the report and the buffers completed since. *)
Definition latch : Type :=
  (Z * list OMX_BUFFERHEADERTYPE * list OMX_BUFFERHEADERTYPE)%type.

(** What matters of the machine at the head of the loop. *)
Record view : Type := mk_view {
  v_slot : slot;
  v_written : list OMX_BUFFERHEADERTYPE;
  v_signal : bool;
  v_latch : option latch
}.

(** The machine [m], started with room for [R] bytes in the stream, is
    at the head of the loop in the situation [a]. *)
Definition at_view (R : Z) (m : machine) (a : view) : Prop :=
  handler_lock (ctx m) = 1
  /\ match v_slot a with
     | Fresh =>
         need_next_buffer_to_be_filled (locals m) = 1 /\
         encoder_ready (ctx m) = 0 /\ outstanding m = 0%nat
     | Waiting =>
         need_next_buffer_to_be_filled (locals m) = 0 /\
         encoder_ready (ctx m) = 0 /\ outstanding m = 1%nat
     | Ready b =>
         need_next_buffer_to_be_filled (locals m) = 0 /\
         encoder_ready (ctx m) = 1 /\ outstanding m = 0%nat /\
         buffer_out (ctx m) = b
     end
  /\ fd_out (ctx m) = map payload (v_written a)
  /\ written (trace m) = v_written a
  /\ completed (trace m) = v_written a ++ in_hand (v_slot a)
  /\ room m = R - total_filled (v_written a)
  /\ want_quit m = (if v_signal a then 1 else 0)
  /\ Forall (fun r => r = OMX_ErrorNone) (fill_statuses m)
  /\ match v_latch a with
     | None => quit_detected (locals m) = 0 /\ since_exit_signal (trace m) = None
     | Some (k, Wq, Cq) =>
         quit_detected (locals m) = 1 /\ quit_in_keyframe (locals m) = k /\
         exists post,
           since_exit_signal (trace m) = Some post /\
           written post = Wq /\ completed post = Cq
     end.

(** The situation after the sleep [s], when [W] is written, [sg] tells
    whether a signal was seen and [l] is the latch. *)
Definition deliver (s : sleep) (W : list OMX_BUFFERHEADERTYPE) (sg : bool)
    (l : option latch) : view :=
  mk_view (slot_of (snd s)) W (sg || fst s)
          (match l with
           | Some (k, Wq, Cq) => Some (k, Wq, Cq ++ olist (snd s))
           | None => None
           end).

(** The situation one iteration later, when the sleep of the iteration
    is [s]; [None] when the iteration leaves the loop. *)
Definition iterate (a : view) (s : sleep) : option view :=
  match v_slot a with
  | Ready b =>
      let l := match v_latch a with
               | None => if v_signal a then Some (syncframe b, [], []) else None
               | Some l => Some l
               end in
      match l with
      | Some (k, Wq, Cq) =>
          if k =? syncframe b
          then Some (deliver s (v_written a ++ [b]) (v_signal a) (Some (k, Wq ++ [b], Cq)))
          else None
      | None => Some (deliver s (v_written a ++ [b]) (v_signal a) None)
      end
  | _ => Some (deliver s (v_written a) (v_signal a) (v_latch a))
  end.

Fixpoint iterations (a : view) (ss : list sleep) : option view :=
  match ss with
  | [] => Some a
  | s :: ss' =>
      match iterate a s with
      | Some a1 => iterations a1 ss'
      | None => None
      end
  end.

End Feed.

(** ** Scenarios *)

(** The simulated layer: disabling encoder port 201 while the pipeline
    runs takes one sleep to be confirmed; the wait returns after the
    second query. *)
Definition disable_201 : prog (world videocore) unit :=
  bind (OMX_SendCommand encoder_handle OMX_CommandPortDisable 201)
       (fun _ => block_until_port_changed 10 encoder_handle 201 OMX_FALSE).

(** A camera that never answers: the context zeroed, the semaphore
    created, no event ever delivered.  The wait of [main] is still
    polling after a thousand iterations; the wait of the camera
    component ends the process at its 102nd sleep. *)
Definition silent_camera : App.machine :=
  App.mk_machine (App.mk_ctx 0 0 (App.mk_buffer [] 0 0 0 0) 0 [] 1) 0
    (App.mk_vars 0 0 0) 0 [] 0 [] [] [].

(** A flush completed before the call: the flag is up.  From a stale
    non-zero [quit] the call returns with the flag still up; from zero
    it takes the flag down. *)
Definition flush_pending : App.machine :=
  App.mk_machine (App.mk_ctx 0 0 (App.mk_buffer [] 0 0 0 0) 1 [] 1) 0
    (App.mk_vars 0 0 0) 0 [] 0 [] [] [].

(** A keyframe buffer and a non-keyframe buffer holding the byte [c]. *)
Definition keyframe_buffer (c : Byte.byte) : App.OMX_BUFFERHEADERTYPE :=
  App.mk_buffer [c; c] 2 2 0 App.OMX_BUFFERFLAG_SYNCFRAME.

Definition delta_buffer (c : Byte.byte) : App.OMX_BUFFERHEADERTYPE :=
  App.mk_buffer [c; c; c] 3 1 1 0x10.

Definition empty_buffer : App.OMX_BUFFERHEADERTYPE := App.mk_buffer [] 0 0 0 0.

(** Shutdown mid-GOP: a keyframe, a delta frame, then the signal while
    the delta frame C is the filled buffer; D is another delta frame, E
    the next keyframe. *)
Definition mid_gop_script : list (list App.async_event) :=
  [ [App.Ev_FillBufferDone (keyframe_buffer Byte.x41)];
    [App.Ev_FillBufferDone (delta_buffer Byte.x42)];
    [App.Ev_signal; App.Ev_FillBufferDone (delta_buffer Byte.x43)];
    [App.Ev_FillBufferDone (delta_buffer Byte.x44)];
    [App.Ev_FillBufferDone (keyframe_buffer Byte.x45)];
    [App.Ev_FillBufferDone (keyframe_buffer Byte.x46)] ].

Definition mid_gop_run : outcome App.machine unit :=
  App.main_loop 20 (App.at_loop_entry empty_buffer [] 1000 mid_gop_script).

(** Normal run: three completions, no signal. *)
Definition normal_script : list (list App.async_event) :=
  [ [App.Ev_FillBufferDone (keyframe_buffer Byte.x41)];
    [App.Ev_FillBufferDone (delta_buffer Byte.x42)];
    [];
    [App.Ev_FillBufferDone (delta_buffer Byte.x43)];
    [] ].

Definition normal_run : outcome App.machine unit :=
  App.main_loop 6 (App.at_loop_entry empty_buffer [] 1000 normal_script).

(** The keyframe alignment as the specification words it: the last
    buffer written since the exit signal was reported has the keyframe
    marker, or nothing was written since and the buffer in hand has
    it. *)
Definition ends_on_keyframe_as_claimed (m' : App.machine) : Prop :=
  exists post,
    App.since_exit_signal (App.trace m') = Some post /\
    match rev (App.written post) with
    | last_written :: _ => App.is_keyframe last_written = true
    | [] => App.is_keyframe (App.buffer_out (App.ctx m')) = true
    end.

(** A stream of keyframes only, with a signal on the way. *)
Definition keyframes_only_script : list (list App.async_event) :=
  [ [App.Ev_FillBufferDone (keyframe_buffer Byte.x41)];
    [App.Ev_signal; App.Ev_FillBufferDone (keyframe_buffer Byte.x42)];
    [App.Ev_FillBufferDone (keyframe_buffer Byte.x43)];
    [App.Ev_FillBufferDone (keyframe_buffer Byte.x44)] ].


(** A camera that answers during the [n]-th sleep after this one. *)
Definition camera_ready_event : App.async_event :=
  App.Ev_event (App.OMX_EventParamOrConfigChanged 0 App.OMX_IndexParamCameraDeviceNumber).

Definition camera_answering_after (n : nat) : App.machine :=
  App.mk_machine (App.mk_ctx 0 0 (App.mk_buffer [] 0 0 0 0) 0 [] 1) 0
    (App.mk_vars 0 0 0) 0 [] 0 (repeat [] n ++ [[camera_ready_event]]) [] [].

(** The simulated layer with a state or port command accepted and not
    yet carried out. *)
Definition camera_told_idle : world videocore :=
  final_world
    (OMX_SendCommand camera_handle OMX_CommandStateSet (nParam_of_state OMX_StateIdle)
       (vc_world vc_running)).

Definition port_201_told_off : world videocore :=
  final_world
    (OMX_SendCommand encoder_handle OMX_CommandPortDisable 201 (vc_world vc_running)).

(** The core of the simulated layer: the three components by their
    full names; the camera has its two video outputs in the video group
    and its input in the group of other ports, and fails the query for
    audio ports. *)
Definition OMX_ErrorComponentNotFound : OMX_ERRORTYPE := 0x80001003.
Definition OMX_ErrorUnsupportedIndex : OMX_ERRORTYPE := 0x8000101A.

Definition vc_get_handle (name : list Ascii.ascii) : OMX_ERRORTYPE * OMX_HANDLETYPE :=
  let name := string_of_list_ascii name in
  if String.eqb name "OMX.broadcom.camera" then (OMX_ErrorNone, camera_handle)
  else if String.eqb name "OMX.broadcom.video_encode" then (OMX_ErrorNone, encoder_handle)
  else if String.eqb name "OMX.broadcom.null_sink" then (OMX_ErrorNone, null_sink_handle)
  else (OMX_ErrorComponentNotFound, camera_handle).

Definition vc_get_ports (h : OMX_HANDLETYPE) (index : Setup.OMX_INDEXTYPE)
  : OMX_ERRORTYPE * Setup.OMX_PORT_PARAM_TYPE :=
  match h, index with
  | camera_handle, Setup.OMX_IndexParamVideoInit => (OMX_ErrorNone, Setup.mk_ports 2 70)
  | camera_handle, Setup.OMX_IndexParamOtherInit => (OMX_ErrorNone, Setup.mk_ports 1 73)
  | camera_handle, Setup.OMX_IndexParamAudioInit =>
      (OMX_ErrorUnsupportedIndex, Setup.mk_ports 0 0)
  | encoder_handle, Setup.OMX_IndexParamVideoInit => (OMX_ErrorNone, Setup.mk_ports 2 200)
  | null_sink_handle, Setup.OMX_IndexParamVideoInit => (OMX_ErrorNone, Setup.mk_ports 1 240)
  | _, _ => (OMX_ErrorNone, Setup.mk_ports 0 0)
  end.

#[export] Instance videocore_Core : Setup.OMX_Core videocore := {
  Setup.hw_get_handle := fun name v => (vc_get_handle name, v);
  Setup.hw_get_ports := fun h index v => (vc_get_ports h index, v)
}.

(** Acquiring the camera from the simulated layer, all ports enabled. *)
Definition acquire_camera : outcome (Setup.session videocore) OMX_HANDLETYPE :=
  Setup.init_component_handle_named 10 (CStr.chars "OMX.broadcom.camera")
    (Setup.mk_session vc_running []).

(** A control thread waiting on the flags while the layer delivers the
    events of [script], one list per sleep. *)
Definition waiting_with (script : list (list App.async_event)) : App.machine :=
  App.mk_machine (App.mk_ctx 0 0 (App.mk_buffer [] 0 0 0 0) 0 [] 1) 0
    (App.mk_vars 0 0 0) 0 [] 0 script [] [].

Definition flush_completed (port : Z) : App.async_event :=
  App.Ev_event (App.OMX_EventCmdComplete OMX_CommandFlush port).

(** A layer whose state queries all fail and store nothing. *)
Definition OMX_ErrorHardware : OMX_ERRORTYPE := 0x80001009.

#[export] Instance refusing_layer : StateQuery.OMX_IL_status unit := {|
  StateQuery.hw_state_query := fun _ v => (OMX_ErrorHardware, None, v);
  StateQuery.hw_state_sleep := fun _ v => v
|}.

(** * Properties *)

(** ** PortController *)

Section PortControllerFacts.
Context {hw : Type} `{OMX_IL hw}.

Lemma calls_since_app {A} (w : world hw) (o : outcome (world hw) A) (X : list call) :
  calls (final_world o) = calls w ++ X -> calls_since w o = X.
Proof.
  intros E. unfold calls_since. rewrite E.
  rewrite skipn_app, skipn_all, Nat.sub_diag. reflexivity.
Qed.

(** One iteration of the loop, spelled out. *)
Lemma port_changed_loop_step (h : OMX_HANDLETYPE) (b : OMX_BOOL) fuel i pd w :
  port_changed_loop (S fuel) h b i pd w =
  if ((i =? 0) || negb (bEnabled pd =? b))%bool then
    let '(r, v, hw') := hw_get_port_definition h (nPortIndex pd) (hardware w) in
    let w1 := mk_world hw' (calls w ++ [Call_GetParameter h (nPortIndex pd) r v]) in
    if r =? OMX_ErrorNone then
      if v =? b then
        port_changed_loop fuel h b (u32 (i + 1)) (set_bEnabled pd v) w1
      else
        port_changed_loop fuel h b (u32 (i + 1)) (set_bEnabled pd v)
          (mk_world (hw_sleep 10000 hw') (calls w1 ++ [Call_usleep 10000]))
    else Died (Fatal 1 (Some r) "Failed to get port definition") w1
  else Returned tt w.
Proof.
  cbn [port_changed_loop].
  destruct ((i =? 0) || negb (bEnabled pd =? b))%bool; [| reflexivity].
  unfold bind, OMX_GetParameter.
  destruct (hw_get_port_definition h (nPortIndex pd) (hardware w)) as [[r v] hw'].
  cbn [fst snd set_bEnabled bEnabled].
  destruct (r =? OMX_ErrorNone); cbn [negb when ret omx_die]; [| reflexivity].
  destruct (v =? b); reflexivity.
Qed.

Lemma port_changed_loop_log (h : OMX_HANDLETYPE) (b : OMX_BOOL) :
  forall fuel i pd w,
  exists X,
    calls (final_world (port_changed_loop fuel h b i pd w)) = calls w ++ X /\
    match port_changed_loop fuel h b i pd w with
    | Returned _ _ =>
        (X = [] /\ (i =? 0) = false /\ bEnabled pd = b) \/
        (exists pre, X = pre ++ [Call_GetParameter h (nPortIndex pd) OMX_ErrorNone b]
                     /\ Forall query_succeeded pre)
    | Died d _ =>
        exists pre r v,
          r <> OMX_ErrorNone /\
          d = Fatal 1 (Some r) "Failed to get port definition" /\
          X = pre ++ [Call_GetParameter h (nPortIndex pd) r v] /\
          Forall query_succeeded pre
    | Spinning _ => Forall query_succeeded X
    end.
Proof.
  induction fuel as [|fuel IH]; intros i pd w.
  - exists []. cbn. rewrite app_nil_r. auto.
  - rewrite port_changed_loop_step.
    destruct ((i =? 0) || negb (bEnabled pd =? b))%bool eqn:Eagain.
    + destruct (hw_get_port_definition h (nPortIndex pd) (hardware w)) as [[r v] hw'].
      cbv zeta.
      destruct (r =? OMX_ErrorNone) eqn:Er.
      * apply Z.eqb_eq in Er. subst r.
        destruct (v =? b) eqn:Eb.
        -- (* the flag matches: the next evaluation of the condition decides *)
           apply Z.eqb_eq in Eb. subst v.
           match goal with |- context [port_changed_loop fuel h b ?i' ?pd' ?w1] =>
             destruct (IH i' pd' w1) as (X & EX & HX);
             destruct (port_changed_loop fuel h b i' pd' w1) end;
           cbn [final_world calls nPortIndex set_bEnabled] in *;
           exists (Call_GetParameter h (nPortIndex pd) OMX_ErrorNone b :: X);
           (split; [rewrite EX, <- app_assoc; reflexivity |]).
           ++ destruct HX as [(-> & _ & _) | (pre & -> & Hpre)].
              ** right. exists []. split; [reflexivity | constructor].
              ** right. exists (Call_GetParameter h (nPortIndex pd) OMX_ErrorNone b :: pre).
                 split; [reflexivity |]. constructor; [reflexivity | exact Hpre].
           ++ destruct HX as (pre & r & v & Hr & Hd & -> & Hpre).
              exists (Call_GetParameter h (nPortIndex pd) OMX_ErrorNone b :: pre), r, v.
              repeat split; auto. constructor; [reflexivity | exact Hpre].
           ++ constructor; [reflexivity | exact HX].
        -- apply Z.eqb_neq in Eb.
           match goal with |- context [port_changed_loop fuel h b ?i' ?pd' ?w1] =>
             destruct (IH i' pd' w1) as (X & EX & HX);
             destruct (port_changed_loop fuel h b i' pd' w1) end;
           cbn [final_world calls nPortIndex bEnabled set_bEnabled] in *;
           exists (Call_GetParameter h (nPortIndex pd) OMX_ErrorNone v
                     :: Call_usleep 10000 :: X);
           (split; [rewrite EX, <- !app_assoc; reflexivity |]).
           ++ destruct HX as [(-> & _ & Hb) | (pre & -> & Hpre)].
              ** contradiction.
              ** right.
                 exists (Call_GetParameter h (nPortIndex pd) OMX_ErrorNone v
                           :: Call_usleep 10000 :: pre).
                 split; [reflexivity |]. repeat constructor. exact Hpre.
           ++ destruct HX as (pre & r & v' & Hr & Hd & -> & Hpre).
              exists (Call_GetParameter h (nPortIndex pd) OMX_ErrorNone v
                        :: Call_usleep 10000 :: pre), r, v'.
              repeat split; auto. repeat constructor. exact Hpre.
           ++ repeat constructor. exact HX.
      * exists [Call_GetParameter h (nPortIndex pd) r v]. split; [reflexivity |].
        exists [], r, v. apply Z.eqb_neq in Er. repeat split; auto.
    + exists []. cbn. rewrite app_nil_r. split; [reflexivity |].
      left. apply orb_false_iff in Eagain. destruct Eagain as [Ei Eb].
      apply negb_false_iff, Z.eqb_eq in Eb. auto.
Qed.

(** C5. [block_until_port_changed] never returns before the layer
    reports the port's enabled flag equal to the requested value: when
    it returns, the last call it made is a successful port-definition
    query of that port reporting the requested value.  And a query that
    reports a status other than [OMX_ErrorNone] ends the process: the
    outcome is [omx_die] with that status, and the failed query is the
    last call made. *)
Theorem block_until_port_changed_complete
    (fuel : nat) (h : OMX_HANDLETYPE) (port : Z) (b : OMX_BOOL) (w : world hw) :
  let out := block_until_port_changed fuel h port b w in
  (is_Returned out = true ->
     exists pre, calls_since w out = pre ++ [Call_GetParameter h port OMX_ErrorNone b])
  /\
  (forall r v,
     In (Call_GetParameter h port r v) (calls_since w out) ->
     r <> OMX_ErrorNone ->
     out = Died (Fatal 1 (Some r) "Failed to get port definition") (final_world out)
     /\ exists pre, calls_since w out = pre ++ [Call_GetParameter h port r v]).
Proof.
  cbv zeta. unfold block_until_port_changed.
  destruct (port_changed_loop_log h b fuel 0 (set_nPortIndex OMX_INIT_STRUCTURE port) w)
    as (X & EX & HX).
  rewrite (calls_since_app _ _ _ EX).
  cbn [nPortIndex set_nPortIndex] in HX.
  destruct (port_changed_loop fuel h b 0 (set_nPortIndex OMX_INIT_STRUCTURE port) w)
    as [[] w' | d w' | w']; cbn [is_Returned final_world] in *.
  - destruct HX as [(_ & Hi & _) | (pre & -> & Hpre)]; [discriminate |].
    split; [intros _; exists pre; reflexivity |].
    intros r v Hin Hr. apply in_app_or in Hin.
    destruct Hin as [Hin | [Hin | []]].
    + rewrite Forall_forall in Hpre. apply Hpre in Hin. contradiction.
    + inversion Hin; subst; contradiction.
  - destruct HX as (pre & r0 & v0 & Hr0 & -> & -> & Hpre).
    split; [discriminate |].
    intros r v Hin Hr. apply in_app_or in Hin.
    destruct Hin as [Hin | [Hin | []]].
    + rewrite Forall_forall in Hpre. apply Hpre in Hin. contradiction.
    + inversion Hin; subst. split; [reflexivity | exists pre; reflexivity].
  - split; [discriminate |].
    intros r v Hin Hr. rewrite Forall_forall in HX. apply HX in Hin. contradiction.
Qed.

(** C6. When the first port-definition query already reports the
    requested value, [block_until_port_changed] returns at once: it has
    made exactly that one query and has not slept. *)
Theorem block_until_port_changed_idempotent
    (fuel : nat) (h : OMX_HANDLETYPE) (port : Z) (b : OMX_BOOL) (w : world hw) (hw' : hw) :
  hw_get_port_definition h port (hardware w) = (OMX_ErrorNone, b, hw') ->
  block_until_port_changed (S (S fuel)) h port b w =
  Returned tt (mk_world hw' (calls w ++ [Call_GetParameter h port OMX_ErrorNone b])).
Proof.
  intros Hq. unfold block_until_port_changed.
  rewrite port_changed_loop_step.
  cbn [nPortIndex set_nPortIndex Z.eqb orb].
  rewrite Hq. cbv zeta. cbn [OMX_ErrorNone Z.eqb].
  rewrite Z.eqb_refl.
  rewrite port_changed_loop_step.
  cbn [bEnabled set_bEnabled]. rewrite Z.eqb_refl.
  reflexivity.
Qed.

End PortControllerFacts.

Lemma block_until_port_changed_complete_witness :
  calls_since (vc_world vc_running) (disable_201 (vc_world vc_running)) =
    [Call_SendCommand encoder_handle OMX_CommandPortDisable 201 OMX_ErrorNone;
     Call_GetParameter encoder_handle 201 OMX_ErrorNone OMX_TRUE;
     Call_usleep 10000;
     Call_GetParameter encoder_handle 201 OMX_ErrorNone OMX_FALSE]
  /\ (exists pre,
        calls_since (vc_world vc_running)
          (block_until_port_changed 10 encoder_handle 201 OMX_TRUE (vc_world vc_running))
        = pre ++ [Call_GetParameter encoder_handle 201 OMX_ErrorNone OMX_TRUE])
  /\ block_until_port_changed 10 encoder_handle 999 OMX_TRUE (vc_world vc_running)
     = Died (Fatal 1 (Some OMX_ErrorBadPortIndex) "Failed to get port definition")
            (final_world
               (block_until_port_changed 10 encoder_handle 999 OMX_TRUE (vc_world vc_running))).
Proof.
  split; [reflexivity |]. split.
  - apply (proj1 (block_until_port_changed_complete
                    10 encoder_handle 201 OMX_TRUE (vc_world vc_running))).
    reflexivity.
  - apply (proj2 (block_until_port_changed_complete
                    10 encoder_handle 999 OMX_TRUE (vc_world vc_running))
                 OMX_ErrorBadPortIndex 0).
    + vm_compute. left. reflexivity.
    + discriminate.
Defined.

Lemma block_until_port_changed_idempotent_witness :
  block_until_port_changed 2 camera_handle 70 OMX_TRUE (vc_world vc_running) =
  Returned tt
    (mk_world vc_running [Call_GetParameter camera_handle 70 OMX_ErrorNone OMX_TRUE]).
Proof.
  apply (block_until_port_changed_idempotent 0 camera_handle 70 OMX_TRUE
           (vc_world vc_running) vc_running).
  reflexivity.
Defined.

(** ** StateController *)

Section StateControllerFacts.
Context {hw : Type} `{OMX_IL hw}.

Lemma state_changed_loop_step (h : OMX_HANDLETYPE) (s : OMX_STATETYPE) fuel i e w :
  state_changed_loop (S fuel) h s i e w =
  if ((i =? 0) || negb (OMX_STATETYPE_eqb e s))%bool then
    let '(e', hw') := hw_get_state h (hardware w) in
    let w1 := mk_world hw' (calls w ++ [Call_GetState h e']) in
    if OMX_STATETYPE_eqb e' s then
      state_changed_loop fuel h s (int32 (i + 1)) e' w1
    else
      state_changed_loop fuel h s (int32 (i + 1)) e'
        (mk_world (hw_sleep 10000 hw') (calls w1 ++ [Call_usleep 10000]))
  else Returned tt w.
Proof.
  cbn [state_changed_loop].
  destruct ((i =? 0) || negb (OMX_STATETYPE_eqb e s))%bool; [| reflexivity].
  unfold bind, OMX_GetState.
  destruct (hw_get_state h (hardware w)) as [e' hw'].
  destruct (OMX_STATETYPE_eqb e' s); reflexivity.
Qed.

Lemma OMX_STATETYPE_eqb_eq (a b : OMX_STATETYPE) :
  OMX_STATETYPE_eqb a b = true <-> a = b.
Proof. destruct a, b; cbn; split; congruence. Qed.

Lemma state_changed_loop_log (h : OMX_HANDLETYPE) (s : OMX_STATETYPE) :
  forall fuel i e w,
  exists X,
    calls (final_world (state_changed_loop fuel h s i e w)) = calls w ++ X /\
    Forall (is_poll_of h) X /\
    is_Died (state_changed_loop fuel h s i e w) = false /\
    (is_Returned (state_changed_loop fuel h s i e w) = true ->
       (X = [] /\ (i =? 0) = false /\ e = s) \/
       (exists pre, X = pre ++ [Call_GetState h s])).
Proof.
  induction fuel as [|fuel IH]; intros i e w.
  - exists []. cbn. rewrite app_nil_r. repeat split; auto. discriminate.
  - rewrite state_changed_loop_step.
    destruct ((i =? 0) || negb (OMX_STATETYPE_eqb e s))%bool eqn:Eagain.
    + destruct (hw_get_state h (hardware w)) as [e' hw']. cbv zeta.
      destruct (OMX_STATETYPE_eqb e' s) eqn:Ee.
      * apply OMX_STATETYPE_eqb_eq in Ee. subst e'.
        match goal with |- context [state_changed_loop fuel h s ?i' ?e' ?w1] =>
          destruct (IH i' e' w1) as (X & EX & HF & HD & HR) end.
        cbn [calls] in EX |- *.
        exists (Call_GetState h s :: X).
        split; [rewrite EX, <- app_assoc; reflexivity |].
        split; [constructor; [reflexivity | exact HF] |].
        split; [exact HD |].
        intros HRet. right.
        destruct (HR HRet) as [(-> & _) | (pre & ->)].
        -- exists []. reflexivity.
        -- exists (Call_GetState h s :: pre). reflexivity.
      * match goal with |- context [state_changed_loop fuel h s ?i' ?e' ?w1] =>
          destruct (IH i' e' w1) as (X & EX & HF & HD & HR) end.
        cbn [calls] in EX |- *.
        exists (Call_GetState h e' :: Call_usleep 10000 :: X).
        split; [rewrite EX, <- !app_assoc; reflexivity |].
        split; [repeat constructor; exact HF |].
        split; [exact HD |].
        intros HRet. right.
        destruct (HR HRet) as [(_ & _ & ->) | (pre & ->)].
        -- rewrite (proj2 (OMX_STATETYPE_eqb_eq s s) eq_refl) in Ee. discriminate.
        -- exists (Call_GetState h e' :: Call_usleep 10000 :: pre). reflexivity.
    + exists []. cbn. rewrite app_nil_r. repeat split; auto.
      intros _. left. apply orb_false_iff in Eagain. destruct Eagain as [Ei Ee].
      apply negb_false_iff, OMX_STATETYPE_eqb_eq in Ee. auto.
Qed.

(** What one "send the state-set command, then wait" step leaves in the
    log: the command with target [s], then only polls of [h]; when it
    returns, the command was accepted and the last poll reported [s]. *)
Lemma switch_state_log (fuel : nat) (h : OMX_HANDLETYPE) (s : OMX_STATETYPE)
    (msg : string) (w : world hw) :
  exists r X,
    calls (final_world (switch_state fuel h s msg w)) =
      calls w ++ Call_SendCommand h OMX_CommandStateSet (nParam_of_state s) r :: X /\
    Forall (is_poll_of h) X /\
    (is_Returned (switch_state fuel h s msg w) = true ->
       r = OMX_ErrorNone /\ exists pre, X = pre ++ [Call_GetState h s]).
Proof.
  unfold switch_state, bind, OMX_SendCommand.
  destruct (hw_send_command h OMX_CommandStateSet (nParam_of_state s) (hardware w))
    as [r hw'].
  exists r.
  destruct (r =? OMX_ErrorNone) eqn:Er; cbn [negb when ret omx_die].
  - unfold block_until_state_changed.
    match goal with |- context [state_changed_loop fuel h s ?i' ?e' ?w1] =>
      destruct (state_changed_loop_log h s fuel i' e' w1) as (X & EX & HF & HD & HR) end.
    cbn [calls] in EX |- *. exists X.
    split; [rewrite EX, <- app_assoc; reflexivity |].
    split; [exact HF |].
    intros HRet. apply Z.eqb_eq in Er. split; [exact Er |].
    destruct (HR HRet) as [(_ & Hi & _) | Hpre]; [discriminate | exact Hpre].
  - exists []. cbn. split; [reflexivity |]. split; [constructor | discriminate].
Qed.

Lemma state_commands_app (X Y : list call) :
  state_commands (X ++ Y) = state_commands X ++ state_commands Y.
Proof.
  induction X as [|c X IH]; [reflexivity |].
  destruct c as [| | h [] n r |]; cbn; rewrite IH; reflexivity.
Qed.

Lemma state_commands_polls (h : OMX_HANDLETYPE) (X : list call) :
  Forall (is_poll_of h) X -> state_commands X = [].
Proof.
  induction 1 as [|c X Hc _ IH]; [reflexivity |].
  destruct c; cbn in *; try contradiction; exact IH.
Qed.

Lemma bind_Returned {St A B} (m : prog St A) (k : A -> prog St B) (s : St) :
  is_Returned (bind m k s) = true ->
  exists a s1, m s = Returned a s1 /\ bind m k s = k a s1.
Proof.
  unfold bind. destruct (m s) as [a s1 | |]; try discriminate.
  intros _. exists a, s1. split; reflexivity.
Qed.

(** The sibling path: the teardown of [main] sends, in this order, Idle
    to the camera, the encoder and the null sink, then Loaded to the
    three of them, and when it returns its last poll saw the null sink
    in [OMX_StateLoaded]. *)
Lemma main_transition_to_loaded_order (fuel : nat) (w : world hw) :
  is_Returned (main_transition_to_loaded fuel w) = true ->
  exists X,
    calls (final_world (main_transition_to_loaded fuel w)) = calls w ++ X /\
    state_commands X =
      [(camera_handle, nParam_of_state OMX_StateIdle);
       (encoder_handle, nParam_of_state OMX_StateIdle);
       (null_sink_handle, nParam_of_state OMX_StateIdle);
       (camera_handle, nParam_of_state OMX_StateLoaded);
       (encoder_handle, nParam_of_state OMX_StateLoaded);
       (null_sink_handle, nParam_of_state OMX_StateLoaded)] /\
    exists pre, X = pre ++ [Call_GetState null_sink_handle OMX_StateLoaded].
Proof.
  unfold main_transition_to_loaded. intros HR.
  repeat match goal with
  | HR : is_Returned (bind (switch_state fuel ?h ?s ?msg) ?k ?w0) = true |- _ =>
      let a := fresh "a" in let w1 := fresh "w" in
      let E := fresh "E" in let Ek := fresh "Ek" in
      let r := fresh "r" in let X := fresh "X" in
      let EX := fresh "EX" in let HF := fresh "HF" in
      destruct (bind_Returned _ _ _ HR) as (a & w1 & E & Ek);
      rewrite Ek in HR |- *; clear Ek;
      destruct (switch_state_log fuel h s msg w0) as (r & X & EX & HF & _);
      rewrite E in EX; cbn [final_world] in EX;
      apply (state_commands_polls h) in HF; clear E
  end.
  destruct (switch_state_log fuel null_sink_handle OMX_StateLoaded
              "Failed to switch state of the null sink component to loaded" w4)
    as (r4 & X4 & EX4 & HF4 & Hlast).
  destruct (Hlast HR) as (_ & pre & ->).
  apply (state_commands_polls null_sink_handle) in HF4.
  eexists. split.
  - rewrite EX4, EX3, EX2, EX1, EX0, EX.
    repeat (rewrite <- ?app_assoc; cbn [app]). reflexivity.
  - split.
    + repeat (rewrite ?state_commands_app; cbn [state_commands]).
      rewrite state_commands_app in HF4. cbn [state_commands] in HF4.
      rewrite HF, HF0, HF1, HF2, HF3, HF4. reflexivity.
    + exists (Call_SendCommand camera_handle OMX_CommandStateSet
                (nParam_of_state OMX_StateIdle) r :: X ++
              Call_SendCommand encoder_handle OMX_CommandStateSet
                (nParam_of_state OMX_StateIdle) r0 :: X0 ++
              Call_SendCommand null_sink_handle OMX_CommandStateSet
                (nParam_of_state OMX_StateIdle) r1 :: X1 ++
              Call_SendCommand camera_handle OMX_CommandStateSet
                (nParam_of_state OMX_StateLoaded) r2 :: X2 ++
              Call_SendCommand encoder_handle OMX_CommandStateSet
                (nParam_of_state OMX_StateLoaded) r3 :: X3 ++
              Call_SendCommand null_sink_handle OMX_CommandStateSet
                (nParam_of_state OMX_StateLoaded) r4 :: pre).
      repeat (rewrite <- ?app_assoc; cbn [app]). reflexivity.
Qed.

(** C3 (the rearranged camera component): the operation installed as
    [load_state] sends a state-set command whose target is Idle, never
    Loaded, and returns as soon as the camera reports Idle. *)
Theorem camera_load_state_awaits_idle (fuel : nat) (w : world hw) :
  let out := camera_load_state fuel w in
  state_commands (calls_since w out) = [(camera_handle, nParam_of_state OMX_StateIdle)]
  /\ ~ In (camera_handle, nParam_of_state OMX_StateLoaded)
          (state_commands (calls_since w out))
  /\ (is_Returned out = true ->
      exists pre, calls_since w out = pre ++ [Call_GetState camera_handle OMX_StateIdle]).
Proof.
  cbv zeta. unfold camera_load_state.
  destruct (switch_state_log fuel camera_handle OMX_StateIdle
              "Failed to switch state of the camera component to idle" w)
    as (r & X & EX & HF & HR).
  rewrite (calls_since_app _ _ _ EX).
  cbn [state_commands]. rewrite (state_commands_polls _ _ HF).
  split; [reflexivity |]. split.
  - intros [E | []]. discriminate.
  - intros HRet. destruct (HR HRet) as (_ & pre & ->).
    exists (Call_SendCommand camera_handle OMX_CommandStateSet
              (nParam_of_state OMX_StateIdle) r :: pre).
    reflexivity.
Qed.

End StateControllerFacts.

(** The simulated camera, executing: [camera_idle_state] then
    [camera_load_state] leave it Idle, where the teardown of [main]
    leaves every component Loaded. *)
Lemma camera_load_state_awaits_idle_witness :
  (exists pre,
     calls_since (vc_world vc_running) (camera_load_state 10 (vc_world vc_running)) =
     pre ++ [Call_GetState camera_handle OMX_StateIdle])
  /\ vc_camera (hardware (final_world
       (bind (camera_idle_state 10) (fun _ => camera_load_state 10) (vc_world vc_running))))
     = OMX_StateIdle
  /\ vc_camera (hardware (final_world (main_transition_to_loaded 10 (vc_world vc_running))))
     = OMX_StateLoaded.
Proof.
  split.
  - apply (proj2 (proj2 (camera_load_state_awaits_idle 10 (vc_world vc_running)))).
    reflexivity.
  - split; reflexivity.
Defined.

(** ** EventSync: the waits on the shared flags *)

Section EventSyncFacts.
Import App.

(** Running a piece of straight-line code on a machine. *)
Ltac run_handler :=
  cbv beta iota zeta delta
    [bind ret when negb event_handler fill_output_buffer_done_handler dump_event say
     encoder_fills signal_handler vcos_semaphore_wait vcos_semaphore_post
     store load omx_die die log_access log_obs with_ctx with_locals
     set_flag set_handler_lock set_buffer_out set_fd_out flag_value
     get_locals put_locals get_want_quit get_buffer_out fwrite OMX_FillThisBuffer
     set_need final_world fst snd
     ctx handler_lock camera_ready encoder_ready flushed
     buffer_out fd_out deliveries want_quit locals outstanding
     accesses trace fill_statuses room quit_detected quit_in_keyframe
     need_next_buffer_to_be_filled] in *.

Ltac case_if :=
  match goal with
  | |- context [if ?c then _ else _] => destruct c eqn:?
  end.

Lemma handle_async_keeps_lock (e : async_event) (m : machine) :
  0 < handler_lock (ctx m) ->
  match handle_async e m with
  | Returned _ m' =>
      handler_lock (ctx m') = handler_lock (ctx m) /\ deliveries m' = deliveries m
  | Died _ _ => True
  | Spinning _ => False
  end.
Proof.
  intros Hl. apply Z.ltb_lt in Hl.
  destruct e as [[[] p | n [|i] | r | k] | b |]; unfold handle_async;
    try destruct (outstanding m);
    run_handler; rewrite ?Hl; run_handler; auto; split; auto; lia.
Qed.

Lemma handle_all_keeps_lock (es : list async_event) :
  forall m,
  0 < handler_lock (ctx m) ->
  match handle_all es m with
  | Returned _ m' =>
      handler_lock (ctx m') = handler_lock (ctx m) /\ deliveries m' = deliveries m
  | Died _ _ => True
  | Spinning _ => False
  end.
Proof.
  induction es as [|e es IH]; intros m Hl; [cbn; auto |].
  cbn [handle_all]. unfold bind at 1.
  pose proof (handle_async_keeps_lock e m Hl) as He.
  destruct (handle_async e m) as [[] m1 | |]; auto.
  destruct He as [El Ed]. specialize (IH m1). rewrite El, Ed in IH. apply IH, Hl.
Qed.

Lemma handle_async_unready (e : async_event) (m : machine) :
  leaves_camera_unready e = true ->
  camera_ready (ctx m) = 0 ->
  match handle_async e m with
  | Returned _ m' => camera_ready (ctx m') = 0 /\ deliveries m' = deliveries m
  | Died _ _ => False
  | Spinning _ => True
  end.
Proof.
  intros Hq Hr.
  destruct e as [[[] p | n [|i] | r | k] | b |]; try discriminate Hq;
    unfold handle_async; try destruct (outstanding m);
    run_handler; try case_if; run_handler; auto.
Qed.

Lemma handle_all_unready (es : list async_event) :
  forall m,
  forallb leaves_camera_unready es = true ->
  camera_ready (ctx m) = 0 ->
  match handle_all es m with
  | Returned _ m' => camera_ready (ctx m') = 0 /\ deliveries m' = deliveries m
  | Died _ _ => False
  | Spinning _ => True
  end.
Proof.
  induction es as [|e es IH]; intros m Hq Hr; [cbn; auto |].
  cbn [forallb] in Hq. apply andb_true_iff in Hq. destruct Hq as [He Hes].
  cbn [handle_all]. unfold bind at 1.
  pose proof (handle_async_unready e m He Hr) as H1.
  destruct (handle_async e m) as [[] m1 | |]; auto.
  destruct H1 as [Hr1 Hd1]. specialize (IH m1 Hes Hr1).
  destruct (handle_all es m1); auto. rewrite <- Hd1. exact IH.
Qed.

(** What a sleep does to a machine whose camera never gets ready. *)
Lemma usleep_unready (usec : Z) (m : machine) :
  camera_never_ready m ->
  match usleep usec m with
  | Returned _ m' => camera_never_ready m'
  | Died _ _ => False
  | Spinning _ => True
  end.
Proof.
  intros [Hr Hd]. unfold usleep.
  match goal with |- match handle_all ?es ?m0 with _ => _ end =>
    pose proof (handle_all_unready es m0) as Hh end.
  cbn [ctx deliveries] in Hh.
  assert (Hes : forallb leaves_camera_unready (hd [] (deliveries m)) = true).
  { destruct Hd; [reflexivity | assumption]. }
  specialize (Hh Hes Hr).
  match goal with |- match ?o with _ => _ end => destruct o as [[] m1 | |] end; auto.
  destruct Hh as [Hr1 Hd1]. split; [exact Hr1 |]. rewrite Hd1.
  destruct Hd; [constructor | assumption].
Qed.

(** C4 (part_000): the wait of [main] for the camera-ready flag has no
    retry budget.  On a run in which the flag is never set, it is still
    polling however many iterations it is given. *)
Theorem main_wait_camera_ready_unbounded (fuel : nat) (m : machine) :
  camera_never_ready m ->
  is_Spinning (main_wait_camera_ready fuel m) = true.
Proof.
  revert m. induction fuel as [|fuel IH]; intros m Hm; [reflexivity |].
  cbn [main_wait_camera_ready]. unfold bind at 1, load at 1.
  cbn [flag_value ctx log_access].
  destruct Hm as [Hr Hd]. rewrite Hr. cbn [Z.eqb].
  unfold bind at 1.
  match goal with |- context [usleep 10000 ?m0] =>
    pose proof (usleep_unready 10000 m0) as Hu;
    destruct (usleep 10000 m0) as [[] m1 | |] end.
  - apply IH, Hu. split; assumption.
  - exfalso. apply Hu. split; assumption.
  - reflexivity.
Qed.

(** The sibling path (omx_camera.c): the wait gives up.  With the
    critical section free, [camera_block_until_camera_ready] is over
    within 103 evaluations of its condition on every run, and on a run
    in which the flag is never set it ends the process. *)
Lemma camera_ready_loop_bounded (fuel : nat) :
  forall n m,
  0 <= n <= 101 ->
  0 < handler_lock (ctx m) ->
  (Z.to_nat (102 - n) < fuel)%nat ->
  is_Spinning (camera_ready_loop fuel n m) = false.
Proof.
  induction fuel as [|fuel IH]; intros n m Hn Hl Hf; [lia |].
  cbn [camera_ready_loop]. unfold bind at 1, load at 1.
  cbn [flag_value ctx log_access].
  destruct (camera_ready (ctx m) =? 0); [| reflexivity].
  unfold bind at 1.
  match goal with |- context [usleep 10000 ?m0] =>
    pose proof (handle_all_keeps_lock (hd [] (deliveries m0))
                  (mk_machine (ctx m0) (want_quit m0) (locals m0) (outstanding m0)
                     (fill_statuses m0) (room m0) (tl (deliveries m0))
                     (accesses m0) (trace m0)) Hl) as Hu;
    change (usleep 10000 m0) with
      (handle_all (hd [] (deliveries m0))
         (mk_machine (ctx m0) (want_quit m0) (locals m0) (outstanding m0)
            (fill_statuses m0) (room m0) (tl (deliveries m0))
            (accesses m0) (trace m0)))
  end.
  match goal with |- context [handle_all ?es ?m0] =>
    destruct (handle_all es m0) as [[] m1 | |] end; try reflexivity; [| contradiction].
  destruct Hu as [El _].
  unfold bind at 1.
  destruct (100 <? n) eqn:E100; cbn [when]; [reflexivity |].
  apply Z.ltb_ge in E100. unfold ret at 1.
  apply IH.
  - unfold int32. 
    replace ((n + 1 + 2 ^ 31) mod 2 ^ 32) with (n + 1 + 2 ^ 31)
      by (symmetry; apply Z.mod_small; lia).
    lia.
  - cbn [ctx] in El. rewrite El. exact Hl.
  - unfold int32.
    replace ((n + 1 + 2 ^ 31) mod 2 ^ 32) with (n + 1 + 2 ^ 31)
      by (symmetry; apply Z.mod_small; lia).
    lia.
Qed.

Lemma camera_block_until_camera_ready_bounded (m : machine) :
  0 < handler_lock (ctx m) ->
  is_Spinning (camera_block_until_camera_ready 103 m) = false.
Proof.
  intros Hl. apply camera_ready_loop_bounded; [lia | exact Hl | cbn; lia].
Qed.

Lemma camera_ready_loop_unready (fuel : nat) :
  forall n m,
  camera_never_ready m ->
  match camera_ready_loop fuel n m with
  | Returned _ _ => False
  | Died d _ => d = Fatal 1 None "Failed to configuring camera"
  | Spinning _ => True
  end.
Proof.
  induction fuel as [|fuel IH]; intros n m Hm; [exact I |].
  cbn [camera_ready_loop]. unfold bind at 1, load at 1.
  cbn [flag_value ctx log_access].
  destruct Hm as [Hr Hd]. rewrite Hr. cbn [Z.eqb].
  unfold bind at 1.
  match goal with |- context [usleep 10000 ?m0] =>
    pose proof (usleep_unready 10000 m0) as Hu;
    destruct (usleep 10000 m0) as [[] m1 | |] end; auto.
  - unfold bind at 1.
    destruct (100 <? n); cbn [when]; [reflexivity |].
    unfold ret at 1. apply IH, Hu. split; assumption.
  - exfalso. apply Hu. split; assumption.
Qed.

Lemma camera_block_until_camera_ready_gives_up (m : machine) :
  camera_never_ready m ->
  0 < handler_lock (ctx m) ->
  exists m',
    camera_block_until_camera_ready 103 m =
    Died (Fatal 1 None "Failed to configuring camera") m'.
Proof.
  intros Hm Hl.
  pose proof (camera_block_until_camera_ready_bounded m Hl) as Hb.
  pose proof (camera_ready_loop_unready 103 0 m Hm) as Hu.
  unfold camera_block_until_camera_ready in *.
  destruct (camera_ready_loop 103 0 m) as [[] m' | d m' | m'].
  - contradiction.
  - subst d. exists m'. reflexivity.
  - discriminate.
Qed.

(** *** [block_until_flushed] *)

Lemma flushed_loop_nonzero (fuel : nat) (quit : Z) (m : machine) :
  quit <> 0 -> flushed_loop (S fuel) quit m = Returned tt m.
Proof.
  intros Hq. cbn [flushed_loop].
  apply Z.eqb_neq in Hq. rewrite Hq. reflexivity.
Qed.

Lemma flushed_loop_zero (fuel : nat) :
  forall m m',
  flushed_loop fuel 0 m = Returned tt m' ->
  flushed (ctx m') = 0 /\ exists pre, accesses m' = pre ++ consumed_flush.
Proof.
  induction fuel as [|fuel IH]; intros m m' Hrun; [discriminate |].
  cbn [flushed_loop Z.eqb] in Hrun.
  unfold bind at 1, vcos_semaphore_wait at 1 in Hrun.
  destruct (0 <? handler_lock (ctx m)); [| discriminate].
  unfold bind at 1, load at 1 in Hrun.
  cbn [flag_value ctx log_access with_ctx flushed set_handler_lock] in Hrun.
  destruct (flushed (ctx m) =? 0) eqn:Ef; cbn [negb] in Hrun.
  - (* not flushed yet: release, sleep, poll again *)
    run_handler. cbn [Z.eqb] in Hrun. run_handler.
    match type of Hrun with context [usleep 10000 ?m0] =>
      destruct (usleep 10000 m0) as [[] m1 | |] end; try discriminate.
    apply (IH m1 m' Hrun).
  - (* flushed: consume the flag and leave the loop *)
    run_handler. cbn [Z.eqb] in Hrun.
    destruct fuel as [|fuel]; [discriminate |].
    cbn [flushed_loop Z.eqb] in Hrun. unfold ret in Hrun.
    injection Hrun as <-. run_handler.
    split; [reflexivity |].
    exists (accesses m). unfold consumed_flush.
    repeat rewrite <- app_assoc. reflexivity.
Qed.

(** With the flag already raised and the critical section free, a call
    that starts from [quit = 0] consumes the flag and returns. *)
Lemma flushed_loop_consumes (fuel : nat) (m : machine) :
  flushed (ctx m) <> 0 ->
  0 < handler_lock (ctx m) ->
  is_Returned (flushed_loop (S (S fuel)) 0 m) = true.
Proof.
  intros Hf Hl. apply Z.eqb_neq in Hf. apply Z.ltb_lt in Hl.
  cbn [flushed_loop Z.eqb].
  unfold bind at 1, vcos_semaphore_wait at 1. rewrite Hl.
  unfold bind at 1, load at 1.
  cbn [flag_value ctx log_access with_ctx flushed set_handler_lock].
  rewrite Hf. run_handler. reflexivity.
Qed.

(** C9. [block_until_flushed] reads [quit] before assigning it.  Started
    from any non-zero value it returns at once and leaves the machine as
    it found it (the critical section not entered, [flushed] neither
    read nor reset).  Started from zero, it returns only after having
    consumed the flag: on return [flushed] is 0 and its last accesses
    are the locked load and store of the flag; and with the flag raised
    it does return. *)
Theorem block_until_flushed_uninitialized_quit :
  (forall fuel quit m,
     quit <> 0 -> block_until_flushed (S fuel) quit m = Returned tt m)
  /\
  (forall fuel m m',
     block_until_flushed fuel 0 m = Returned tt m' ->
     flushed (ctx m') = 0 /\ exists pre, accesses m' = pre ++ consumed_flush)
  /\
  (forall fuel m,
     flushed (ctx m) <> 0 -> 0 < handler_lock (ctx m) ->
     is_Returned (block_until_flushed (S (S fuel)) 0 m) = true).
Proof.
  unfold block_until_flushed. split; [| split].
  - exact flushed_loop_nonzero.
  - exact flushed_loop_zero.
  - exact flushed_loop_consumes.
Qed.

(** *** The critical section *)

Lemma appends_bind {A B} (p : prog machine A) (k : A -> prog machine B) :
  appends p -> (forall a, appends (k a)) -> appends (bind p k).
Proof.
  intros Hp Hk m. unfold bind.
  destruct (Hp m) as (X & EX).
  destruct (p m) as [a m1 | d m1 | m1]; cbn [final_world] in *.
  - destruct (Hk a m1) as (Y & EY). exists (X ++ Y).
    rewrite EY, EX, app_assoc. reflexivity.
  - exists X. exact EX.
  - exists X. exact EX.
Qed.

Lemma appends_pure {A} (p : prog machine A) :
  (forall m, accesses (final_world (p m)) = accesses m) -> appends p.
Proof. intros Hp m. exists []. rewrite app_nil_r. apply Hp. Qed.

Lemma appends_if {A} (c : bool) (p q : prog machine A) :
  appends p -> appends q -> appends (if c then p else q).
Proof. destruct c; auto. Qed.

Lemma appends_when (c : bool) (p : prog machine unit) :
  appends p -> appends (when c p).
Proof. intros Hp. destruct c; [exact Hp | apply appends_pure; reflexivity]. Qed.

Lemma appends_load t f : appends (load t f).
Proof. intros m. exists [(t, Load f)]. reflexivity. Qed.

Lemma appends_store t f v : appends (store t f v).
Proof. intros m. exists [(t, Store f)]. reflexivity. Qed.

Lemma appends_wait t : appends (vcos_semaphore_wait t).
Proof.
  intros m. unfold vcos_semaphore_wait.
  destruct (0 <? handler_lock (ctx m)).
  - exists [(t, Acquire)]. reflexivity.
  - exists []. cbn. rewrite app_nil_r. reflexivity.
Qed.

Lemma appends_post t : appends (vcos_semaphore_post t).
Proof. intros m. exists [(t, Release)]. reflexivity. Qed.

Create HintDb appends.
#[local] Hint Resolve appends_load appends_store appends_wait appends_post : appends.
#[local] Hint Extern 1 (appends (bind _ _)) => apply appends_bind; [| intros ?] : appends.
#[local] Hint Extern 1 (appends (when _ _)) => apply appends_when : appends.
#[local] Hint Extern 1 (appends (if _ then _ else _)) => apply appends_if : appends.
#[local] Hint Extern 2 (appends _) => (apply appends_pure; reflexivity) : appends.

Lemma appends_event_handler e : appends (event_handler e).
Proof.
  unfold event_handler, dump_event.
  destruct e as [[] p | n [|i] | r | k]; auto 10 with appends.
Qed.

Lemma appends_handle_async e : appends (handle_async e).
Proof.
  destruct e as [ev | b |]; cbn [handle_async].
  - apply appends_event_handler.
  - intros m. destruct (outstanding m).
    + exists []. cbn. rewrite app_nil_r. reflexivity.
    + revert m. change (appends (bind (encoder_fills b)
                                      (fun _ => fill_output_buffer_done_handler))).
      unfold fill_output_buffer_done_handler. auto 10 with appends.
  - auto with appends.
Qed.

Lemma appends_handle_all es : appends (handle_all es).
Proof.
  induction es as [|e es IH]; cbn [handle_all]; [auto with appends |].
  apply appends_bind; [apply appends_handle_async | intros _; exact IH].
Qed.

Lemma appends_usleep usec : appends (usleep usec).
Proof.
  intros m. unfold usleep.
  match goal with |- context [handle_all ?es ?m0] =>
    destruct (appends_handle_all es m0) as (X & EX) end.
  exists X. exact EX.
Qed.

#[local] Hint Resolve appends_usleep : appends.

Lemma appends_flush_ready_buffer : appends flush_ready_buffer.
Proof. unfold flush_ready_buffer. auto 20 with appends. Qed.

Lemma appends_request_next_fill : appends request_next_fill.
Proof. unfold request_next_fill. auto 20 with appends. Qed.

Lemma appends_loop_body : appends loop_body.
Proof.
  unfold loop_body.
  apply appends_bind; [apply appends_load | intros ready].
  apply appends_bind.
  - apply appends_if; [apply appends_flush_ready_buffer | auto with appends].
  - intros []; auto 10 using appends_request_next_fill with appends.
Qed.

Lemma appends_capture_encode_loop (fuel : nat) : appends (capture_encode_loop fuel).
Proof.
  induction fuel as [|fuel IH]; cbn [capture_encode_loop].
  - apply appends_pure. reflexivity.
  - apply appends_bind; [apply appends_loop_body |].
    intros []; [exact IH | auto with appends].
Qed.

(** The callbacks keep the discipline: whatever an asynchronous event
    adds to the log is empty or one critical section of the callback
    context, with at most one store inside. *)
Lemma handle_async_disciplined (e : async_event) (m : machine) :
  0 < handler_lock (ctx m) ->
  exists X,
    accesses (final_world (handle_async e m)) = accesses m ++ X /\
    disciplined None X = true.
Proof.
  intros Hl. apply Z.ltb_lt in Hl.
  destruct e as [[[] p | n [|i] | r | k] | b |]; unfold handle_async;
    try destruct (outstanding m);
    run_handler; rewrite ?Hl; run_handler;
    cbn [final_world accesses];
    first [ exists []; rewrite app_nil_r; split; reflexivity
          | eexists; rewrite <- ?app_assoc; cbn [app]; split; reflexivity ].
Qed.

(** C8 (part_000).  The capture and encode loop reads
    [ctx.encoder.ready] outside the critical section: the first access
    of an iteration is a load of the flag by the control thread with the
    lock not taken, so the accesses the loop adds to the log break the
    discipline. *)
Theorem capture_encode_loop_unlocked_access (fuel : nat) (m : machine) :
  exists rest,
    accesses (final_world (capture_encode_loop (S fuel) m)) =
      accesses m ++ (Control, Load Flag_encoder_ready) :: rest
    /\ disciplined None ((Control, Load Flag_encoder_ready) :: rest) = false.
Proof.
  cbn [capture_encode_loop]. unfold loop_body.
  unfold bind at 1. unfold bind at 1. unfold load at 1.
  match goal with |- context [bind ?p ?k (log_access Control ?a m)] =>
    assert (Hk : appends (bind p k)) end.
  { apply appends_bind.
    - apply appends_if; [apply appends_flush_ready_buffer | auto with appends].
    - intros []; auto 10 using appends_request_next_fill with appends. }
  match goal with |- context [bind ?p ?k (log_access Control ?a m)] =>
    destruct (Hk (log_access Control a m)) as (X & EX);
    destruct (bind p k (log_access Control a m)) as [[] m1 | d m1 | m1]
  end; cbn [final_world log_access accesses] in EX |- *.
  - destruct (appends_capture_encode_loop fuel m1) as (Y & EY).
    exists (X ++ Y). split; [| reflexivity].
    rewrite EY, EX, <- !app_assoc. reflexivity.
  - exists X. split; [| reflexivity]. unfold ret, final_world.
    rewrite EX, <- app_assoc. reflexivity.
  - exists X. split; [| reflexivity]. rewrite EX, <- app_assoc. reflexivity.
  - exists X. split; [| reflexivity]. rewrite EX, <- app_assoc. reflexivity.
Qed.

End EventSyncFacts.

Lemma main_wait_camera_ready_unbounded_witness :
  App.camera_never_ready silent_camera /\
  is_Spinning (App.main_wait_camera_ready 1000 silent_camera) = true.
Proof.
  assert (H : App.camera_never_ready silent_camera).
  { split; [reflexivity | constructor]. }
  split; [exact H | exact (main_wait_camera_ready_unbounded 1000 silent_camera H)].
Defined.

Example camera_block_until_camera_ready_silent :
  is_Died (App.camera_block_until_camera_ready 103 silent_camera) = true /\
  List.length (App.accesses
     (final_world (App.camera_block_until_camera_ready 103 silent_camera))) = 102%nat.
Proof. split; vm_compute; reflexivity. Qed.

Lemma block_until_flushed_uninitialized_quit_witness :
  App.block_until_flushed 1 (-1) flush_pending = Returned tt flush_pending
  /\ App.flushed (App.ctx flush_pending) = 1
  /\ App.flushed (App.ctx (final_world (App.block_until_flushed 2 0 flush_pending))) = 0
  /\ is_Returned (App.block_until_flushed 2 0 flush_pending) = true.
Proof.
  split; [| split; [reflexivity | split]].
  - apply (proj1 block_until_flushed_uninitialized_quit 0%nat (-1) flush_pending).
    discriminate.
  - reflexivity.
  - apply (proj2 (proj2 block_until_flushed_uninitialized_quit) 0%nat flush_pending).
    + discriminate.
    + reflexivity.
Defined.

(** ** StreamDrainLoop: the capture and encode loop *)

Section DrainLoopFacts.
Import App.

Lemma written_app (t u : list obs) : written (t ++ u) = written t ++ written u.
Proof.
  induction t as [|o t IH]; [reflexivity |].
  destruct o; cbn; rewrite IH; reflexivity.
Qed.

Lemma completed_app (t u : list obs) : completed (t ++ u) = completed t ++ completed u.
Proof.
  induction t as [|o t IH]; [reflexivity |].
  destruct o; cbn; rewrite IH; reflexivity.
Qed.

Lemma fill_protocol_app (t u : list obs) (p : phase) :
  fill_protocol p (t ++ u) =
  match fill_protocol p t with
  | Some p' => fill_protocol p' u
  | None => None
  end.
Proof.
  revert p. induction t as [|o t IH]; intros p; [reflexivity |].
  cbn [app fill_protocol]. destruct (phase_step p o); [apply IH | reflexivity].
Qed.

Lemma since_exit_signal_app (t u : list obs) :
  since_exit_signal (t ++ u) =
  match since_exit_signal t with
  | Some post => Some (post ++ u)
  | None => since_exit_signal u
  end.
Proof.
  induction t as [|o t IH]; [reflexivity |].
  destruct o as [msg | | |]; cbn [app since_exit_signal]; try exact IH.
  destruct (String.eqb msg exit_signal_message); [reflexivity | exact IH].
Qed.

Lemma loop_invariant_protocol_kept (m : machine) :
  loop_invariant m -> protocol_kept m.
Proof.
  intros [_ (ph & Hp & Hs) _ _ _]. exists ph. split; [exact Hp |].
  destruct ph; try tauto; destruct Hs as (_ & _ & ->); reflexivity.
Qed.

Ltac run_handler :=
  cbv beta iota zeta delta
    [bind ret when negb event_handler fill_output_buffer_done_handler dump_event say
     encoder_fills signal_handler vcos_semaphore_wait vcos_semaphore_post
     store load omx_die die log_access log_obs with_ctx with_locals
     set_flag set_handler_lock set_buffer_out set_fd_out flag_value
     get_locals put_locals get_want_quit get_buffer_out fwrite OMX_FillThisBuffer
     set_need final_world fst snd pending
     ctx handler_lock camera_ready encoder_ready flushed
     buffer_out fd_out deliveries want_quit locals outstanding
     accesses trace fill_statuses room quit_detected quit_in_keyframe
     need_next_buffer_to_be_filled] in *.

Lemma written_says msgs : written (map Tr_say msgs) = [].
Proof. induction msgs; [reflexivity | exact IHmsgs]. Qed.

Lemma completed_says msgs : completed (map Tr_say msgs) = [].
Proof. induction msgs; [reflexivity | exact IHmsgs]. Qed.

Lemma fill_protocol_says msgs p : fill_protocol p (map Tr_say msgs) = Some p.
Proof. induction msgs; [reflexivity | exact IHmsgs]. Qed.

Lemma since_exit_signal_says msgs :
  Forall not_exit_signal msgs -> since_exit_signal (map Tr_say msgs) = None.
Proof.
  induction 1 as [|msg msgs Hmsg _ IH]; [reflexivity |].
  cbn [map since_exit_signal]. rewrite Hmsg. exact IH.
Qed.

(** The invariant only looks at the lock, the ready flag, the output
    buffer, the stream, the locals, the encoder and the trace; messages
    other than the exit-signal report do not disturb it. *)
Lemma loop_invariant_says (m m' : machine) (msgs : list string) :
  loop_invariant m ->
  Forall not_exit_signal msgs ->
  trace m' = trace m ++ map Tr_say msgs ->
  handler_lock (ctx m') = handler_lock (ctx m) ->
  encoder_ready (ctx m') = encoder_ready (ctx m) ->
  buffer_out (ctx m') = buffer_out (ctx m) ->
  fd_out (ctx m') = fd_out (ctx m) ->
  locals m' = locals m ->
  outstanding m' = outstanding m ->
  loop_invariant m'.
Proof.
  intros [Hl Hph Hsink Hord Hsh] Hmsgs Etr El Er Eb Ef Elo Eo.
  assert (Epend : pending m' = pending m).
  { unfold pending. rewrite Er, Eb. reflexivity. }
  constructor.
  - rewrite El. exact Hl.
  - destruct Hph as (ph & Hp & Hs). exists ph. split.
    + rewrite Etr, fill_protocol_app, Hp. apply fill_protocol_says.
    + rewrite Elo, Er, Eo. exact Hs.
  - rewrite Ef, Etr, written_app, written_says, app_nil_r. exact Hsink.
  - rewrite Epend, Etr, written_app, completed_app, written_says, completed_says,
      !app_nil_r. exact Hord.
  - unfold shutdown_state in *. rewrite Elo, Epend, Etr, since_exit_signal_app.
    destruct Hsh as [(Hq & Hnone) | (Hq & post & b0 & rest & Hsome & Hw & Hall & Hk & Ho)].
    + left. split; [exact Hq |]. rewrite Hnone. apply since_exit_signal_says, Hmsgs.
    + right. split; [exact Hq |]. exists (post ++ map Tr_say msgs), b0, rest.
      rewrite Hsome, written_app, completed_app, written_says, completed_says, !app_nil_r.
      auto.
Qed.

Lemma handle_async_inv (e : async_event) (m : machine) :
  loop_invariant m ->
  match handle_async e m with
  | Returned _ m' =>
      loop_invariant m' /\ deliveries m' = deliveries m /\ locals m' = locals m /\
      (want_quit m' = want_quit m \/ e = Ev_signal)
  | Died _ m' => protocol_kept m'
  | Spinning _ => False
  end.
Proof.
  intros Hinv. pose proof (inv_lock m Hinv) as Hl.
  destruct e as [[[] p | n [|i] | r | k] | b |]; unfold handle_async.
  1-9: run_handler; rewrite ?Hl; cbn [Z.ltb Z.compare]; cbv beta iota;
       first [ apply loop_invariant_protocol_kept | split; [| auto] ].
  1-9: apply (loop_invariant_says m _ [dump_event_message] Hinv);
       [ repeat constructor | reflexivity
       | first [reflexivity | cbn; symmetry; exact Hl] | reflexivity .. ].
  - (* the encoder completes a fill *)
    destruct (outstanding m) as [|n] eqn:Eout; [auto 10 |].
    run_handler. rewrite ?Hl; cbn [Z.ltb Z.compare]; cbv beta iota.
    split; [| auto].
    destruct Hinv as [_ (ph & Hp & Hs) Hsink Hord Hsh].
    run_handler.
    destruct ph; try (destruct Hs as (_ & _ & Hs); congruence); [| contradiction].
    destruct Hs as (Hneed & Hready & Hout).
    rewrite Hready in *. cbn [Z.eqb] in *. rewrite app_nil_r in Hord.
    constructor; run_handler.
    + cbn. reflexivity.
    + exists Filled. rewrite fill_protocol_app, Hp. cbn.
      repeat split; auto; [discriminate |].
      transitivity (pred 1); [f_equal; exact Hout | reflexivity].
    + rewrite written_app, app_nil_r. exact Hsink.
    + rewrite written_app, completed_app, app_nil_r, Hord. reflexivity.
    + unfold shutdown_state in *. run_handler. rewrite since_exit_signal_app.
      destruct Hsh as [(Hq & Hnone) | (Hq & post & b0 & rest & Hsome & Hw & Hall & Hk & Ho)].
      * left. split; [exact Hq |]. rewrite Hnone. reflexivity.
      * right. split; [exact Hq |].
        exists (post ++ [Tr_FillBufferDone b]), b0, rest.
        rewrite Hready in Ho. cbn [Z.eqb] in Ho. rewrite app_nil_r in Ho.
        rewrite Hsome, written_app, completed_app, !app_nil_r.
        cbn [written completed Z.eqb].
        repeat (split; [first [reflexivity | assumption] |]).
        rewrite Ho. reflexivity.
  - (* a signal *)
    run_handler. split; [| auto].
    apply (loop_invariant_says m _ [] Hinv); try reflexivity.
    + constructor.
    + cbn. rewrite app_nil_r. reflexivity.
Qed.

Lemma handle_all_inv (es : list async_event) :
  forall m,
  loop_invariant m ->
  match handle_all es m with
  | Returned _ m' =>
      loop_invariant m' /\ deliveries m' = deliveries m /\ locals m' = locals m /\
      (want_quit m' = want_quit m \/ In Ev_signal es)
  | Died _ m' => protocol_kept m'
  | Spinning _ => False
  end.
Proof.
  induction es as [|e es IH]; intros m Hinv; [cbn; auto 10 |].
  cbn [handle_all]. unfold bind at 1.
  pose proof (handle_async_inv e m Hinv) as He.
  destruct (handle_async e m) as [[] m1 | d m1 | m1]; auto.
  destruct He as (Hinv1 & Hd1 & Hl1 & Hq1).
  specialize (IH m1 Hinv1).
  destruct (handle_all es m1) as [[] m2 | d m2 | m2]; auto.
  destruct IH as (Hinv2 & Hd2 & Hl2 & Hq2).
  split; [exact Hinv2 |]. split; [congruence |]. split; [congruence |].
  destruct Hq2 as [Hq2 | Hin]; [| right; right; exact Hin].
  destruct Hq1 as [Hq1 | ->]; [left; congruence | right; left; reflexivity].
Qed.

Lemma usleep_inv (usec : Z) (m : machine) :
  loop_invariant m ->
  match usleep usec m with
  | Returned _ m' =>
      loop_invariant m' /\ deliveries m' = tl (deliveries m) /\ locals m' = locals m /\
      (want_quit m' = want_quit m \/ In Ev_signal (hd [] (deliveries m)))
  | Died _ m' => protocol_kept m'
  | Spinning _ => False
  end.
Proof.
  intros Hinv. unfold usleep.
  match goal with |- match handle_all ?es ?m0 with _ => _ end =>
    assert (Hinv0 : loop_invariant m0);
    [ apply (loop_invariant_says m _ [] Hinv);
      [constructor | cbn; rewrite app_nil_r; reflexivity | reflexivity ..]
    | pose proof (handle_all_inv es m0 Hinv0) as Hh;
      destruct (handle_all es m0) as [[] m1 | d m1 | m1]; auto ]
  end.
Qed.

Lemma loop_body_eq (m : machine) :
  loop_body m =
  bind loop_control
       (fun fl => match fl with
                  | Break => ret Break
                  | Continue => bind (usleep 1000) (fun _ => ret Continue)
                  end) m.
Proof.
  unfold loop_body, loop_control, bind.
  destruct (load Control Flag_encoder_ready m) as [ready m1 | |]; try reflexivity.
  destruct ((if negb (ready =? 0) then flush_ready_buffer else ret Continue) m1)
    as [[] m2 | |]; try reflexivity.
  destruct (request_next_fill m2) as [[] m3 | |]; reflexivity.
Qed.

Ltac split_eqb :=
  match goal with
  | |- context [?x =? ?y] =>
      let E := fresh "E" in destruct (x =? y) eqn:E
  end.

Lemma wrote_message_not_exit_signal :
  String.eqb wrote_message exit_signal_message = false.
Proof. reflexivity. Qed.

Lemma firstn_payload (b : OMX_BUFFERHEADERTYPE) :
  firstn (Z.to_nat (nFilledLen b)) (payload b) = payload b.
Proof.
  unfold payload. rewrite firstn_firstn, Nat.min_id. reflexivity.
Qed.

Ltac split_status :=
  match goal with
  | |- context [Tr_FillThisBuffer ?r] =>
      let E := fresh "Er" in destruct (r =? OMX_ErrorNone) eqn:E
  end.

Lemma loop_control_inv (m : machine) :
  loop_invariant m ->
  match loop_control m with
  | Returned Continue m' =>
      loop_invariant m' /\ deliveries m' = deliveries m /\ want_quit m' = want_quit m /\
      (quit_detected (locals m') <> 0 -> quit_seen m)
  | Returned Break m' => exit_state m' /\ quit_seen m
  | Died _ m' => protocol_kept m'
  | Spinning _ => False
  end.
Proof.
  intros [Hl (ph & Hp & Hs) Hsink Hord Hsh].
  unfold loop_control, flush_ready_buffer, request_next_fill, quit_seen, shutdown_state in *.
  destruct ph; [| | | contradiction]; destruct Hs as (Hneed & Hready & Hout).
  - (* nothing requested yet *)
    run_handler. rewrite Hready. cbn [Z.eqb]. cbv beta iota.
    apply Z.eqb_neq in Hneed. rewrite Hneed. cbv beta iota.
    split_status; cbv beta iota.
    + apply Z.eqb_eq in Er. rewrite Er in *.
      split; [| auto].
      constructor; run_handler.
      * exact Hl.
      * exists Requested. rewrite fill_protocol_app, Hp. cbn.
        rewrite Hout. auto.
      * rewrite written_app, app_nil_r. exact Hsink.
      * rewrite Hready in Hord. cbn [Z.eqb] in Hord |- *.
        rewrite written_app, completed_app. cbn. rewrite !app_nil_r. 
        rewrite app_nil_r in Hord. exact Hord.
      * unfold shutdown_state. run_handler.
        rewrite since_exit_signal_app. cbn [since_exit_signal].
        rewrite Hready in Hsh. cbn [Z.eqb] in Hsh |- *.
        destruct Hsh as [(Hq & Hnone) | (Hq & post & b0 & rest & Hsome & Hw & Hall & Hk & Ho)].
        -- left. rewrite Hnone. auto.
        -- right. split; [exact Hq |].
           exists (post ++ [Tr_FillThisBuffer 0]), b0, rest.
           rewrite Hsome, written_app, completed_app. cbn [written completed].
           rewrite !app_nil_r. rewrite app_nil_r in Ho. auto.
    + exists Unrequested. run_handler.
      rewrite fill_protocol_app, Hp. cbn [fill_protocol phase_step].
      rewrite Er. auto.
  - (* a fill outstanding: nothing to do *)
    run_handler. rewrite Hready. cbn [Z.eqb]. cbv beta iota.
    rewrite Hneed. cbn [Z.eqb]. cbv beta iota.
    split; [| split; [reflexivity | split; [reflexivity | auto]]].
    apply (loop_invariant_says m _ []); try reflexivity.
    + constructor; auto. exists Requested. auto.
    + constructor.
    + cbn. rewrite app_nil_r. reflexivity.
  - (* a filled buffer is ready *)
    run_handler.
    apply Z.eqb_neq in Hready. rewrite Hready in *. cbv beta iota in *.
    repeat (split_eqb; cbv beta iota; cbn [andb Z.eqb]; cbv beta iota).
    all: try (rewrite Z.lxor_nilpotent in *; discriminate).
    all: try lazymatch goal with
      | |- protocol_kept _ =>
          unfold protocol_kept; run_handler;
          eexists; split;
          [ rewrite !fill_protocol_app, Hp; cbn [fill_protocol phase_step];
            repeat match goal with
                   | H : (_ =? OMX_ErrorNone) = _ |- _ => rewrite H
                   end;
            reflexivity
          | cbv beta iota; exact Hout ]
      end.
    all: repeat match goal with
           | H : (_ =? _) = true |- _ => apply Z.eqb_eq in H
           | H : (_ =? _) = false |- _ => apply Z.eqb_neq in H
           end.
    all: try match goal with
           | H : Z.max 0 _ = _ |- _ => rewrite H
           end.
    all: try match goal with
           | H : hd OMX_ErrorNone _ = OMX_ErrorNone |- _ => rewrite H
           end.
    all: try match goal with
           | |- loop_invariant _ /\ _ =>
               split;
               [ constructor; run_handler;
                 [ exact Hl
                 | exists Requested; rewrite !fill_protocol_app, Hp; cbn;
                   rewrite Hout; auto
                 | rewrite !written_app; cbn [written];
                   rewrite !app_nil_r, map_app; cbn [map];
                   rewrite Hsink, firstn_payload; reflexivity
                 | rewrite !written_app, !completed_app; cbn [written completed Z.eqb];
                   rewrite !app_nil_r; exact Hord
                 | unfold shutdown_state; run_handler; cbn [Z.eqb];
                   rewrite !since_exit_signal_app ]
               | cbn; auto 6 ]
           | |- exit_state _ /\ _ =>
               split; [| auto];
               unfold exit_state, protocol_kept; run_handler;
               split;
               [ exists Filled; rewrite !fill_protocol_app, Hp; cbn; auto
               | split;
                 [ rewrite !written_app; cbn [written]; rewrite !app_nil_r; exact Hsink
                 | split;
                   [ rewrite !written_app, !completed_app; cbn [written completed];
                     rewrite !app_nil_r; exact Hord
                   | rewrite !since_exit_signal_app ] ] ]
           end.
    all: destruct Hsh as [(Hq & Hnone) | (Hq & post & b0 & rest & Hsome & Hw & Hall & Hk & Ho)];
      try contradiction.
    all: rewrite ?Hnone, ?Hsome; cbn [since_exit_signal];
         rewrite ?wrote_message_not_exit_signal, ?String.eqb_refl; cbv beta iota.
    all: try (left; split; [assumption | reflexivity]).
    all: try (right; split; [first [assumption | discriminate] |]).
    all: lazymatch goal with
         | Hw : written ?post = ?b0 :: ?rest |- context [boundary_message] =>
             exists (post ++ [Tr_say boundary_message]), b0, rest
         | Hw : written ?post = ?b0 :: ?rest |- _ =>
             exists (((post ++ [Tr_fwrite (buffer_out (ctx m))
                                          (nFilledLen (buffer_out (ctx m)))])
                        ++ [Tr_say wrote_message])
                       ++ [Tr_FillThisBuffer OMX_ErrorNone]), b0,
                    (rest ++ [buffer_out (ctx m)])
         | _ =>
             exists [Tr_fwrite (buffer_out (ctx m)) (nFilledLen (buffer_out (ctx m)));
                     Tr_say wrote_message; Tr_FillThisBuffer OMX_ErrorNone],
                    (buffer_out (ctx m)), []
         end.
    all: rewrite ?written_app, ?completed_app; cbn [written completed app];
         rewrite ?app_nil_r.
    all: repeat (split; [first [reflexivity | assumption] |]).
    all: lazymatch goal with
         | |- syncframe _ <> _ /\ _ =>
             (* leaving: the marker of the buffer in hand differs *)
             split; [| assumption];
             intros Heq;
             match goal with
             | H : Z.lxor _ _ <> 0 |- _ =>
                 apply H; rewrite Hk, <- Heq; apply Z.lxor_nilpotent
             end
         | |- _ = _ :: _ ++ _ /\ _ =>
             (* one more buffer with the latched marker *)
             split; [rewrite Hw; reflexivity |];
             split; [| split; assumption];
             apply Forall_app; split; [assumption |];
             constructor; [| constructor];
             match goal with
             | H : Z.lxor _ _ = 0 |- _ =>
                 apply Z.lxor_eq in H; rewrite <- Hk, H; reflexivity
             end
         | |- _ =>
             (* the buffer at which the signal is reported *)
             split; [constructor; [reflexivity | constructor] |];
             split; reflexivity
         end.
Qed.

Lemma loop_body_inv (m : machine) :
  loop_invariant m ->
  match loop_body m with
  | Returned Continue m' =>
      loop_invariant m' /\ deliveries m' = tl (deliveries m) /\
      (want_quit m' = want_quit m \/ In Ev_signal (hd [] (deliveries m))) /\
      (quit_detected (locals m') <> 0 -> quit_seen m)
  | Returned Break m' => exit_state m' /\ quit_seen m
  | Died _ m' => protocol_kept m'
  | Spinning _ => False
  end.
Proof.
  intros Hinv. rewrite loop_body_eq. unfold bind at 1.
  pose proof (loop_control_inv m Hinv) as Hc.
  destruct (loop_control m) as [[] m1 | d m1 | m1]; auto.
  destruct Hc as (Hinv1 & Hd1 & Hq1 & Hseen).
  unfold bind at 1.
  pose proof (usleep_inv 1000 m1 Hinv1) as Hu.
  destruct (usleep 1000 m1) as [[] m2 | d m2 | m2]; auto.
  destruct Hu as (Hinv2 & Hd2 & Hl2 & Hq2).
  unfold ret.
  split; [exact Hinv2 |]. split; [rewrite Hd2, Hd1; reflexivity |].
  split; [rewrite <- Hd1, <- Hq1; exact Hq2 |].
  rewrite Hl2. exact Hseen.
Qed.

Lemma exit_state_protocol_kept (m : machine) : exit_state m -> protocol_kept m.
Proof. intros [H _]. exact H. Qed.

(** However a run of the loop ends: left through [break], ended by
    [die], or still running. *)
Lemma capture_encode_loop_inv (fuel : nat) :
  forall m,
  loop_invariant m ->
  match capture_encode_loop fuel m with
  | Returned _ m' => exit_state m'
  | Died _ m' => protocol_kept m'
  | Spinning m' => loop_invariant m'
  end.
Proof.
  induction fuel as [|fuel IH]; intros m Hinv; [exact Hinv |].
  cbn [capture_encode_loop]. unfold bind at 1.
  pose proof (loop_body_inv m Hinv) as Hb.
  destruct (loop_body m) as [[] m1 | d m1 | m1].
  - apply IH. apply Hb.
  - unfold ret. apply Hb.
  - exact Hb.
  - contradiction.
Qed.

Lemma capture_encode_loop_no_signal (fuel : nat) :
  forall m,
  loop_invariant m ->
  want_quit m = 0 ->
  quit_detected (locals m) = 0 ->
  no_signal (deliveries m) ->
  is_Returned (capture_encode_loop fuel m) = false.
Proof.
  induction fuel as [|fuel IH]; intros m Hinv Hwq Hqd Hns; [reflexivity |].
  cbn [capture_encode_loop]. unfold bind at 1.
  pose proof (loop_body_inv m Hinv) as Hb.
  assert (Hunseen : ~ quit_seen m) by (intros [H | H]; contradiction).
  destruct (loop_body m) as [[] m1 | d m1 | m1]; try reflexivity.
  - destruct Hb as (Hinv1 & Hd1 & Hq1 & Hseen).
    unfold no_signal in *.
    apply IH; [exact Hinv1 | | |].
    + destruct Hq1 as [-> | Hin]; [exact Hwq |].
      exfalso. apply Hns. destruct (deliveries m) as [|es script]; [contradiction |].
      cbn [concat hd] in *. apply in_or_app. left. exact Hin.
    + destruct (Z.eq_dec (quit_detected (locals m1)) 0) as [E | E]; [exact E |].
      exfalso. apply Hunseen, Hseen, E.
    + rewrite Hd1. intros Hin. apply Hns.
      destruct (deliveries m) as [|es script]; [contradiction |].
      cbn [concat tl] in *. apply in_or_app. right. exact Hin.
  - exfalso. apply Hunseen, Hb.
Qed.

Lemma loop_invariant_at_entry b statuses room' script :
  loop_invariant (with_locals (at_loop_entry b statuses room' script) (mk_vars 0 0 1)).
Proof.
  constructor; cbn.
  - reflexivity.
  - exists Unrequested. repeat split; auto. discriminate.
  - reflexivity.
  - reflexivity.
  - left. split; reflexivity.
Qed.

Lemma main_loop_eq fuel m :
  main_loop fuel m = capture_encode_loop fuel (with_locals m (mk_vars 0 0 1)).
Proof. reflexivity. Qed.

Lemma fill_protocol_outstanding (t : list obs) :
  forall p p',
  fill_protocol p t = Some p' -> owed p + fills_outstanding t = owed p'.
Proof.
  induction t as [|o t IH]; intros p p' Hp.
  - cbn in *. injection Hp as <-. lia.
  - cbn [fill_protocol] in Hp.
    destruct (phase_step p o) as [p1|] eqn:Estep; [| discriminate].
    specialize (IH p1 p' Hp).
    destruct o as [msg | b n | r | b]; destruct p; cbn in Estep;
      try discriminate; try (injection Estep as <-);
      cbn [fills_outstanding owed] in *;
      try (destruct (r =? OMX_ErrorNone); injection Estep as <-; cbn [owed] in * );
      lia.
Qed.

Lemma fill_protocol_prefix (t u : list obs) (p p' : phase) :
  fill_protocol p (t ++ u) = Some p' -> exists p1, fill_protocol p t = Some p1.
Proof.
  rewrite fill_protocol_app.
  destruct (fill_protocol p t) as [p1|]; [eauto | discriminate].
Qed.

Lemma protocol_kept_at_most_one (m : machine) :
  protocol_kept m ->
  (forall t u, trace m = t ++ u -> 0 <= fills_outstanding t <= 1)
  /\ (exists ph, fill_protocol Unrequested (trace m) = Some ph)
  /\ Z.of_nat (outstanding m) = fills_outstanding (trace m).
Proof.
  intros (ph & Hp & Hout). split; [| split].
  - intros t u Et. rewrite Et in Hp.
    destruct (fill_protocol_prefix _ _ _ _ Hp) as (p1 & Hp1).
    apply fill_protocol_outstanding in Hp1. cbn [owed] in Hp1.
    destruct p1; cbn [owed] in Hp1; lia.
  - exists ph. exact Hp.
  - apply fill_protocol_outstanding in Hp. cbn [owed] in Hp.
    rewrite Hout. destruct ph; cbn [owed] in Hp; cbn; lia.
Qed.

(** C2. From the state in which [main] enters its loop, whatever the
    encoder, the stream and the signals do and however the run ends: at
    every point of the trace at most one accepted fill request is not
    yet completed; the trace follows the cycle request, completion,
    write, request (so a fill is requested only after the previous one
    completed and its buffer was written); and the fills the encoder
    still owes are the ones the trace counts. *)
Theorem at_most_one_fill_outstanding
    (fuel : nat) (b : OMX_BUFFERHEADERTYPE) (statuses : list OMX_ERRORTYPE)
    (room' : Z) (script : list (list async_event)) :
  let m' := final_world (main_loop fuel (at_loop_entry b statuses room' script)) in
  (forall t u, trace m' = t ++ u -> 0 <= fills_outstanding t <= 1)
  /\ (exists ph, fill_protocol Unrequested (trace m') = Some ph)
  /\ Z.of_nat (outstanding m') = fills_outstanding (trace m').
Proof.
  cbv zeta. rewrite main_loop_eq.
  pose proof (capture_encode_loop_inv fuel _
                (loop_invariant_at_entry b statuses room' script)) as H.
  apply protocol_kept_at_most_one.
  destruct (capture_encode_loop fuel _) as [[] m' | d m' | m']; cbn [final_world].
  - apply exit_state_protocol_kept, H.
  - exact H.
  - apply loop_invariant_protocol_kept, H.
Qed.

(** A run in which no signal is delivered and nothing fails never
    leaves the loop, whatever else is delivered, and at any number of
    iterations the stream has received one chunk per write, each the
    payload of the buffer written, and the buffers written, followed by
    the one the callback has marked ready if the loop has not taken it
    yet, are the buffers the encoder completed, in the order it
    completed them. *)
Lemma no_signal_never_leaves
    (fuel : nat) (b : OMX_BUFFERHEADERTYPE) (statuses : list OMX_ERRORTYPE)
    (room' : Z) (script : list (list async_event)) :
  no_signal script ->
  is_Died (main_loop fuel (at_loop_entry b statuses room' script)) = false ->
  exists m',
    main_loop fuel (at_loop_entry b statuses room' script) = Spinning m'
    /\ fd_out (ctx m') = map payload (written (trace m'))
    /\ written (trace m') ++ pending m' = completed (trace m')
    /\ fd_out (ctx m') ++ map payload (pending m') = map payload (completed (trace m'))
    /\ (length (pending m') <= 1)%nat.
Proof.
  intros Hns Hlive. rewrite main_loop_eq in *.
  pose proof (loop_invariant_at_entry b statuses room' script) as Hinv0.
  pose proof (capture_encode_loop_inv fuel _ Hinv0) as H.
  pose proof (capture_encode_loop_no_signal fuel _ Hinv0 eq_refl eq_refl Hns) as Hnr.
  destruct (capture_encode_loop fuel _) as [[] m' | d m' | m']; try discriminate.
  exists m'. split; [reflexivity |].
  destruct H as [_ _ Hsink Hord _].
  split; [exact Hsink |]. split; [exact Hord |]. split.
  - rewrite Hsink, <- map_app, Hord. reflexivity.
  - unfold pending. destruct (encoder_ready (ctx m') =? 0); cbn; lia.
Qed.

(** Whatever the layer delivers: when the loop is left, the exit signal
    was reported at some ready buffer; that buffer was written, and so
    was every buffer completed after it that carries the same keyframe
    marker; the loop leaves at the first completed buffer whose marker
    differs, without writing it.  No buffer in between is skipped or
    written twice. *)
Lemma leaves_only_at_marker_change
    (fuel : nat) (b : OMX_BUFFERHEADERTYPE) (statuses : list OMX_ERRORTYPE)
    (room' : Z) (script : list (list async_event)) (m' : machine) :
  main_loop fuel (at_loop_entry b statuses room' script) = Returned tt m' ->
  exists post b0 rest,
    since_exit_signal (trace m') = Some post /\
    written post = b0 :: rest /\
    Forall (fun w => syncframe w = syncframe b0) (written post) /\
    syncframe (buffer_out (ctx m')) <> syncframe b0 /\
    written post ++ [buffer_out (ctx m')] = b0 :: completed post.
Proof.
  intros Hrun. rewrite main_loop_eq in Hrun.
  pose proof (capture_encode_loop_inv fuel _
                (loop_invariant_at_entry b statuses room' script)) as H.
  rewrite Hrun in H. destruct H as (_ & _ & _ & H). exact H.
Qed.

End DrainLoopFacts.

(** ** The capture and encode loop on a well-behaved run

    What the loop does, iteration by iteration, when the encoder accepts
    every fill request, the stream takes every byte, and each sleep
    delivers at most one completion. *)

Section DrainLoopProgress.
Import App Feed.

Ltac run_handler :=
  cbv beta iota zeta delta
    [bind ret when negb event_handler fill_output_buffer_done_handler dump_event say
     encoder_fills signal_handler vcos_semaphore_wait vcos_semaphore_post
     store load omx_die die log_access log_obs with_ctx with_locals
     set_flag set_handler_lock set_buffer_out set_fd_out flag_value
     get_locals put_locals get_want_quit get_buffer_out fwrite OMX_FillThisBuffer
     set_need final_world fst snd pending
     ctx handler_lock camera_ready encoder_ready flushed
     buffer_out fd_out deliveries want_quit locals outstanding
     accesses trace fill_statuses room quit_detected quit_in_keyframe
     need_next_buffer_to_be_filled] in *.

Ltac crunch :=
  repeat (run_handler; cbv delta [OMX_ErrorNone] in *;
          cbn [Z.eqb Z.ltb Z.compare Pos.compare Pos.compare_cont Pos.eqb andb negb orb hd tl app
               handle_all handle_async pred];
          cbv beta iota).

Lemma total_filled_app (l1 l2 : list OMX_BUFFERHEADERTYPE) :
  total_filled (l1 ++ l2) = total_filled l1 + total_filled l2.
Proof.
  unfold total_filled. induction l1 as [|b l1 IH]; cbn [app fold_right]; [reflexivity | rewrite IH; lia].
Qed.

Lemma statuses_ok (sts : list OMX_ERRORTYPE) :
  Forall (fun r => r = OMX_ErrorNone) sts ->
  hd OMX_ErrorNone sts = 0 /\ Forall (fun r => r = OMX_ErrorNone) (tl sts).
Proof.
  intros H. destruct H as [|r sts Hr Hs]; cbn; auto.
Qed.

(** The sleep of an iteration: the events of [s] are handled. *)
Lemma usleep_view (R : Z) (m : machine) (W : list OMX_BUFFERHEADERTYPE) (sg : bool)
    (l : option latch) (s : sleep) :
  at_view R m (mk_view Waiting W sg l) ->
  hd [] (deliveries m) = events_of s ->
  exists m1,
    usleep 1000 m = Returned tt m1 /\ at_view R m1 (deliver s W sg l) /\
    deliveries m1 = tl (deliveries m).
Proof.
  destruct m as [[cr er bo fl fd hl] wq [qd qk nd] out sts rm dl acc tr].
  destruct s as [g f].
  unfold at_view, events_of, deliver.
  cbn [ctx handler_lock encoder_ready buffer_out fd_out want_quit locals outstanding
       fill_statuses room deliveries trace quit_detected quit_in_keyframe
       need_next_buffer_to_be_filled v_slot v_written v_signal v_latch fst snd in_hand].
  intros (Hl & (Hn & He & Ho) & Hfd & Hw & Hc & Hr & Hq & Hst & Hla) Hd.
  subst hl nd er out. unfold usleep. cbn [deliveries]. rewrite Hd.
  destruct g, f as [b|]; crunch.
  all: eexists; split; [reflexivity |]; crunch.
  all: split; [| reflexivity].
  all: cbn [slot_of in_hand olist].
  all: rewrite ?written_app, ?completed_app, ?since_exit_signal_app;
       cbn [written completed since_exit_signal]; rewrite ?app_nil_r in *.
  all: repeat (split; [first [reflexivity | assumption | lia | (rewrite Hc; reflexivity)
                             | (subst wq; destruct sg; reflexivity) | auto] |]).
  all: destruct l as [[[k Wq] Cq]|];
       [ destruct Hla as (Hqd & Hqk & post & Hp & Hwq & Hcq); rewrite Hp;
         split; [exact Hqd |]; split; [exact Hqk |];
         eexists; split; [reflexivity |];
         rewrite ?written_app, ?completed_app; cbn [written completed];
         rewrite ?app_nil_r; split; [exact Hwq | rewrite Hcq; reflexivity]
       | destruct Hla as (Hqd & Hn); rewrite Hn; split; [exact Hqd | reflexivity] ].
Qed.

(** The iteration up to its sleep, when it does not leave: a buffer
    marked ready is written and the next fill is requested. *)
Lemma control_view (R : Z) (m : machine) (a a1 : view) (s : sleep) :
  at_view R m a ->
  iterate a s = Some a1 ->
  Forall (fun w => 0 <= nFilledLen w) (v_written a1) ->
  total_filled (v_written a1) <= R ->
  exists m0 l1,
    loop_control m = Returned Continue m0 /\
    at_view R m0 (mk_view Waiting (v_written a1) (v_signal a) l1) /\
    a1 = deliver s (v_written a1) (v_signal a) l1 /\
    deliveries m0 = deliveries m.
Proof.
  destruct m as [[cr er bo fl fd hl] wq [qd qk nd] out sts rm dl acc tr].
  destruct a as [sl W sg la].
  unfold at_view.
  cbn [ctx handler_lock encoder_ready buffer_out fd_out want_quit locals outstanding
       fill_statuses room deliveries trace quit_detected quit_in_keyframe
       need_next_buffer_to_be_filled v_slot v_written v_signal v_latch fst snd].
  intros (Hl & Hs & Hfd & Hw & Hc & Hr & Hq & Hst & Hla) Hstep Hnn Htot.
  destruct (statuses_ok sts Hst) as (Hhd & Htl).
  unfold loop_control, flush_ready_buffer, request_next_fill.
  destruct sl as [| | b].
  - (* nothing requested yet *)
    destruct Hs as (-> & -> & ->). subst hl.
    cbn [iterate v_slot v_written v_signal v_latch] in Hstep. injection Hstep as <-.
    crunch. rewrite Hhd. crunch.
    eexists; exists la. split; [reflexivity |]. crunch.
    cbn [deliver v_written in_hand] in *.
    rewrite ?written_app, ?completed_app, ?since_exit_signal_app;
      cbn [written completed since_exit_signal]; rewrite ?app_nil_r in *.
    split; [| split; reflexivity].
    repeat (split; [first [reflexivity | assumption | now repeat split] |]).
    destruct la as [[[k Wq] Cq]|].
    + destruct Hla as (Hqd & Hqk & post & Hp & Hwq & Hcq). rewrite Hp.
      split; [exact Hqd |]. split; [exact Hqk |].
      eexists. split; [reflexivity |].
      rewrite written_app, completed_app. cbn [written completed].
      rewrite !app_nil_r. auto.
    + destruct Hla as (Hqd & Hn). rewrite Hn. auto.
  - (* a fill outstanding *)
    destruct Hs as (-> & -> & ->). subst hl.
    cbn [iterate v_slot v_written v_signal v_latch] in Hstep. injection Hstep as <-.
    crunch.
    eexists; exists la. split; [reflexivity |]. crunch.
    cbn [deliver v_written in_hand] in *.
    split; [| split; reflexivity].
    repeat (split; [first [reflexivity | assumption | now repeat split] |]). exact Hla.
  - (* a filled buffer is ready *)
    destruct Hs as (-> & -> & -> & ->). subst hl.
    cbn [iterate v_slot v_written v_signal v_latch] in Hstep.
    cbn [in_hand] in Hc.
    assert (Hfill : v_written a1 = W ++ [b] ->
                    Z.max 0 (Z.min (nFilledLen b) rm) = nFilledLen b).
    { intros E. rewrite E in Hnn, Htot. rewrite total_filled_app in Htot.
      apply Forall_app in Hnn. destruct Hnn as (_ & Hb). apply Forall_inv in Hb.
      change (total_filled [b]) with (nFilledLen b + 0) in Htot. lia. }
    destruct la as [[[k Wq] Cq]|].
    + (* the signal was reported before *)
      destruct Hla as (-> & -> & post & Hp & Hwq & Hcq).
      destruct (k =? syncframe b) eqn:Ek; [| discriminate].
      apply Z.eqb_eq in Ek. subst k. injection Hstep as <-.
      cbn [deliver v_written] in *. specialize (Hfill eq_refl).
      subst wq. destruct sg; crunch.
      all: fold (syncframe b); rewrite Z.lxor_nilpotent; crunch.
      all: rewrite Hfill, Z.eqb_refl; crunch; rewrite Hhd; crunch.
      all: eexists; exists (Some (syncframe b, Wq ++ [b], Cq));
           (split; [reflexivity |]); crunch; (split; [| split; reflexivity]).
      all: cbn [in_hand]; rewrite !written_app, !completed_app, !since_exit_signal_app, Hp;
           cbn [written completed]; rewrite ?app_nil_r, firstn_payload, map_app, total_filled_app.
      all: change (total_filled [b]) with (nFilledLen b + 0); cbn [map].
      all: repeat (split; [first [reflexivity | assumption | now repeat split
                                 | congruence | lia] |]).
      all: eexists; (split; [reflexivity |]);
           rewrite !written_app, !completed_app; cbn [written completed];
           rewrite ?app_nil_r; split; congruence.
    + (* no signal reported yet *)
      destruct Hla as (-> & Hn).
      subst wq. destruct sg.
      * (* the signal is reported at this buffer *)
        rewrite Z.eqb_refl in Hstep. injection Hstep as <-.
        cbn [deliver v_written] in *. specialize (Hfill eq_refl).
        crunch. fold (syncframe b). rewrite Z.lxor_nilpotent. crunch.
        rewrite Hfill, Z.eqb_refl. crunch. rewrite Hhd. crunch.
        eexists; exists (Some (syncframe b, [b], [])).
        split; [reflexivity |]. crunch. split; [| split; reflexivity].
        cbn [in_hand]. rewrite !written_app, !completed_app, !since_exit_signal_app, Hn.
        cbn [written completed since_exit_signal]. rewrite String.eqb_refl.
        rewrite ?app_nil_r, firstn_payload, map_app, total_filled_app.
        change (total_filled [b]) with (nFilledLen b + 0). cbn [map].
        repeat (split; [first [reflexivity | assumption | now repeat split
                              | congruence | lia] |]).
        eexists. split; [reflexivity |]. split; reflexivity.
      * (* no signal *)
        injection Hstep as <-.
        cbn [deliver v_written] in *. specialize (Hfill eq_refl).
        crunch. rewrite Hfill, Z.eqb_refl. crunch. rewrite Hhd. crunch.
        eexists; exists None.
        split; [reflexivity |]. crunch. split; [| split; reflexivity].
        cbn [in_hand]. rewrite !written_app, !completed_app, !since_exit_signal_app, Hn.
        cbn [written completed since_exit_signal].
        rewrite wrote_message_not_exit_signal.
        rewrite ?app_nil_r, firstn_payload, map_app, total_filled_app.
        change (total_filled [b]) with (nFilledLen b + 0). cbn [map].
        repeat (split; [first [reflexivity | assumption | now repeat split
                              | congruence | lia] |]).
        split; reflexivity.
Qed.

(** One iteration that does not leave the loop. *)
Lemma loop_body_view (R : Z) (m : machine) (a a1 : view) (s : sleep) :
  at_view R m a ->
  hd [] (deliveries m) = events_of s ->
  iterate a s = Some a1 ->
  Forall (fun w => 0 <= nFilledLen w) (v_written a1) ->
  total_filled (v_written a1) <= R ->
  exists m1,
    loop_body m = Returned Continue m1 /\ at_view R m1 a1 /\
    deliveries m1 = tl (deliveries m).
Proof.
  intros Hv Hd Hstep Hnn Htot.
  destruct (control_view R m a a1 s Hv Hstep Hnn Htot) as (m0 & l1 & E0 & Hv0 & Ea & Hd0).
  rewrite <- Hd0 in Hd.
  destruct (usleep_view R m0 _ _ _ s Hv0 Hd) as (m1 & E1 & Hv1 & Hd1).
  exists m1. rewrite loop_body_eq. unfold bind at 1. rewrite E0.
  unfold bind at 1. rewrite E1. unfold ret.
  split; [reflexivity |]. split; [rewrite Ea; exact Hv1 | rewrite Hd1, Hd0; reflexivity].
Qed.

(** The iteration that leaves the loop. *)
Lemma loop_body_leaves (R : Z) (m : machine) (a : view) (s : sleep) :
  at_view R m a ->
  iterate a s = None ->
  exists m1,
    loop_body m = Returned Break m1 /\ at_view R m1 a /\
    deliveries m1 = deliveries m.
Proof.
  destruct m as [[cr er bo fl fd hl] wq [qd qk nd] out sts rm dl acc tr].
  destruct a as [sl W sg la].
  unfold at_view.
  cbn [ctx handler_lock encoder_ready buffer_out fd_out want_quit locals outstanding
       fill_statuses room deliveries trace quit_detected quit_in_keyframe
       need_next_buffer_to_be_filled v_slot v_written v_signal v_latch fst snd].
  intros (Hl & Hs & Hfd & Hw & Hc & Hr & Hq & Hst & Hla) Hstep.
  unfold iterate in Hstep. cbn [v_slot v_written v_signal v_latch] in Hstep.
  destruct sl as [| | b]; try discriminate.
  destruct Hs as (-> & -> & -> & ->). subst hl.
  destruct la as [[[k Wq] Cq]|].
  - destruct Hla as (-> & -> & post & Hp & Hwq & Hcq).
    destruct (k =? syncframe b) eqn:Ek; [discriminate |].
    unfold loop_body, flush_ready_buffer.
    subst wq. destruct sg; crunch.
    all: fold (syncframe b).
    all: replace (Z.lxor k (syncframe b) =? 0) with false
           by (symmetry; apply Z.eqb_neq; intros E; apply Z.lxor_eq in E;
               apply Z.eqb_neq in Ek; contradiction).
    all: crunch.
    all: eexists; (split; [reflexivity |]); crunch; (split; [| reflexivity]).
    all: rewrite !written_app, !completed_app, !since_exit_signal_app, Hp;
         cbn [written completed]; rewrite ?app_nil_r.
    all: repeat (split; [first [reflexivity | assumption | now repeat split] |]).
    all: eexists; (split; [reflexivity |]);
         rewrite !written_app, !completed_app; cbn [written completed];
         rewrite ?app_nil_r; split; assumption.
  - destruct sg; [| discriminate].
    rewrite Z.eqb_refl in Hstep. discriminate.
Qed.


(** *** Runs of the abstract view *)

Lemma total_filled_nonneg (l : list OMX_BUFFERHEADERTYPE) :
  Forall (fun w => 0 <= nFilledLen w) l -> 0 <= total_filled l.
Proof.
  induction 1 as [|b l Hb _ IH]; [reflexivity |].
  change (total_filled (b :: l)) with (nFilledLen b + total_filled l). lia.
Qed.

Lemma iterate_written (a a1 : view) (s : sleep) :
  iterate a s = Some a1 -> exists D, v_written a1 = v_written a ++ D.
Proof.
  destruct a as [sl W sg la]. unfold iterate. cbn [v_slot v_written v_signal v_latch].
  destruct sl as [| | b].
  - intros [= <-]. exists []. cbn. rewrite app_nil_r. reflexivity.
  - intros [= <-]. exists []. cbn. rewrite app_nil_r. reflexivity.
  - destruct la as [[[k Wq] Cq]|]; [| destruct sg].
    + destruct (k =? syncframe b); intros [= <-]. exists [b]. reflexivity.
    + rewrite Z.eqb_refl. intros [= <-]. exists [b]. reflexivity.
    + intros [= <-]. exists [b]. reflexivity.
Qed.

Lemma iterations_written (ss : list sleep) :
  forall a a', iterations a ss = Some a' -> exists D, v_written a' = v_written a ++ D.
Proof.
  induction ss as [|s ss IH]; intros a a' Hrun; cbn [iterations] in Hrun.
  - injection Hrun as <-. exists []. rewrite app_nil_r. reflexivity.
  - destruct (iterate a s) as [a1|] eqn:Es; [| discriminate].
    destruct (iterate_written a a1 s Es) as (D1 & E1).
    destruct (IH a1 a' Hrun) as (D2 & E2).
    exists (D1 ++ D2). rewrite E2, E1, app_assoc. reflexivity.
Qed.

Lemma iterations_app (l1 l2 : list sleep) :
  forall a,
  iterations a (l1 ++ l2) =
  match iterations a l1 with
  | Some a1 => iterations a1 l2
  | None => None
  end.
Proof.
  induction l1 as [|s l1 IH]; intros a; [reflexivity |].
  cbn [app iterations]. destruct (iterate a s); [apply IH | reflexivity].
Qed.

(** The loop follows the view, one iteration per sleep, as long as the
    view does not leave. *)
Lemma capture_encode_loop_view (R : Z) (ss : list sleep) :
  forall (m : machine) (a a' : view) (rest : list (list async_event)) (fuel : nat),
  at_view R m a ->
  deliveries m = map events_of ss ++ rest ->
  iterations a ss = Some a' ->
  Forall (fun w => 0 <= nFilledLen w) (v_written a') ->
  total_filled (v_written a') <= R ->
  exists m1,
    capture_encode_loop (length ss + fuel) m = capture_encode_loop fuel m1 /\
    at_view R m1 a' /\ deliveries m1 = rest.
Proof.
  induction ss as [|s ss IH]; intros m a a' rest fuel Hv Hd Hrun Hnn Htot.
  - cbn [iterations] in Hrun. injection Hrun as <-. exists m. auto.
  - cbn [iterations] in Hrun. destruct (iterate a s) as [a1|] eqn:Es; [| discriminate].
    destruct (iterations_written ss a1 a' Hrun) as (D & ED).
    assert (Hnn1 : Forall (fun w => 0 <= nFilledLen w) (v_written a1)).
    { rewrite ED in Hnn. apply Forall_app in Hnn. apply Hnn. }
    assert (Htot1 : total_filled (v_written a1) <= R).
    { rewrite ED, total_filled_app in Htot. rewrite ED in Hnn.
      apply Forall_app in Hnn. destruct Hnn as (_ & HD).
      pose proof (total_filled_nonneg D HD). lia. }
    cbn [map app] in Hd.
    destruct (loop_body_view R m a a1 s Hv) as (m1 & E1 & Hv1 & Hd1); auto.
    { rewrite Hd. reflexivity. }
    rewrite Hd in Hd1. cbn [tl] in Hd1.
    destruct (IH m1 a1 a' rest fuel Hv1 Hd1 Hrun Hnn Htot) as (m2 & E2 & Hv2 & Hd2).
    exists m2. split; [| auto].
    cbn [length Nat.add capture_encode_loop]. unfold bind at 1. rewrite E1. exact E2.
Qed.

(** Before any signal: every completed buffer is written at the next
    iteration. *)
Lemma iterate_unsignalled (sl : slot) (W : list OMX_BUFFERHEADERTYPE) (s : sleep) :
  iterate (mk_view sl W false None) s =
  Some (mk_view (slot_of (snd s)) (W ++ in_hand sl) (fst s) None).
Proof.
  destruct sl; cbn; rewrite ?app_nil_r; reflexivity.
Qed.

Lemma iterations_unsignalled (ss : list sleep) :
  forall (sl : slot) (W : list OMX_BUFFERHEADERTYPE),
  Forall (fun s => fst s = false) ss ->
  exists sl' W',
    iterations (mk_view sl W false None) ss = Some (mk_view sl' W' false None) /\
    W' ++ in_hand sl' = W ++ in_hand sl ++ completions ss.
Proof.
  induction ss as [|[g f] ss IH]; intros sl W Hns.
  - exists sl, W. cbn. rewrite app_nil_r. auto.
  - inversion Hns as [|? ? Hg Hns']; subst. cbn [fst] in Hg. subst g.
    cbn [iterations]. rewrite iterate_unsignalled. cbn [fst snd].
    destruct (IH (slot_of f) (W ++ in_hand sl) Hns') as (sl' & W' & E & EW).
    exists sl', W'. split; [exact E |]. rewrite EW.
    destruct f; cbn [completions flat_map snd olist slot_of in_hand app];
      rewrite <- ?app_assoc; reflexivity.
Qed.

(** After the signal was reported: buffers with the latched marker are
    written; the iterations ends with the completion of [bx]. *)
Lemma iterations_latched (ss : list sleep) :
  forall (sl : slot) (W : list OMX_BUFFERHEADERTYPE) (k : Z)
         (Wq Cq : list OMX_BUFFERHEADERTYPE) (g : bool) (bx : OMX_BUFFERHEADERTYPE),
  Forall (fun w => syncframe w = k) (in_hand sl ++ completions ss) ->
  iterations (mk_view sl W true (Some (k, Wq, Cq))) (ss ++ [(g, Some bx)]) =
  Some (mk_view (Ready bx) (W ++ in_hand sl ++ completions ss) true
          (Some (k, Wq ++ in_hand sl ++ completions ss, Cq ++ completions ss ++ [bx]))).
Proof.
  induction ss as [|[g1 f1] ss IH]; intros sl W k Wq Cq g bx Hall.
  - cbn [app iterations completions flat_map]. rewrite !app_nil_r in *.
    destruct sl as [| | b]; cbn [iterate v_slot v_written v_signal v_latch in_hand] in *.
    + cbn. rewrite !app_nil_r. reflexivity.
    + cbn. rewrite !app_nil_r. reflexivity.
    + apply Forall_inv in Hall. rewrite <- Hall, Z.eqb_refl. reflexivity.
  - cbn [app iterations].
    assert (Hall' : Forall (fun w => syncframe w = k)
                      (in_hand (slot_of f1) ++ completions ss)).
    { apply Forall_app in Hall. destruct Hall as (_ & Hall).
      destruct f1; exact Hall. }
    destruct sl as [| | b]; cbn [iterate v_slot v_written v_signal v_latch in_hand] in *.
    + unfold deliver. cbn [fst snd orb]. rewrite (IH _ _ _ _ _ _ _ Hall').
      destruct f1; cbn [completions flat_map snd olist slot_of in_hand app];
        rewrite <- ?app_assoc; reflexivity.
    + unfold deliver. cbn [fst snd orb]. rewrite (IH _ _ _ _ _ _ _ Hall').
      destruct f1; cbn [completions flat_map snd olist slot_of in_hand app];
        rewrite <- ?app_assoc; reflexivity.
    + pose proof (Forall_inv Hall) as Hb. cbn beta in Hb. rewrite <- Hb, Z.eqb_refl.
      unfold deliver. cbn [fst snd orb]. rewrite Hb in *. rewrite (IH _ _ _ _ _ _ _ Hall').
      destruct f1; cbn [completions flat_map snd olist slot_of in_hand app];
        rewrite <- ?app_assoc; reflexivity.
Qed.

(** From the signal to the first buffer with another marker. *)
Lemma iterations_signalled (ss : list sleep) :
  forall (sl : slot) (W : list OMX_BUFFERHEADERTYPE)
         (b0 : OMX_BUFFERHEADERTYPE) (same : list OMX_BUFFERHEADERTYPE)
         (g : bool) (bx : OMX_BUFFERHEADERTYPE),
  in_hand sl ++ completions ss = b0 :: same ->
  Forall (fun w => syncframe w = syncframe b0) same ->
  iterations (mk_view sl W true None) (ss ++ [(g, Some bx)]) =
  Some (mk_view (Ready bx) (W ++ b0 :: same) true
          (Some (syncframe b0, b0 :: same, same ++ [bx]))).
Proof.
  induction ss as [|[g1 f1] ss IH]; intros sl W b0 same g bx Hbs Hsame.
  - cbn [completions flat_map] in Hbs. rewrite app_nil_r in Hbs.
    destruct sl as [| | b]; cbn [in_hand] in Hbs; try discriminate.
    injection Hbs as -> <-.
    cbn [app iterations iterate v_slot v_written v_signal v_latch]. rewrite Z.eqb_refl.
    reflexivity.
  - cbn [app iterations].
    destruct sl as [| | b]; cbn [iterate v_slot v_written v_signal v_latch in_hand] in *.
    + unfold deliver. cbn [fst snd orb].
      apply IH; [| exact Hsame]. destruct f1; exact Hbs.
    + unfold deliver. cbn [fst snd orb].
      apply IH; [| exact Hsame]. destruct f1; exact Hbs.
    + cbn [app] in Hbs. injection Hbs as -> Hsame'. rewrite Z.eqb_refl.
      unfold deliver. cbn [fst snd orb app].
      rewrite iterations_latched.
      * rewrite <- Hsame'.
        destruct f1; cbn [completions flat_map snd olist slot_of in_hand app];
          rewrite <- ?app_assoc; reflexivity.
      * rewrite <- Hsame' in Hsame. destruct f1; exact Hsame.
Qed.

Lemma at_view_entry (b : OMX_BUFFERHEADERTYPE) (statuses : list OMX_ERRORTYPE)
    (room' : Z) (script : list (list async_event)) :
  Forall (fun r => r = OMX_ErrorNone) statuses ->
  at_view room' (with_locals (at_loop_entry b statuses room' script) (mk_vars 0 0 1))
          (mk_view Fresh [] false None).
Proof.
  intros Hst. unfold at_view. cbn. repeat split; auto. lia.
Qed.

(** With nothing more delivered and nothing in hand, the loop keeps
    polling and writes nothing more. *)
Lemma capture_encode_loop_idle (R : Z) (W : list OMX_BUFFERHEADERTYPE) :
  Forall (fun w => 0 <= nFilledLen w) W ->
  total_filled W <= R ->
  forall (fuel : nat) (m : machine),
  at_view R m (mk_view Waiting W false None) ->
  deliveries m = [] ->
  exists m',
    capture_encode_loop fuel m = Spinning m' /\
    at_view R m' (mk_view Waiting W false None) /\ deliveries m' = [].
Proof.
  intros Hnn Htot. induction fuel as [|fuel IH]; intros m Hv Hd.
  - exists m. auto.
  - destruct (loop_body_view R m _ (mk_view Waiting W false None) (false, None) Hv)
      as (m1 & E1 & Hv1 & Hd1); auto.
    { rewrite Hd. reflexivity. }
    rewrite Hd in Hd1. cbn [tl] in Hd1.
    destruct (IH m1 Hv1 Hd1) as (m' & E & Hv' & Hd').
    exists m'. split; [| auto].
    cbn [capture_encode_loop]. unfold bind at 1. rewrite E1. exact E.
Qed.

Lemma completions_unsignalled (fills : list (option OMX_BUFFERHEADERTYPE)) :
  completions (map (pair false) fills) = flat_map olist fills /\
  map events_of (map (pair false) fills) = map completes fills /\
  Forall (fun s : sleep => fst s = false) (map (pair false) fills).
Proof.
  induction fills as [|f fills (IH1 & IH2 & IH3)]; [repeat split; constructor |].
  cbn [map completions flat_map snd]. fold (completions (map (pair false) fills)).
  rewrite IH1, IH2. repeat split. constructor; [reflexivity | exact IH3].
Qed.

(** C7. A normal run, from the loop entry: the encoder accepts every
    fill request, the stream takes every byte, no signal is delivered,
    and during each sleep of the script the encoder completes at most
    one buffer; [bs] are the buffers it completes, in order.  Then
    after one iteration more than the script has sleeps, and at every
    later iteration, the loop is still running and has performed
    exactly one write per completion, in the order of the completions:
    the buffers written are [bs], the stream holds their payloads, one
    chunk per write, and no completed buffer is left unwritten. *)
Theorem normal_run_writes_every_completion
    (b : OMX_BUFFERHEADERTYPE) (statuses : list OMX_ERRORTYPE) (room' : Z)
    (fills : list (option OMX_BUFFERHEADERTYPE)) (fuel : nat) :
  let bs := flat_map olist fills in
  Forall (fun r => r = OMX_ErrorNone) statuses ->
  Forall (fun w => 0 <= nFilledLen w) bs ->
  total_filled bs <= room' ->
  exists m',
    main_loop (length fills + S fuel)
      (at_loop_entry b statuses room' (map completes fills)) = Spinning m'
    /\ fd_out (ctx m') = map payload bs
    /\ written (trace m') = bs
    /\ completed (trace m') = bs
    /\ encoder_ready (ctx m') = 0.
Proof.
  cbv zeta. intros Hst Hnn Htot.
  destruct (completions_unsignalled fills) as (Ec & Ee & Hns).
  destruct (iterations_unsignalled _ Fresh [] Hns) as (sl & W & Erun & EW).
  cbn [in_hand app] in EW. rewrite Ec in EW.
  assert (HnnW : Forall (fun w => 0 <= nFilledLen w) (W ++ in_hand sl))
    by (rewrite EW; exact Hnn).
  assert (HtotW : total_filled (W ++ in_hand sl) <= room')
    by (rewrite EW; exact Htot).
  rewrite main_loop_eq.
  pose proof (at_view_entry b statuses room' (map completes fills) Hst) as Hv0.
  assert (HnnW1 : Forall (fun w => 0 <= nFilledLen w) W)
    by (apply Forall_app in HnnW; apply HnnW).
  assert (HtotW1 : total_filled W <= room').
  { rewrite total_filled_app in HtotW.
    apply Forall_app in HnnW. destruct HnnW as (_ & Hh).
    pose proof (total_filled_nonneg _ Hh). lia. }
  destruct (capture_encode_loop_view room' (map (pair false) fills) _ _ _ [] (S fuel)
              Hv0 (eq_sym (eq_trans (app_nil_r _) Ee)) Erun HnnW1 HtotW1)
    as (m1 & E1 & Hv1 & Hd1).
  rewrite length_map in E1. rewrite E1.
  destruct (loop_body_view room' m1 _ (mk_view Waiting (W ++ in_hand sl) false None)
              (false, None) Hv1)
    as (m2 & E2 & Hv2 & Hd2); auto.
  { rewrite Hd1. reflexivity. }
  { rewrite iterate_unsignalled. reflexivity. }
  rewrite Hd1 in Hd2. cbn [tl] in Hd2.
  destruct (capture_encode_loop_idle room' _ HnnW HtotW fuel m2 Hv2 Hd2)
    as (m' & E & Hv' & Hd').
  exists m'. split.
  - cbn [capture_encode_loop]. unfold bind at 1. rewrite E2. exact E.
  - unfold at_view in Hv'. cbn [v_slot v_written in_hand] in Hv'.
    destruct Hv' as (_ & (_ & Hr & _) & Hfd & Hw & Hc & _).
    rewrite EW in *. rewrite app_nil_r in Hc. auto.
Qed.

(** C1, as the code has it.  A run from the loop entry in which the
    encoder accepts every fill request and the stream takes every byte
    written.  Before the first signal the encoder completes the
    buffers [pre]; from the sleep of the first signal on it completes
    [b0], then the buffers [same], whose keyframe marker is that of
    [b0], and then [bx], whose marker differs (at most one completion
    per sleep; further signals may follow).  Then the loop returns, at
    the iteration after the sleep that completed [bx] and without
    waiting for anything the layer delivers later: it has reported the
    exit signal at [b0], written [b0] and after it every buffer of
    [same], none skipped and none twice, and left at [bx] without
    writing it.  The stream holds the payloads of [pre], [b0] and
    [same], so the last buffer written carries the marker of [b0]. *)
Theorem shutdown_writes_until_marker_change
    (b : OMX_BUFFERHEADERTYPE) (statuses : list OMX_ERRORTYPE) (room' : Z)
    (before mid : list sleep) (f0 : option OMX_BUFFERHEADERTYPE) (g : bool)
    (b0 bx : OMX_BUFFERHEADERTYPE) (same : list OMX_BUFFERHEADERTYPE)
    (rest : list (list async_event)) (fuel : nat) :
  let sleeps := before ++ (true, f0) :: mid ++ [(g, Some bx)] in
  let pre := completions before in
  Forall (fun s => fst s = false) before ->
  completions ((true, f0) :: mid) = b0 :: same ->
  Forall (fun w => syncframe w = syncframe b0) same ->
  syncframe bx <> syncframe b0 ->
  Forall (fun r => r = OMX_ErrorNone) statuses ->
  Forall (fun w => 0 <= nFilledLen w) (pre ++ b0 :: same) ->
  total_filled (pre ++ b0 :: same) <= room' ->
  exists m' post,
    main_loop (length sleeps + S fuel)
      (at_loop_entry b statuses room' (map events_of sleeps ++ rest)) = Returned tt m'
    /\ deliveries m' = rest
    /\ fd_out (ctx m') = map payload (pre ++ b0 :: same)
    /\ written (trace m') = pre ++ b0 :: same
    /\ buffer_out (ctx m') = bx
    /\ since_exit_signal (trace m') = Some post
    /\ written post = b0 :: same
    /\ completed post = same ++ [bx].
Proof.
  cbv zeta. intros Hns Hbs Hsame Hbx Hst Hnn Htot.
  destruct (iterations_unsignalled before Fresh [] Hns) as (sl & W & Erun & EW).
  cbn [in_hand app] in EW.
  assert (Erun' :
    iterations (mk_view Fresh [] false None) (before ++ (true, f0) :: mid ++ [(g, Some bx)]) =
    Some (mk_view (Ready bx) (completions before ++ b0 :: same) true
            (Some (syncframe b0, b0 :: same, same ++ [bx])))).
  { rewrite iterations_app, Erun. cbn [iterations]. rewrite iterate_unsignalled. cbn [fst snd].
    rewrite EW. apply iterations_signalled; [| exact Hsame].
    rewrite <- Hbs. destruct f0; reflexivity. }
  rewrite main_loop_eq.
  pose proof (at_view_entry b statuses room'
                (map events_of (before ++ (true, f0) :: mid ++ [(g, Some bx)]) ++ rest) Hst)
    as Hv0.
  destruct (capture_encode_loop_view room' _ _ _ _ rest (S fuel) Hv0 eq_refl Erun' Hnn Htot)
    as (m1 & E1 & Hv1 & Hd1).
  rewrite E1.
  destruct (loop_body_leaves room' m1 _ (false, None) Hv1) as (m2 & E2 & Hv2 & Hd2).
  { cbn [iterate v_slot v_latch v_signal].
    replace (syncframe b0 =? syncframe bx) with false; [reflexivity |].
    symmetry. apply Z.eqb_neq. congruence. }
  exists m2.
  unfold at_view in Hv2. cbn [v_slot v_written v_latch in_hand] in Hv2.
  destruct Hv2 as (_ & (_ & _ & _ & Hb) & Hfd & Hw & _ & _ & _ & _ & _ & _ & post & Hp & Hwq & Hcq).
  exists post. split.
  - cbn [capture_encode_loop]. unfold bind at 1. rewrite E2. reflexivity.
  - rewrite Hd2, Hd1. auto 10.
Qed.

End DrainLoopProgress.


(** *** Scenarios *)

Example mid_gop_run_sink :
  is_Returned mid_gop_run = true /\
  App.fd_out (App.ctx (final_world mid_gop_run)) =
    [[Byte.x41; Byte.x41]; [Byte.x42]; [Byte.x43]; [Byte.x44]] /\
  App.buffer_out (App.ctx (final_world mid_gop_run)) = keyframe_buffer Byte.x45.
Proof. repeat split; reflexivity. Qed.

(** C1 does not hold as worded: in the mid-GOP run the buffers written
    after the signal are the delta frames C and D; the last one written
    has no keyframe marker, and the loop did not leave without
    writing. *)
Lemma shutdown_claim_fails_mid_gop :
  ~ (forall fuel b statuses room' script m',
       App.main_loop fuel (App.at_loop_entry b statuses room' script) = Returned tt m' ->
       ends_on_keyframe_as_claimed m').
Proof.
  intros H.
  specialize (H 20%nat empty_buffer [] 1000 mid_gop_script (final_world mid_gop_run)).
  destruct H as (post & Hpost & Hlast); [vm_compute; reflexivity |].
  vm_compute in Hpost. injection Hpost as <-.
  vm_compute in Hlast. discriminate Hlast.
Qed.

Lemma shutdown_writes_until_marker_change_witness :
  exists m' post,
    mid_gop_run = Returned tt m'
    /\ App.deliveries m' = [[App.Ev_FillBufferDone (keyframe_buffer Byte.x46)]]
    /\ App.fd_out (App.ctx m') =
       map App.payload [keyframe_buffer Byte.x41; delta_buffer Byte.x42;
                        delta_buffer Byte.x43; delta_buffer Byte.x44]
    /\ App.written (App.trace m') =
       [keyframe_buffer Byte.x41; delta_buffer Byte.x42;
        delta_buffer Byte.x43; delta_buffer Byte.x44]
    /\ App.buffer_out (App.ctx m') = keyframe_buffer Byte.x45
    /\ App.since_exit_signal (App.trace m') = Some post
    /\ App.written post = [delta_buffer Byte.x43; delta_buffer Byte.x44]
    /\ App.completed post = [delta_buffer Byte.x44; keyframe_buffer Byte.x45].
Proof.
  apply (shutdown_writes_until_marker_change empty_buffer [] 1000
           [(false, Some (keyframe_buffer Byte.x41)); (false, Some (delta_buffer Byte.x42))]
           [(false, Some (delta_buffer Byte.x44))]
           (Some (delta_buffer Byte.x43)) false
           (delta_buffer Byte.x43) (keyframe_buffer Byte.x45) [delta_buffer Byte.x44]
           [[App.Ev_FillBufferDone (keyframe_buffer Byte.x46)]] 14).
  - repeat constructor.
  - reflexivity.
  - repeat constructor.
  - vm_compute. discriminate.
  - constructor.
  - repeat constructor; vm_compute; discriminate.
  - vm_compute. discriminate.
Defined.

Lemma normal_run_writes_every_completion_witness :
  exists m',
    normal_run = Spinning m'
    /\ App.fd_out (App.ctx m') =
       map App.payload [keyframe_buffer Byte.x41; delta_buffer Byte.x42; delta_buffer Byte.x43]
    /\ App.written (App.trace m') =
       [keyframe_buffer Byte.x41; delta_buffer Byte.x42; delta_buffer Byte.x43]
    /\ App.completed (App.trace m') =
       [keyframe_buffer Byte.x41; delta_buffer Byte.x42; delta_buffer Byte.x43]
    /\ App.encoder_ready (App.ctx m') = 0.
Proof.
  apply (normal_run_writes_every_completion empty_buffer [] 1000
           [Some (keyframe_buffer Byte.x41); Some (delta_buffer Byte.x42); None;
            Some (delta_buffer Byte.x43); None] 0).
  - constructor.
  - repeat constructor; vm_compute; discriminate.
  - vm_compute. discriminate.
Defined.

Example normal_run_sink :
  App.fd_out (App.ctx (final_world normal_run)) =
    [[Byte.x41; Byte.x41]; [Byte.x42]; [Byte.x43]] /\
  map App.nFlags (App.completed (App.trace (final_world normal_run))) = [0x20; 0x10; 0x10].
Proof. split; reflexivity. Qed.

(** ** Callback registration and the bytes of the context *)

Section RegistrationFacts.
Import Layout.

Lemma memset_prefix (obj : object) (n : nat) :
  (n <= List.length obj)%nat -> memset obj 0 n = repeat (Byte 0) n ++ skipn n obj.
Proof.
  intros Hn. unfold memset. rewrite Nat.min_l by exact Hn. reflexivity.
Qed.

(** C10. The registration step, which [main] has inline and
    [callback_init] has as its body, applied to any contents of the two
    objects: its [memset] is a write to the context, of
    [sizeof(callbacks)] bytes from its first byte, so that the context
    loses what these bytes held; the callback table is not zeroed: the
    only writes to it are the stores to [EventHandler] and
    [FillBufferDone], and the bytes of [EmptyBufferDone] stay as the
    storage had them.  In [main] the context was set up before
    (zeroed, semaphore created); the zeroed prefix is exactly
    [ctx.camera] and ends before [handler_lock], whose bytes stay those
    of the created semaphore, and [EmptyBufferDone] is indeterminate.
    In [callback_init] of the rearranged sources, run after
    [common_context_init], the prefix covers [flushed] and reaches into
    [handler_lock]: the state of the created semaphore is overwritten
    with zero bytes. *)
Theorem registration_zeroes_context_not_callbacks (a : abi) (s : memory) :
  let cb := OMX_CALLBACKTYPE a in
  let n := struct_size cb in
  In a [ILP32; LP64] ->
  (n <= List.length (m_ctx s))%nat ->
  List.length (m_callbacks s) = n ->
  let s' := main_register_callbacks a s in
  callback_init a s = s'
  /\ m_writes s' =
     m_writes s ++
     [mk_write Obj_ctx 0 n;
      mk_write Obj_callbacks (field_offset cb "EventHandler") (ptr_size a);
      mk_write Obj_callbacks (field_offset cb "FillBufferDone") (ptr_size a)]
  /\ m_ctx s' = repeat (Byte 0) n ++ skipn n (m_ctx s)
  /\ field_bytes cb "EventHandler" (m_callbacks s') = handler_address a "event_handler"
  /\ field_bytes cb "FillBufferDone" (m_callbacks s') =
     handler_address a "fill_output_buffer_done_handler"
  /\ field_bytes cb "EmptyBufferDone" (m_callbacks s') =
     field_bytes cb "EmptyBufferDone" (m_callbacks s)
  /\ (field_bytes (appctx a) "handler_lock" (ctx_initialised (main_init a)) =
        created_semaphore a
      /\ init_writes (main_init a) =
         [mk_write Obj_ctx 0 (struct_size (appctx a));
          mk_write Obj_ctx (field_offset (appctx a) "handler_lock") (sem_size a);
          mk_write Obj_ctx 0 n;
          mk_write Obj_callbacks (field_offset cb "EventHandler") (ptr_size a);
          mk_write Obj_callbacks (field_offset cb "FillBufferDone") (ptr_size a)]
      /\ field_offset (appctx a) "camera" = 0%nat
      /\ field_size (appctx a) "camera" = n
      /\ (n <= field_offset (appctx a) "handler_lock")%nat
      /\ field_bytes (appctx a) "handler_lock" (ctx_registered (main_init a)) =
         created_semaphore a
      /\ field_bytes cb "EmptyBufferDone" (callbacks_registered (main_init a)) =
         repeat Undef (ptr_size a))
  /\ (field_bytes (common_context_t a) "handler_lock"
        (ctx_initialised (rearranged_init a)) = created_semaphore a
      /\ init_writes (rearranged_init a) =
         [mk_write Obj_ctx 0 (struct_size (common_context_t a));
          mk_write Obj_ctx (field_offset (common_context_t a) "handler_lock") (sem_size a);
          mk_write Obj_ctx 0 n;
          mk_write Obj_callbacks (field_offset cb "EventHandler") (ptr_size a);
          mk_write Obj_callbacks (field_offset cb "FillBufferDone") (ptr_size a)]
      /\ (field_offset (common_context_t a) "handler_lock" < n)%nat
      /\ field_bytes (common_context_t a) "flushed" (ctx_registered (rearranged_init a)) =
         repeat (Byte 0) 4
      /\ firstn (n - field_offset (common_context_t a) "handler_lock")
           (field_bytes (common_context_t a) "handler_lock"
              (ctx_registered (rearranged_init a))) =
         repeat (Byte 0) (n - field_offset (common_context_t a) "handler_lock")
      /\ field_bytes (common_context_t a) "handler_lock"
           (ctx_registered (rearranged_init a)) <> created_semaphore a
      /\ field_bytes cb "EmptyBufferDone" (callbacks_registered (rearranged_init a)) =
         repeat (Byte 0) (ptr_size a)).
Proof.
  cbv zeta. destruct s as [c t w].
  cbn [m_ctx m_callbacks m_writes].
  intros Ha Hc Ht.
  split; [reflexivity |].
  split; [unfold main_register_callbacks, assign_callbacks, store_object, memset_object,
                 write_object; cbn [m_writes object_at m_ctx m_callbacks];
          rewrite <- !app_assoc; reflexivity |].
  split; [unfold main_register_callbacks, assign_callbacks, store_object, memset_object,
                 write_object; cbn [m_writes object_at m_ctx m_callbacks];
          apply memset_prefix; exact Hc |].
  unfold main_register_callbacks, assign_callbacks, store_object, memset_object,
    write_object; cbn [m_writes object_at m_ctx m_callbacks].
  destruct Ha as [<- | [<- | []]].
  - change (struct_size (OMX_CALLBACKTYPE ILP32)) with 12%nat in *.
    do 12 (destruct t as [|? t]; [discriminate Ht |]).
    destruct t as [|? t]; [| discriminate Ht].
    repeat split; try reflexivity; try (cbn; lia); vm_compute; discriminate.
  - change (struct_size (OMX_CALLBACKTYPE LP64)) with 24%nat in *.
    do 24 (destruct t as [|? t]; [discriminate Ht |]).
    destruct t as [|? t]; [| discriminate Ht].
    repeat split; try reflexivity; try (cbn; lia); vm_compute; discriminate.
Qed.

End RegistrationFacts.

(** The step on a context whose every byte holds something, under the
    32-bit layout, and on the initialised context of the rearranged
    sources under the 64-bit layout. *)
Lemma registration_zeroes_context_not_callbacks_witness :
  Layout.m_ctx
    (Layout.main_register_callbacks Layout.ILP32
       (Layout.mk_memory (map (Layout.Fragment "context") (seq 0 52))
                         (Layout.automatic 12) [])) =
    repeat (Layout.Byte 0) 12 ++ map (Layout.Fragment "context") (seq 12 40)
  /\ Layout.m_writes
       (Layout.callback_init Layout.LP64
          (Layout.common_context_init Layout.LP64 (Layout.rearranged_start Layout.LP64))) =
     [Layout.mk_write Layout.Obj_ctx 0 40; Layout.mk_write Layout.Obj_ctx 8 32;
      Layout.mk_write Layout.Obj_ctx 0 24;
      Layout.mk_write Layout.Obj_callbacks 0 8; Layout.mk_write Layout.Obj_callbacks 16 8].
Proof.
  split.
  - destruct (registration_zeroes_context_not_callbacks Layout.ILP32
                (Layout.mk_memory (map (Layout.Fragment "context") (seq 0 52))
                                  (Layout.automatic 12) []))
      as (_ & _ & Hctx & _).
    + left. reflexivity.
    + vm_compute. lia.
    + reflexivity.
    + rewrite Hctx. reflexivity.
  - destruct (registration_zeroes_context_not_callbacks Layout.LP64
                (Layout.common_context_init Layout.LP64
                   (Layout.rearranged_start Layout.LP64)))
      as (Hsame & Hlog & _).
    + right. left. reflexivity.
    + vm_compute. lia.
    + reflexivity.
    + rewrite Hsame, Hlog. reflexivity.
Defined.

(** * Further properties *)

(** ** Specifications compose *)

Section TripleRules.
Context {St : Type}.

Lemma triple_bind {A B} (P : St -> Prop) (p : prog St A) (R : A -> St -> Prop)
    (k : A -> prog St B) (Q : B -> St -> Prop) (D : fatal -> St -> Prop) :
  triple P p R D -> (forall a, triple (R a) (k a) Q D) -> triple P (bind p k) Q D.
Proof.
  intros Hp Hk s Hs. unfold bind. specialize (Hp s Hs).
  destruct (p s) as [a s1 | d s1 | s1]; [apply (Hk a s1 Hp) | exact Hp | exact I].
Qed.

Lemma triple_ret {A} (P : St -> Prop) (a : A) (Q : A -> St -> Prop)
    (D : fatal -> St -> Prop) :
  (forall s, P s -> Q a s) -> triple P (ret a) Q D.
Proof. intros H s Hs. apply H, Hs. Qed.

Lemma triple_if {A} (c : bool) (P : St -> Prop) (p q : prog St A)
    (Q : A -> St -> Prop) (D : fatal -> St -> Prop) :
  triple P p Q D -> triple P q Q D -> triple P (if c then p else q) Q D.
Proof. destruct c; auto. Qed.

Lemma triple_when (c : bool) (P : St -> Prop) (p : prog St unit)
    (Q : unit -> St -> Prop) (D : fatal -> St -> Prop) :
  (c = true -> triple P p Q D) -> (forall s, P s -> Q tt s) ->
  triple P (when c p) Q D.
Proof.
  intros Hp Hq. destruct c; cbn [when]; [apply Hp; reflexivity | apply triple_ret, Hq].
Qed.

End TripleRules.

(** ** The capture and encode loop: what a run leaves behind *)

Section DrainLoopOutcomes.
Import App Drain.

Ltac run_handler :=
  cbv beta iota zeta delta
    [bind ret when negb event_handler fill_output_buffer_done_handler dump_event say
     encoder_fills signal_handler vcos_semaphore_wait vcos_semaphore_post
     store load omx_die die log_access log_obs with_ctx with_locals
     set_flag set_handler_lock set_buffer_out set_fd_out flag_value
     get_locals put_locals get_want_quit get_buffer_out fwrite OMX_FillThisBuffer
     set_need final_world fst snd pending
     ctx handler_lock camera_ready encoder_ready flushed
     buffer_out fd_out deliveries want_quit locals outstanding
     accesses trace fill_statuses room quit_detected quit_in_keyframe
     need_next_buffer_to_be_filled] in *.

(** X1. When the loop is left through [break], the stream holds, one
    chunk per buffer and in the order of completion, the payload of
    every buffer the encoder completed except the last; the last one is
    the buffer in hand, and it has not been written. *)
Theorem shutdown_drops_last_buffer
    (fuel : nat) (b : OMX_BUFFERHEADERTYPE) (statuses : list OMX_ERRORTYPE)
    (room' : Z) (script : list (list async_event)) (m' : machine) :
  main_loop fuel (at_loop_entry b statuses room' script) = Returned tt m' ->
  completed (trace m') = written (trace m') ++ [buffer_out (ctx m')]
  /\ fd_out (ctx m') = map payload (written (trace m'))
  /\ map payload (completed (trace m')) =
     fd_out (ctx m') ++ [payload (buffer_out (ctx m'))]
  /\ length (fd_out (ctx m')) = pred (length (completed (trace m'))).
Proof.
  intros Hrun. rewrite main_loop_eq in Hrun.
  pose proof (capture_encode_loop_inv fuel _
                (loop_invariant_at_entry b statuses room' script)) as H.
  rewrite Hrun in H. destruct H as (_ & Hsink & Hord & _).
  split; [symmetry; exact Hord |]. split; [exact Hsink |]. split.
  - rewrite <- Hord, map_app, Hsink. reflexivity.
  - rewrite <- Hord, Hsink, length_map, length_app. cbn. lia.
Qed.

(** *** A stream whose buffers all carry the same marker *)

Lemma since_exit_signal_suffix (t post : list obs) :
  since_exit_signal t = Some post -> exists pre, t = pre ++ post.
Proof.
  induction t as [|o t IH]; [discriminate |].
  destruct o as [msg | | |]; cbn [since_exit_signal]; intros Hs.
  1: destruct (String.eqb msg exit_signal_message);
       [injection Hs as <-; exists [Tr_say msg]; reflexivity |].
  all: destruct (IH Hs) as (pre & ->); eexists (_ :: pre); reflexivity.
Qed.

Lemma exit_state_two_markers (m : machine) :
  exit_state m ->
  exists b0,
    In b0 (completed (trace m)) /\ In (buffer_out (ctx m)) (completed (trace m)) /\
    syncframe (buffer_out (ctx m)) <> syncframe b0.
Proof.
  intros (_ & _ & Hord & post & b0 & rest & Hs & Hw & _ & Hne & _).
  exists b0. rewrite <- Hord.
  destruct (since_exit_signal_suffix _ _ Hs) as (pre & Et).
  split; [| split; [apply in_or_app; right; left; reflexivity | exact Hne]].
  apply in_or_app. left. rewrite Et, written_app, Hw.
  apply in_or_app. right. left. reflexivity.
Qed.

Lemma keeps_quiet {A} (k : Z) (p : prog machine A) :
  (forall m, deliveries (final_world (p m)) = deliveries m /\
             completed (trace (final_world (p m))) = completed (trace m)) ->
  keeps (uniform k) p.
Proof.
  intros H m [Hc Hd]. specialize (H m).
  destruct (p m) as [a m1 | d m1 | m1]; cbn [final_world] in H; [| exact I ..].
  destruct H as [Ed Ec]. split; [rewrite Ec | rewrite Ed]; assumption.
Qed.

Ltac quiet :=
  apply keeps_quiet; intros ?; run_handler;
  repeat match goal with |- context [if ?c then _ else _] => destruct c end;
  cbn [deliveries trace]; rewrite ?completed_app; cbn [completed];
  rewrite ?app_nil_r; split; reflexivity.

Lemma keeps_uniform_handle_async (k : Z) (e : async_event) :
  fills_with k e -> keeps (uniform k) (handle_async e).
Proof.
  intros He. destruct e as [[[] p | n [|i] | r | ev] | b |]; cbn [handle_async].
  1-9: unfold event_handler, dump_event;
       repeat (apply triple_bind with (R := fun _ => uniform k); [| intros _]);
       first [quiet | intros ? ?; exact I].
  - intros m [Hc Hd]. destruct (outstanding m); [split; assumption |].
    run_handler.
    repeat match goal with |- context [if ?c then _ else _] => destruct c end;
      try exact I.
    split; run_handler; [| exact Hd].
    rewrite !completed_app. cbn [completed]. rewrite ?app_nil_r.
    apply Forall_app. split; [exact Hc | constructor; [exact He | constructor]].
  - quiet.
Qed.

Lemma keeps_uniform_handle_all (k : Z) (es : list async_event) :
  Forall (fills_with k) es -> keeps (uniform k) (handle_all es).
Proof.
  induction 1 as [|e es He _ IH]; cbn [handle_all].
  - apply triple_ret. auto.
  - apply triple_bind with (R := fun _ => uniform k);
      [apply keeps_uniform_handle_async, He | intros _; exact IH].
Qed.

Lemma keeps_uniform_usleep (k : Z) (usec : Z) : keeps (uniform k) (usleep usec).
Proof.
  intros m [Hc Hd]. unfold usleep.
  apply keeps_uniform_handle_all.
  - destruct Hd; [constructor | assumption].
  - split; [exact Hc |]. cbn [deliveries]. destruct Hd; [constructor | assumption].
Qed.

Lemma keeps_uniform_loop_body (k : Z) : keeps (uniform k) loop_body.
Proof.
  unfold loop_body, flush_ready_buffer, request_next_fill.
  repeat first
    [ apply keeps_uniform_usleep
    | apply triple_bind with (R := fun _ => uniform k); [| intros ?]
    | apply triple_if
    | apply triple_when; [intros _ | auto]
    | apply triple_ret; solve [auto]
    | match goal with |- triple _ (match ?fl with Continue => _ | Break => _ end) _ _ =>
        destruct fl end
    | quiet
    | intros ? ?; exact I ].
Qed.

Lemma keeps_uniform_capture_encode_loop (k : Z) (fuel : nat) :
  keeps (uniform k) (capture_encode_loop fuel).
Proof.
  induction fuel as [|fuel IH]; cbn [capture_encode_loop]; [intros ? ?; exact I |].
  apply triple_bind with (R := fun _ => uniform k); [apply keeps_uniform_loop_body |].
  intros []; [exact IH | apply triple_ret; auto].
Qed.

(** X2. The loop leaves only at a completed buffer whose keyframe marker
    differs from the marker latched when the signal was reported.  So
    on a stream whose buffers all carry the same marker (every frame a
    keyframe, or none marked) the loop is never left, whatever signals
    arrive. *)
Theorem uniform_stream_never_leaves
    (fuel : nat) (b : OMX_BUFFERHEADERTYPE) (statuses : list OMX_ERRORTYPE)
    (room' : Z) (script : list (list async_event)) (k : Z) :
  Forall (Forall (fills_with k)) script ->
  is_Returned (main_loop fuel (at_loop_entry b statuses room' script)) = false.
Proof.
  intros Hscript. rewrite main_loop_eq.
  pose proof (capture_encode_loop_inv fuel _
                (loop_invariant_at_entry b statuses room' script)) as Hexit.
  pose proof (keeps_uniform_capture_encode_loop k fuel
                (with_locals (at_loop_entry b statuses room' script) (mk_vars 0 0 1))) as Hu.
  destruct (capture_encode_loop fuel _) as [[] m' | d m' | m']; try reflexivity.
  exfalso.
  destruct Hu as [Hc _]; [split; [constructor | exact Hscript] |].
  destruct (exit_state_two_markers m' Hexit) as (b0 & Hin0 & Hin & Hne).
  rewrite Forall_forall in Hc.
  apply Hne. rewrite (Hc _ Hin0), (Hc _ Hin). reflexivity.
Qed.

(** *** How the loop ends the process *)









End DrainLoopOutcomes.

(** ** The waits on the shared flags, continued *)

Section EventSyncOutcomes.
Import App Sync.

Ltac run_handler :=
  cbv beta iota zeta delta
    [bind ret when negb event_handler fill_output_buffer_done_handler dump_event say
     encoder_fills signal_handler vcos_semaphore_wait vcos_semaphore_post
     store load omx_die die log_access log_obs with_ctx with_locals
     set_flag set_handler_lock set_buffer_out set_fd_out flag_value
     get_locals put_locals get_want_quit get_buffer_out fwrite OMX_FillThisBuffer
     set_need final_world fst snd
     ctx handler_lock camera_ready encoder_ready flushed
     buffer_out fd_out deliveries want_quit locals outstanding
     accesses trace fill_statuses room quit_detected quit_in_keyframe
     need_next_buffer_to_be_filled] in *.

(** An event other than an error event, handled with the critical
    section free: the callback returns, the lock is free again, and the
    camera-ready flag is up if the event raises it. *)
Lemma handle_async_harmless (e : async_event) (m : machine) :
  is_error_event e = false ->
  0 < handler_lock (ctx m) ->
  exists m',
    handle_async e m = Returned tt m' /\
    handler_lock (ctx m') = handler_lock (ctx m) /\
    deliveries m' = deliveries m /\
    camera_ready (ctx m') = if raises_camera_ready e then 1 else camera_ready (ctx m).
Proof.
  intros He Hl. apply Z.ltb_lt in Hl.
  destruct e as [[[] p | n [|i] | r | k] | b |]; try discriminate He;
    unfold handle_async; try destruct (outstanding m);
    run_handler; rewrite ?Hl; run_handler;
    eexists; (split; [reflexivity |]); cbn [raises_camera_ready];
    repeat split; try reflexivity; lia.
Qed.

Lemma handle_all_harmless (es : list async_event) :
  forall m,
  existsb is_error_event es = false ->
  0 < handler_lock (ctx m) ->
  exists m',
    handle_all es m = Returned tt m' /\
    handler_lock (ctx m') = handler_lock (ctx m) /\
    deliveries m' = deliveries m /\
    camera_ready (ctx m') =
      if existsb raises_camera_ready es then 1 else camera_ready (ctx m).
Proof.
  induction es as [|e es IH]; intros m He Hl.
  - exists m. repeat split; reflexivity.
  - cbn [existsb] in He. apply orb_false_iff in He. destruct He as [He Hes].
    destruct (handle_async_harmless e m He Hl) as (m1 & E1 & Hl1 & Hd1 & Hr1).
    destruct (IH m1 Hes) as (m2 & E2 & Hl2 & Hd2 & Hr2); [rewrite Hl1; exact Hl |].
    exists m2. cbn [handle_all]. unfold bind. rewrite E1.
    split; [exact E2 |]. split; [congruence |]. split; [congruence |].
    rewrite Hr2, Hr1. cbn [existsb].
    destruct (raises_camera_ready e), (existsb raises_camera_ready es); reflexivity.
Qed.

Lemma usleep_harmless (usec : Z) (m : machine) :
  existsb is_error_event (hd [] (deliveries m)) = false ->
  0 < handler_lock (ctx m) ->
  exists m',
    usleep usec m = Returned tt m' /\
    handler_lock (ctx m') = handler_lock (ctx m) /\
    deliveries m' = tl (deliveries m) /\
    camera_ready (ctx m') =
      if existsb raises_camera_ready (hd [] (deliveries m)) then 1
      else camera_ready (ctx m).
Proof.
  intros He Hl. unfold usleep.
  match goal with |- context [handle_all ?es ?m0] =>
    destruct (handle_all_harmless es m0 He Hl) as (m' & E & Hl' & Hd' & Hr') end.
  exists m'. auto.
Qed.

Lemma quiet_events (es : list async_event) :
  forallb leaves_camera_unready es = true ->
  existsb is_error_event es = false /\ existsb raises_camera_ready es = false.
Proof.
  induction es as [|e es IH]; [auto |].
  cbn [forallb existsb]. intros H. apply andb_true_iff in H. destruct H as [He Hes].
  destruct (IH Hes) as [-> ->].
  destruct e as [[[] p | n [|i] | r | k] | b |]; try discriminate He; auto.
Qed.

(** One turn of the loop of [camera_block_until_camera_ready] with the
    flag down: the load, the sleep, the test of the counter. *)
Lemma camera_ready_loop_turn (fuel : nat) (n : Z) (m : machine) :
  camera_ready (ctx m) = 0 ->
  existsb is_error_event (hd [] (deliveries m)) = false ->
  0 < handler_lock (ctx m) ->
  exists m1,
    handler_lock (ctx m1) = handler_lock (ctx m) /\
    deliveries m1 = tl (deliveries m) /\
    camera_ready (ctx m1) =
      (if existsb raises_camera_ready (hd [] (deliveries m)) then 1 else 0) /\
    camera_ready_loop (S fuel) n m =
      if 100 <? n then Died (Fatal 1 None "Failed to configuring camera") m1
      else camera_ready_loop fuel (int32 (n + 1)) m1.
Proof.
  intros Hr He Hl.
  destruct (usleep_harmless 10000 (log_access Control (Load Flag_camera_ready) m) He Hl)
    as (m1 & E & Hl1 & Hd1 & Hr1).
  exists m1. split; [exact Hl1 |]. split; [exact Hd1 |].
  split; [rewrite Hr1; cbn [log_access ctx deliveries]; rewrite Hr; reflexivity |].
  cbn [camera_ready_loop]. unfold bind at 1, load at 1.
  cbn [flag_value]. rewrite Hr. cbn [Z.eqb].
  unfold bind at 1. rewrite E. unfold bind at 1.
  destruct (100 <? n); reflexivity.
Qed.

Lemma int32_small (n : Z) : 0 <= n <= 1000 -> int32 n = n.
Proof.
  intros Hn. unfold int32.
  replace ((n + 2 ^ 31) mod 2 ^ 32) with (n + 2 ^ 31) by (symmetry; apply Z.mod_small; lia).
  lia.
Qed.

(** Sleeps during which nothing happens to the flag leave the loop
    where it was, the counter advanced by their number. *)
Lemma camera_ready_loop_quiet (quiet : list (list async_event)) :
  forall fuel n m tail,
  camera_ready (ctx m) = 0 ->
  0 < handler_lock (ctx m) ->
  Forall (fun es => forallb leaves_camera_unready es = true) quiet ->
  deliveries m = quiet ++ tail ->
  0 <= n -> n + Z.of_nat (length quiet) <= 101 ->
  exists m1,
    camera_ready (ctx m1) = 0 /\
    handler_lock (ctx m1) = handler_lock (ctx m) /\
    deliveries m1 = tail /\
    camera_ready_loop (length quiet + fuel) n m =
    camera_ready_loop fuel (n + Z.of_nat (length quiet)) m1.
Proof.
  induction quiet as [|es quiet IH]; intros fuel n m tail Hr Hl Hq Hd Hn Hlen.
  - exists m. cbn [length Nat.add Z.of_nat]. rewrite Z.add_0_r. auto.
  - inversion Hq as [|? ? Hes Hq']; subst.
    destruct (quiet_events es Hes) as [Herr Hraise].
    cbn [length] in Hlen |- *.
    destruct (camera_ready_loop_turn (length quiet + fuel) n m Hr) as (m1 & Hl1 & Hd1 & Hr1 & E).
    { rewrite Hd. exact Herr. }
    { exact Hl. }
    rewrite Hd in Hr1, Hd1. cbn [hd tl app] in Hr1, Hd1. rewrite Hraise in Hr1.
    destruct (IH fuel (n + 1) m1 tail Hr1) as (m2 & Hr2 & Hl2 & Hd2 & E2);
      [rewrite Hl1; exact Hl | exact Hq' | exact Hd1 | lia | lia |].
    exists m2. split; [exact Hr2 |]. split; [congruence |]. split; [exact Hd2 |].
    cbn [Nat.add]. rewrite E.
    replace (100 <? n) with false by (symmetry; apply Z.ltb_ge; lia).
    rewrite int32_small by lia. rewrite E2. f_equal. lia.
Qed.

(** X4. The budget of [camera_block_until_camera_ready], exactly.  With
    the flag down and the critical section free, and no error event
    interfering: if the event that raises the flag is handled during
    one of the first 101 sleeps, the call returns right after that
    sleep; if nothing raises the flag during the first 101 sleeps, the
    call ends the process after the 102nd, also when the flag is
    raised during that very sleep. *)
Theorem camera_block_until_camera_ready_budget
    (m : machine) (quiet : list (list async_event)) (es : list async_event)
    (rest : list (list async_event)) (fuel : nat) :
  camera_ready (ctx m) = 0 ->
  0 < handler_lock (ctx m) ->
  deliveries m = quiet ++ es :: rest ->
  Forall (fun es => forallb leaves_camera_unready es = true) quiet ->
  existsb is_error_event es = false ->
  ((length quiet <= 100)%nat -> existsb raises_camera_ready es = true ->
   exists m',
     camera_block_until_camera_ready (length quiet + S (S fuel)) m = Returned tt m' /\
     deliveries m' = rest /\ camera_ready (ctx m') = 1)
  /\
  (length quiet = 101%nat ->
   exists m',
     camera_block_until_camera_ready (length quiet + S fuel) m =
       Died (Fatal 1 None "Failed to configuring camera") m' /\
     deliveries m' = rest /\
     camera_ready (ctx m') = if existsb raises_camera_ready es then 1 else 0).
Proof.
  intros Hr Hl Hd Hq Herr. unfold camera_block_until_camera_ready. split.
  - intros Hlen Hraise.
    destruct (camera_ready_loop_quiet quiet (S (S fuel)) 0 m (es :: rest) Hr Hl Hq Hd)
      as (m1 & Hr1 & Hl1 & Hd1 & E); [lia | lia |].
    rewrite E.
    destruct (camera_ready_loop_turn (S fuel) (0 + Z.of_nat (length quiet)) m1 Hr1)
      as (m2 & Hl2 & Hd2 & Hr2 & E2).
    { rewrite Hd1. exact Herr. }
    { rewrite Hl1. exact Hl. }
    rewrite E2, Hd1 in *. cbn [hd tl] in *. rewrite Hraise in Hr2.
    replace (100 <? 0 + Z.of_nat (length quiet)) with false
      by (symmetry; apply Z.ltb_ge; lia).
    cbn [camera_ready_loop]. unfold bind at 1, load at 1.
    cbn [flag_value]. rewrite Hr2. cbn [Z.eqb ret].
    eexists. split; [reflexivity |]. cbn [log_access deliveries ctx]. auto.
  - intros Hlen.
    destruct (camera_ready_loop_quiet quiet (S fuel) 0 m (es :: rest) Hr Hl Hq Hd)
      as (m1 & Hr1 & Hl1 & Hd1 & E); [lia | lia |].
    rewrite E.
    destruct (camera_ready_loop_turn fuel (0 + Z.of_nat (length quiet)) m1 Hr1)
      as (m2 & Hl2 & Hd2 & Hr2 & E2).
    { rewrite Hd1. exact Herr. }
    { rewrite Hl1. exact Hl. }
    rewrite E2, Hd1 in *. cbn [hd tl] in *.
    replace (100 <? 0 + Z.of_nat (length quiet)) with true
      by (symmetry; apply Z.ltb_lt; lia).
    exists m2. auto.
Qed.

(** *** [block_until_flushed] and the completion of a flush *)

Lemma handle_async_unflushed (e : async_event) (m : machine) :
  leaves_unflushed e = true ->
  flushed (ctx m) = 0 ->
  match handle_async e m with
  | Returned _ m' => flushed (ctx m') = 0 /\ deliveries m' = deliveries m
  | _ => True
  end.
Proof.
  intros He Hf.
  destruct e as [[[] p | n [|i] | r | k] | b |]; try discriminate He;
    unfold handle_async; try destruct (outstanding m);
    run_handler;
    repeat match goal with |- context [if ?c then _ else _] => destruct c end;
    run_handler; auto.
Qed.

Lemma handle_all_unflushed (es : list async_event) :
  forall m,
  forallb leaves_unflushed es = true ->
  flushed (ctx m) = 0 ->
  match handle_all es m with
  | Returned _ m' => flushed (ctx m') = 0 /\ deliveries m' = deliveries m
  | _ => True
  end.
Proof.
  induction es as [|e es IH]; intros m He Hf; [cbn; auto |].
  cbn [forallb] in He. apply andb_true_iff in He. destruct He as [He Hes].
  cbn [handle_all]. unfold bind at 1.
  pose proof (handle_async_unflushed e m He Hf) as H1.
  destruct (handle_async e m) as [[] m1 | |]; auto.
  destruct H1 as [Hf1 Hd1]. specialize (IH m1 Hes Hf1).
  destruct (handle_all es m1); auto. rewrite <- Hd1. exact IH.
Qed.

Lemma usleep_unflushed (usec : Z) (m : machine) :
  flush_never_completes m ->
  match usleep usec m with
  | Returned _ m' => flush_never_completes m'
  | _ => True
  end.
Proof.
  intros [Hf Hd]. unfold usleep.
  match goal with |- match handle_all ?es ?m0 with _ => _ end =>
    pose proof (handle_all_unflushed es m0) as Hh end.
  cbn [ctx deliveries] in Hh.
  assert (Hes : forallb leaves_unflushed (hd [] (deliveries m)) = true).
  { destruct Hd; [reflexivity | assumption]. }
  specialize (Hh Hes Hf).
  match goal with |- match ?o with _ => _ end => destruct o as [[] m1 | |] end; auto.
  destruct Hh as [Hf1 Hd1]. split; [exact Hf1 |]. rewrite Hd1.
  destruct Hd; [constructor | assumption].
Qed.

(** X5. Started with [quit] at zero and the flag down,
    [block_until_flushed] does not return unless an
    [OMX_EventCmdComplete] for [OMX_CommandFlush] arrives: on a run
    without one it is still polling, or the process has ended, however
    many iterations it is given. *)
Theorem block_until_flushed_needs_completion (fuel : nat) (m : machine) :
  flush_never_completes m ->
  is_Returned (block_until_flushed fuel 0 m) = false.
Proof.
  unfold block_until_flushed.
  revert m. induction fuel as [|fuel IH]; intros m Hm; [reflexivity |].
  cbn [flushed_loop Z.eqb].
  unfold bind at 1, vcos_semaphore_wait at 1.
  destruct (0 <? handler_lock (ctx m)); [| reflexivity].
  unfold bind at 1, load at 1.
  cbn [flag_value ctx log_access with_ctx flushed set_handler_lock].
  destruct Hm as [Hf Hd]. rewrite Hf. cbn [Z.eqb negb].
  unfold bind at 1, ret at 1. unfold bind at 1, vcos_semaphore_post at 1.
  cbn [Z.eqb when]. unfold bind at 1.
  match goal with |- context [usleep 10000 ?m0] =>
    pose proof (usleep_unflushed 10000 m0) as Hu;
    destruct (usleep 10000 m0) as [[] m1 | |] end; try reflexivity.
  apply IH, Hu. split; assumption.
Qed.

(** *** The critical section, where it is taken *)

Lemma disciplined_app (X Y : list (thread * access)) :
  forall h,
  disciplined h (X ++ Y) = disciplined h X && disciplined (holder_after h X) Y.
Proof.
  induction X as [|[t a] X IH]; intros h; [reflexivity |].
  destruct a, h as [t'|]; cbn [app disciplined holder_after];
    rewrite ?IH, ?andb_assoc; reflexivity.
Qed.

Lemma holder_after_app (X Y : list (thread * access)) :
  forall h, holder_after h (X ++ Y) = holder_after (holder_after h X) Y.
Proof.
  induction X as [|[t a] X IH]; intros h; [reflexivity |].
  destruct a; cbn [app holder_after]; apply IH.
Qed.

Lemma critical_sections_app (X Y : list (thread * access)) :
  critical_sections X -> critical_sections Y -> critical_sections (X ++ Y).
Proof.
  intros [HX EX] [HY EY]. split.
  - rewrite disciplined_app, HX, EX, HY. reflexivity.
  - rewrite holder_after_app, EX, EY. reflexivity.
Qed.

Lemma in_sections_bind {A B} (p : prog machine A) (k : A -> prog machine B) :
  in_sections p -> (forall a, in_sections (k a)) -> in_sections (bind p k).
Proof.
  intros Hp Hk m Hl. unfold bind.
  destruct (Hp m Hl) as (X & EX & HX & HlX).
  destruct (p m) as [a m1 | d m1 | m1]; cbn [final_world is_Returned] in *.
  - specialize (HlX eq_refl).
    destruct (Hk a m1) as (Y & EY & HY & HlY); [rewrite HlX; exact Hl |].
    exists (X ++ Y). split; [rewrite EY, EX, app_assoc; reflexivity |].
    split; [apply critical_sections_app; assumption |].
    intros HR. rewrite (HlY HR). exact HlX.
  - exists X. split; [exact EX |]. split; [exact HX | discriminate].
  - exists X. split; [exact EX |]. split; [exact HX | discriminate].
Qed.

Lemma in_sections_handle_async (e : async_event) : in_sections (handle_async e).
Proof.
  intros m Hl. apply Z.ltb_lt in Hl.
  destruct e as [[[] p | n [|i] | r | k] | b |]; unfold handle_async;
    try destruct (outstanding m);
    run_handler; rewrite ?Hl; run_handler;
    cbn [final_world accesses is_Returned];
    first [ exists []; rewrite app_nil_r; split; [reflexivity |]
          | eexists; rewrite <- ?app_assoc; cbn [app]; split; [reflexivity |] ];
    (split; [split; reflexivity |]); intros _; lia.
Qed.

Lemma in_sections_handle_all (es : list async_event) : in_sections (handle_all es).
Proof.
  induction es as [|e es IH]; cbn [handle_all].
  - intros m _. exists []. rewrite app_nil_r. repeat split; reflexivity.
  - apply in_sections_bind; [apply in_sections_handle_async | intros _; exact IH].
Qed.

Lemma in_sections_usleep (usec : Z) : in_sections (usleep usec).
Proof.
  intros m Hl. unfold usleep.
  match goal with |- context [handle_all ?es ?m0] =>
    destruct (in_sections_handle_all es m0 Hl) as (X & EX & HX & HlX) end.
  exists X. auto.
Qed.

Lemma in_sections_flushed_loop (fuel : nat) :
  forall quit, in_sections (flushed_loop fuel quit).
Proof.
  induction fuel as [|fuel IH]; intros quit.
  - intros m _. exists []. rewrite app_nil_r. repeat split; reflexivity.
  - destruct (Z.eq_dec quit 0) as [-> | Hq].
    + (* one turn: the locked look at the flag, then the sleep and the rest *)
      assert (Hlook : forall m, 0 < handler_lock (ctx m) ->
                exists q m1 X,
                  critical_sections X /\
                  accesses m1 = accesses m ++ X /\
                  handler_lock (ctx m1) = handler_lock (ctx m) /\
                  flushed_loop (S fuel) 0 m =
                  bind (when (q =? 0) (usleep 10000))
                       (fun _ => flushed_loop fuel q) m1).
      { intros m Hl. apply Z.ltb_lt in Hl.
        cbn [flushed_loop Z.eqb].
        unfold bind at 1, vcos_semaphore_wait at 1. rewrite Hl.
        unfold bind at 1, load at 1.
        cbn [flag_value ctx log_access with_ctx flushed set_handler_lock].
        destruct (flushed (ctx m) =? 0); cbn [negb]; run_handler.
        - eexists 0, _, [(Control, Acquire); (Control, Load Flag_flushed); (Control, Release)].
          split; [split; reflexivity |]. split; [| split; [| reflexivity]].
          + cbn [accesses]. rewrite <- !app_assoc. reflexivity.
          + cbn [ctx handler_lock]. lia.
        - eexists 1, _, [(Control, Acquire); (Control, Load Flag_flushed);
                         (Control, Store Flag_flushed); (Control, Release)].
          split; [split; reflexivity |]. split; [| split; [| reflexivity]].
          + cbn [accesses]. rewrite <- !app_assoc. reflexivity.
          + cbn [ctx handler_lock]. lia. }
      intros m Hl. destruct (Hlook m Hl) as (q & m1 & X & HX & EX & Hl1 & E).
      assert (Hrest : in_sections (bind (when (q =? 0) (usleep 10000))
                                        (fun _ => flushed_loop fuel q))).
      { apply in_sections_bind; [| intros _; apply IH].
        destruct (q =? 0); cbn [when]; [apply in_sections_usleep |].
        intros m0 _. exists []. rewrite app_nil_r. repeat split; reflexivity. }
      destruct (Hrest m1) as (Y & EY & HY & HlY); [rewrite Hl1; exact Hl |].
      rewrite E. exists (X ++ Y).
      split; [rewrite EY, EX, app_assoc; reflexivity |].
      split; [apply critical_sections_app; assumption |].
      intros HR. rewrite (HlY HR). exact Hl1.
    + intros m _. rewrite (flushed_loop_nonzero fuel quit m Hq).
      exists []. rewrite app_nil_r. repeat split; reflexivity.
Qed.

(** X6. [block_until_flushed] keeps the critical-section discipline:
    whatever value [quit] starts from, the accesses it and the
    callbacks that run during its sleeps add to the log are complete
    critical sections, each flag access made by the thread that holds
    the lock, and the lock is free when the call returns. *)
Theorem block_until_flushed_keeps_discipline (fuel : nat) (quit : Z) (m : machine) :
  0 < handler_lock (ctx m) ->
  exists X,
    accesses (final_world (block_until_flushed fuel quit m)) = accesses m ++ X /\
    disciplined None X = true /\
    holder_after None X = None /\
    (is_Returned (block_until_flushed fuel quit m) = true ->
     handler_lock (ctx (final_world (block_until_flushed fuel quit m))) =
     handler_lock (ctx m)).
Proof.
  intros Hl. unfold block_until_flushed.
  destruct (in_sections_flushed_loop fuel quit m Hl) as (X & EX & [HX HA] & HlX).
  exists X. auto.
Qed.

(** *** When [block_until_flushed] returns *)

Lemma handle_async_flushed (e : async_event) (m : machine) :
  is_error_event e = false ->
  0 < handler_lock (ctx m) ->
  exists m',
    handle_async e m = Returned tt m' /\
    handler_lock (ctx m') = handler_lock (ctx m) /\
    deliveries m' = deliveries m /\
    flushed (ctx m') = if leaves_unflushed e then flushed (ctx m) else 1.
Proof.
  intros He Hl. apply Z.ltb_lt in Hl.
  destruct e as [[[] p | n [|i] | r | k] | b |]; try discriminate He;
    unfold handle_async; try destruct (outstanding m);
    run_handler; rewrite ?Hl; run_handler;
    eexists; (split; [reflexivity |]); cbn [leaves_unflushed];
    repeat split; try reflexivity; lia.
Qed.

Lemma handle_all_flushed (es : list async_event) :
  forall m,
  existsb is_error_event es = false ->
  0 < handler_lock (ctx m) ->
  exists m',
    handle_all es m = Returned tt m' /\
    handler_lock (ctx m') = handler_lock (ctx m) /\
    deliveries m' = deliveries m /\
    flushed (ctx m') = if forallb leaves_unflushed es then flushed (ctx m) else 1.
Proof.
  induction es as [|e es IH]; intros m He Hl.
  - exists m. repeat split; reflexivity.
  - cbn [existsb] in He. apply orb_false_iff in He. destruct He as [He Hes].
    destruct (handle_async_flushed e m He Hl) as (m1 & E1 & Hl1 & Hd1 & Hf1).
    destruct (IH m1 Hes) as (m2 & E2 & Hl2 & Hd2 & Hf2); [rewrite Hl1; exact Hl |].
    exists m2. cbn [handle_all]. unfold bind. rewrite E1.
    split; [exact E2 |]. split; [congruence |]. split; [congruence |].
    rewrite Hf2, Hf1. cbn [forallb].
    destruct (leaves_unflushed e), (forallb leaves_unflushed es); reflexivity.
Qed.

(** One turn of the loop with the flag down: the locked look, the
    sleep. *)
Lemma flushed_loop_turn (fuel : nat) (m : machine) :
  flushed (ctx m) = 0 ->
  existsb is_error_event (hd [] (deliveries m)) = false ->
  0 < handler_lock (ctx m) ->
  exists m1,
    handler_lock (ctx m1) = handler_lock (ctx m) /\
    deliveries m1 = tl (deliveries m) /\
    flushed (ctx m1) = (if forallb leaves_unflushed (hd [] (deliveries m)) then 0 else 1) /\
    flushed_loop (S fuel) 0 m = flushed_loop fuel 0 m1.
Proof.
  intros Hf He Hl.
  cbn [flushed_loop Z.eqb].
  unfold bind at 1, vcos_semaphore_wait at 1.
  replace (0 <? handler_lock (ctx m)) with true by (symmetry; apply Z.ltb_lt; exact Hl).
  unfold bind at 1, load at 1.
  cbn [flag_value ctx log_access with_ctx flushed set_handler_lock].
  rewrite Hf. cbn [Z.eqb negb].
  unfold bind at 1, ret at 1. unfold bind at 1, vcos_semaphore_post at 1.
  cbn [Z.eqb when]. unfold bind at 1, usleep.
  match goal with |- context [handle_all ?es ?m0] =>
    destruct (handle_all_flushed es m0) as (m1 & E & Hl1 & Hd1 & Hf1);
    [exact He | cbn [ctx handler_lock log_access with_ctx set_handler_lock]; lia |]
  end.
  rewrite E. exists m1.
  cbn [ctx handler_lock flushed deliveries log_access with_ctx set_handler_lock] in *.
  split; [lia |]. split; [exact Hd1 |]. split; [rewrite Hf1, Hf; reflexivity | reflexivity].
Qed.

(** With the flag up, the loop takes it down and returns. *)
Lemma flushed_loop_take (fuel : nat) (m : machine) :
  flushed (ctx m) <> 0 ->
  0 < handler_lock (ctx m) ->
  exists m',
    flushed_loop (S (S fuel)) 0 m = Returned tt m' /\
    flushed (ctx m') = 0 /\ deliveries m' = deliveries m /\
    handler_lock (ctx m') = handler_lock (ctx m).
Proof.
  intros Hf Hl. apply Z.eqb_neq in Hf.
  cbn [flushed_loop Z.eqb].
  unfold bind at 1, vcos_semaphore_wait at 1.
  replace (0 <? handler_lock (ctx m)) with true by (symmetry; apply Z.ltb_lt; exact Hl).
  unfold bind at 1, load at 1.
  cbn [flag_value ctx log_access with_ctx flushed set_handler_lock].
  rewrite Hf. run_handler. cbn [Z.eqb].
  eexists. split; [reflexivity |]. cbn. repeat split; lia.
Qed.

(** X17. [block_until_flushed] returns on the first completion of a
    flush, whichever port the completion is for ([event_handler] does
    not look at [nData2]).  Started with [quit] at zero, the flag down
    and the lock free, and no error event on the way: after any number
    of sleeps during which no flush completes, the sleep during which
    one does is the last; the call returns with the flag taken down
    again and the lock free. *)
Theorem block_until_flushed_returns_on_completion
    (m : machine) (quiet : list (list async_event)) (es : list async_event)
    (rest : list (list async_event)) (fuel : nat) :
  flushed (ctx m) = 0 ->
  0 < handler_lock (ctx m) ->
  deliveries m = quiet ++ es :: rest ->
  Forall (fun es' => forallb leaves_unflushed es' = true /\
                     existsb is_error_event es' = false) quiet ->
  existsb is_error_event es = false ->
  forallb leaves_unflushed es = false ->
  exists m',
    block_until_flushed (length quiet + 3 + fuel) 0 m = Returned tt m' /\
    deliveries m' = rest /\
    flushed (ctx m') = 0 /\
    handler_lock (ctx m') = handler_lock (ctx m).
Proof.
  unfold block_until_flushed.
  revert m. induction quiet as [|q quiet IH]; intros m Hf Hl Hd Hq Herr Hes.
  - cbn [length Nat.add app] in *.
    destruct (flushed_loop_turn (S (S fuel)) m Hf) as (m1 & Hl1 & Hd1 & Hf1 & E);
      [rewrite Hd; exact Herr | exact Hl |].
    rewrite Hd in Hd1, Hf1. cbn [hd tl] in Hd1, Hf1. rewrite Hes in Hf1.
    destruct (flushed_loop_take fuel m1) as (m' & E' & Hf' & Hd' & Hl');
      [rewrite Hf1; discriminate | rewrite Hl1; exact Hl |].
    exists m'. rewrite E, E'. repeat split; congruence.
  - inversion Hq as [|? ? [Hq1 Hq2] Hq']; subst.
    cbn [length Nat.add].
    destruct (flushed_loop_turn (length quiet + 3 + fuel) m Hf) as (m1 & Hl1 & Hd1 & Hf1 & E);
      [rewrite Hd; exact Hq2 | exact Hl |].
    rewrite Hd in Hd1, Hf1. cbn [hd tl app] in Hd1, Hf1. rewrite Hq1 in Hf1.
    destruct (IH m1 Hf1) as (m' & E' & Hd' & Hf' & Hl');
      [rewrite Hl1; exact Hl | exact Hd1 | exact Hq' | exact Herr | exact Hes |].
    exists m'. rewrite E, E'. repeat split; congruence.
Qed.

(** *** The wait of [main] for the camera *)

Lemma main_wait_camera_ready_turn (fuel : nat) (m : machine) :
  camera_ready (ctx m) = 0 ->
  existsb is_error_event (hd [] (deliveries m)) = false ->
  0 < handler_lock (ctx m) ->
  exists m1,
    handler_lock (ctx m1) = handler_lock (ctx m) /\
    deliveries m1 = tl (deliveries m) /\
    camera_ready (ctx m1) =
      (if existsb raises_camera_ready (hd [] (deliveries m)) then 1 else 0) /\
    main_wait_camera_ready (S fuel) m = main_wait_camera_ready fuel m1.
Proof.
  intros Hr He Hl.
  destruct (usleep_harmless 10000 (log_access Control (Load Flag_camera_ready) m) He Hl)
    as (m1 & E & Hl1 & Hd1 & Hr1).
  exists m1. split; [exact Hl1 |]. split; [exact Hd1 |].
  split; [rewrite Hr1; cbn [log_access ctx deliveries]; rewrite Hr; reflexivity |].
  cbn [main_wait_camera_ready]. unfold bind at 1, load at 1.
  cbn [flag_value]. rewrite Hr. cbn [Z.eqb].
  unfold bind at 1. rewrite E. reflexivity.
Qed.

(** X18. The wait of [main] for the camera returns as soon as the
    camera answers, however late: with the flag down, the lock free
    and no error event, after any number of sleeps during which
    nothing raises the flag, the sleep during which the event arrives
    is the last one. *)
Theorem main_wait_camera_ready_returns
    (m : machine) (quiet : list (list async_event)) (es : list async_event)
    (rest : list (list async_event)) (fuel : nat) :
  camera_ready (ctx m) = 0 ->
  0 < handler_lock (ctx m) ->
  deliveries m = quiet ++ es :: rest ->
  Forall (fun es' => forallb leaves_camera_unready es' = true) quiet ->
  existsb is_error_event es = false ->
  existsb raises_camera_ready es = true ->
  exists m',
    main_wait_camera_ready (length quiet + 2 + fuel) m = Returned tt m' /\
    deliveries m' = rest /\
    camera_ready (ctx m') = 1.
Proof.
  revert m. induction quiet as [|q quiet IH]; intros m Hr Hl Hd Hq Herr Hes.
  - cbn [length Nat.add app] in *.
    destruct (main_wait_camera_ready_turn (S fuel) m Hr) as (m1 & Hl1 & Hd1 & Hr1 & E);
      [rewrite Hd; exact Herr | exact Hl |].
    rewrite Hd in Hd1, Hr1. cbn [hd tl] in Hd1, Hr1. rewrite Hes in Hr1.
    rewrite E. cbn [main_wait_camera_ready]. unfold bind at 1, load at 1.
    cbn [flag_value]. rewrite Hr1. cbn [Z.eqb ret].
    eexists. split; [reflexivity |]. cbn [log_access deliveries ctx]. auto.
  - inversion Hq as [|? ? Hq1 Hq']; subst.
    destruct (quiet_events q Hq1) as [Hqe Hqr].
    cbn [length Nat.add].
    destruct (main_wait_camera_ready_turn (length quiet + 2 + fuel) m Hr)
      as (m1 & Hl1 & Hd1 & Hr1 & E);
      [rewrite Hd; exact Hqe | exact Hl |].
    rewrite Hd in Hd1, Hr1. cbn [hd tl app] in Hd1, Hr1. rewrite Hqr in Hr1.
    destruct (IH m1 Hr1) as (m' & E' & Hd' & Hr');
      [rewrite Hl1; exact Hl | exact Hd1 | exact Hq' | exact Herr | exact Hes |].
    exists m'. rewrite E, E'. auto.
Qed.

(** *** The waits for the camera and the critical section *)

Lemma accesses_of_app (t : thread) (X Y : list (thread * access)) :
  accesses_of t (X ++ Y) = accesses_of t X ++ accesses_of t Y.
Proof. unfold accesses_of. rewrite filter_app, map_app. reflexivity. Qed.

(** The control thread's part of what a piece of code adds to the log
    consists of unlocked loads of the camera-ready flag. *)
Lemma callbacks_only_handle_async (e : async_event) (m : machine) :
  exists X,
    accesses (final_world (handle_async e m)) = accesses m ++ X /\
    accesses_of Control X = [].
Proof.
  destruct e as [[[] p | n [|i] | r | k] | b |]; unfold handle_async;
    try destruct (outstanding m);
    run_handler;
    repeat match goal with |- context [if ?c then _ else _] => destruct c end;
    run_handler; cbn [final_world accesses];
    first [ exists []; rewrite app_nil_r; split; reflexivity
          | eexists; rewrite <- ?app_assoc; cbn [app]; split; reflexivity ].
Qed.

Lemma callbacks_only_handle_all (es : list async_event) :
  forall m,
  exists X,
    accesses (final_world (handle_all es m)) = accesses m ++ X /\
    accesses_of Control X = [].
Proof.
  induction es as [|e es IH]; intros m.
  - exists []. cbn. rewrite app_nil_r. auto.
  - cbn [handle_all]. unfold bind.
    destruct (callbacks_only_handle_async e m) as (X & EX & HX).
    destruct (handle_async e m) as [[] m1 | d m1 | m1]; cbn [final_world] in EX |- *;
      [| exists X; auto ..].
    destruct (IH m1) as (Y & EY & HY).
    exists (X ++ Y). split; [rewrite EY, EX, app_assoc; reflexivity |].
    rewrite accesses_of_app, HX, HY. reflexivity.
Qed.

Lemma callbacks_only_usleep (usec : Z) (m : machine) :
  exists X,
    accesses (final_world (usleep usec m)) = accesses m ++ X /\
    accesses_of Control X = [].
Proof.
  unfold usleep.
  match goal with |- context [handle_all ?es ?m0] =>
    destruct (callbacks_only_handle_all es m0) as (X & EX & HX) end.
  exists X. auto.
Qed.

Lemma camera_ready_loop_accesses (fuel : nat) :
  forall n m,
  exists X,
    accesses (final_world (camera_ready_loop fuel n m)) = accesses m ++ X /\
    Forall (fun a => a = Load Flag_camera_ready) (accesses_of Control X) /\
    (fuel <> O -> exists rest, X = (Control, Load Flag_camera_ready) :: rest).
Proof.
  induction fuel as [|fuel IH]; intros n m.
  - exists []. cbn. rewrite app_nil_r. repeat split; [constructor | congruence].
  - cbn [camera_ready_loop]. unfold bind at 1, load at 1.
    cbn [flag_value].
    destruct (camera_ready (ctx m) =? 0).
    + unfold bind at 1.
      destruct (callbacks_only_usleep 10000 (log_access Control (Load Flag_camera_ready) m))
        as (X & EX & HX).
      destruct (usleep 10000 (log_access Control (Load Flag_camera_ready) m))
        as [[] m1 | d m1 | m1]; cbn [final_world log_access accesses] in EX |- *.
      * unfold bind at 1.
        destruct (100 <? n); cbn [when die ret final_world].
        -- exists ((Control, Load Flag_camera_ready) :: X).
           split; [rewrite EX, <- app_assoc; reflexivity |].
           split; [| intros _; eexists; reflexivity].
           change ((Control, Load Flag_camera_ready) :: X) with
             ([(Control, Load Flag_camera_ready)] ++ X).
           rewrite accesses_of_app, HX. repeat constructor.
        -- destruct (IH (int32 (n + 1)) m1) as (Y & EY & HY & _).
           exists ((Control, Load Flag_camera_ready) :: X ++ Y).
           split; [rewrite EY, EX, <- !app_assoc; reflexivity |].
           split; [| intros _; eexists; reflexivity].
           change ((Control, Load Flag_camera_ready) :: X ++ Y) with
             ([(Control, Load Flag_camera_ready)] ++ X ++ Y).
           rewrite !accesses_of_app, HX. cbn [app]. constructor; [reflexivity | exact HY].
      * exists ((Control, Load Flag_camera_ready) :: X).
        split; [rewrite EX, <- app_assoc; reflexivity |].
        split; [| intros _; eexists; reflexivity].
        change ((Control, Load Flag_camera_ready) :: X) with
          ([(Control, Load Flag_camera_ready)] ++ X).
        rewrite accesses_of_app, HX. repeat constructor.
      * exists ((Control, Load Flag_camera_ready) :: X).
        split; [rewrite EX, <- app_assoc; reflexivity |].
        split; [| intros _; eexists; reflexivity].
        change ((Control, Load Flag_camera_ready) :: X) with
          ([(Control, Load Flag_camera_ready)] ++ X).
        rewrite accesses_of_app, HX. repeat constructor.
    + exists [(Control, Load Flag_camera_ready)]. cbn [ret final_world log_access accesses].
      split; [reflexivity |]. split; [repeat constructor | intros _; eexists; reflexivity].
Qed.

(** X19. [camera_block_until_camera_ready] never enters the critical
    section: every access the control thread makes during the call is
    a load of the ready flag, made without the lock, while the
    callback that raises the flag stores it under the lock.  A call
    that evaluates its condition at all therefore breaks the
    discipline with its first access. *)
Theorem camera_block_until_camera_ready_takes_no_lock (fuel : nat) (m : machine) :
  exists X,
    accesses (final_world (camera_block_until_camera_ready fuel m)) = accesses m ++ X /\
    Forall (fun a => a = Load Flag_camera_ready) (accesses_of Control X) /\
    ~ In (Control, Acquire) X /\
    (fuel <> O -> disciplined None X = false).
Proof.
  unfold camera_block_until_camera_ready.
  destruct (camera_ready_loop_accesses fuel 0 m) as (X & EX & HX & Hfirst).
  exists X. split; [exact EX |]. split; [exact HX |]. split.
  - intros Hin. rewrite Forall_forall in HX.
    assert (Hacq : In Acquire (accesses_of Control X)).
    { unfold accesses_of. apply in_map_iff. exists (Control, Acquire).
      split; [reflexivity |]. apply filter_In. split; [exact Hin | reflexivity]. }
    apply HX in Hacq. discriminate.
  - intros Hfuel. destruct (Hfirst Hfuel) as (rest & ->). reflexivity.
Qed.

End EventSyncOutcomes.

(** *** Scenarios *)

Lemma shutdown_drops_last_buffer_witness :
  App.completed (App.trace (final_world mid_gop_run)) =
    App.written (App.trace (final_world mid_gop_run)) ++
    [App.buffer_out (App.ctx (final_world mid_gop_run))]
  /\ App.fd_out (App.ctx (final_world mid_gop_run)) =
     map App.payload (App.written (App.trace (final_world mid_gop_run)))
  /\ map App.payload (App.completed (App.trace (final_world mid_gop_run))) =
     App.fd_out (App.ctx (final_world mid_gop_run)) ++
     [App.payload (App.buffer_out (App.ctx (final_world mid_gop_run)))]
  /\ length (App.fd_out (App.ctx (final_world mid_gop_run))) =
     pred (length (App.completed (App.trace (final_world mid_gop_run)))).
Proof.
  apply (shutdown_drops_last_buffer 20 empty_buffer [] 1000 mid_gop_script
           (final_world mid_gop_run)).
  vm_compute. reflexivity.
Defined.

Lemma uniform_stream_never_leaves_witness :
  is_Returned
    (App.main_loop 50 (App.at_loop_entry empty_buffer [] 1000 keyframes_only_script))
  = false.
Proof.
  apply (uniform_stream_never_leaves 50 empty_buffer [] 1000 keyframes_only_script
           App.OMX_BUFFERFLAG_SYNCFRAME).
  repeat constructor.
Defined.


Lemma camera_block_until_camera_ready_budget_witness :
  (exists m',
     App.camera_block_until_camera_ready 102 (camera_answering_after 100) =
       Returned tt m' /\
     App.deliveries m' = [] /\ App.camera_ready (App.ctx m') = 1)
  /\
  (exists m',
     App.camera_block_until_camera_ready 102 (camera_answering_after 101) =
       Died (Fatal 1 None "Failed to configuring camera") m' /\
     App.deliveries m' = [] /\ App.camera_ready (App.ctx m') = 1).
Proof.
  assert (Hq : forall n,
             Forall (fun es => forallb App.leaves_camera_unready es = true) (repeat [] n)).
  { intros n. apply Forall_forall. intros es H. apply repeat_spec in H.
    subst es. reflexivity. }
  split.
  - apply (proj1 (camera_block_until_camera_ready_budget
                    (camera_answering_after 100) (repeat [] 100) [camera_ready_event] []
                    0%nat eq_refl eq_refl eq_refl (Hq 100%nat) eq_refl));
      [rewrite repeat_length; lia | reflexivity].
  - apply (proj2 (camera_block_until_camera_ready_budget
                    (camera_answering_after 101) (repeat [] 101) [camera_ready_event] []
                    0%nat eq_refl eq_refl eq_refl (Hq 101%nat) eq_refl)).
    reflexivity.
Defined.

Lemma block_until_flushed_needs_completion_witness :
  Sync.flush_never_completes silent_camera /\
  is_Returned (App.block_until_flushed 1000 0 silent_camera) = false.
Proof.
  assert (H : Sync.flush_never_completes silent_camera).
  { split; [reflexivity | constructor]. }
  split; [exact H | exact (block_until_flushed_needs_completion 1000 silent_camera H)].
Defined.

Lemma block_until_flushed_keeps_discipline_witness :
  exists X,
    App.accesses (final_world (App.block_until_flushed 2 0 flush_pending)) =
      App.accesses flush_pending ++ X /\
    App.disciplined None X = true /\
    Sync.holder_after None X = None /\
    (is_Returned (App.block_until_flushed 2 0 flush_pending) = true ->
     App.handler_lock (App.ctx (final_world (App.block_until_flushed 2 0 flush_pending))) =
     App.handler_lock (App.ctx flush_pending)).
Proof.
  apply (block_until_flushed_keeps_discipline 2 0 flush_pending). reflexivity.
Defined.

(** ** The polling waits on the hardware: when they return *)

Section ControllerOutcomes.
Context {hw : Type} `{OMX_IL hw}.

Lemma int32_id (n : Z) : 0 <= n < 2 ^ 31 -> int32 n = n.
Proof.
  intros Hn. unfold int32.
  replace ((n + 2 ^ 31) mod 2 ^ 32) with (n + 2 ^ 31) by (symmetry; apply Z.mod_small; lia).
  lia.
Qed.

Lemma u32_id (n : Z) : 0 <= n < 2 ^ 32 -> u32 n = n.
Proof. intros Hn. unfold u32. apply Z.mod_small. exact Hn. Qed.

Lemma state_reports_S (n : nat) (h : OMX_HANDLETYPE) (v : hw) :
  state_reports (S n) h v =
  let '(e, v') := hw_get_state h v in e :: state_reports n h (hw_sleep 10000 v').
Proof. reflexivity. Qed.

Lemma port_reports_S (n : nat) (h : OMX_HANDLETYPE) (port : Z) (v : hw) :
  port_reports (S n) h port v =
  let '(r, b, v') := hw_get_port_definition h port v in
  (r, b) :: port_reports n h port (hw_sleep 10000 v').
Proof. reflexivity. Qed.

Lemma state_changed_loop_settles (h : OMX_HANDLETYPE) (s : OMX_STATETYPE) :
  forall es fuel i e w,
  0 <= i -> i + Z.of_nat (length es) + 1 < 2 ^ 31 ->
  ((i =? 0) || negb (OMX_STATETYPE_eqb e s))%bool = true ->
  state_reports (S (length es)) h (hardware w) = es ++ [s] ->
  Forall (fun e' => e' <> s) es ->
  exists w',
    state_changed_loop (length es + 2 + fuel) h s i e w = Returned tt w' /\
    calls w' = calls w ++ state_polls h es ++ [Call_GetState h s].
Proof.
  induction es as [|e1 es IH]; intros fuel i e w Hi Hlen Hagain Hrep Hne.
  - cbn [length Nat.add]. rewrite state_changed_loop_step, Hagain.
    cbn [length] in Hrep. rewrite state_reports_S in Hrep.
    destruct (hw_get_state h (hardware w)) as [e0 hw'].
    cbn [state_reports app] in Hrep. injection Hrep as ->. cbv zeta.
    rewrite (proj2 (OMX_STATETYPE_eqb_eq s s) eq_refl).
    rewrite state_changed_loop_step.
    rewrite (proj2 (OMX_STATETYPE_eqb_eq s s) eq_refl).
    rewrite int32_id by (cbn [length Z.of_nat] in Hlen; lia).
    replace (i + 1 =? 0) with false by (symmetry; apply Z.eqb_neq; lia).
    cbn [orb negb]. eexists. split; [reflexivity | reflexivity].
  - cbn [length Nat.add]. rewrite state_changed_loop_step, Hagain.
    cbn [length] in Hrep. rewrite state_reports_S in Hrep.
    destruct (hw_get_state h (hardware w)) as [e0 hw'].
    cbn [app] in Hrep. injection Hrep as -> Hrep. cbv zeta.
    inversion Hne as [|? ? Hne1 Hne']; subst.
    assert (Eneq : OMX_STATETYPE_eqb e1 s = false).
    { destruct (OMX_STATETYPE_eqb e1 s) eqn:E; [| reflexivity].
      apply OMX_STATETYPE_eqb_eq in E. contradiction. }
    rewrite Eneq.
    cbn [length] in Hlen.
    rewrite int32_id by lia.
    match goal with |- context [state_changed_loop _ h s (i + 1) e1 ?w2] =>
      destruct (IH fuel (i + 1) e1 w2) as (w' & E & Ecalls);
      [lia | lia | rewrite Eneq; apply orb_true_r | exact Hrep | exact Hne' |]
    end.
    exists w'. split; [exact E |].
    rewrite Ecalls. cbn [calls state_polls flat_map app].
    rewrite <- !app_assoc. reflexivity.
Qed.

(** X7. [block_until_state_changed] returns once the component reports
    the wanted state: if, queried every 10 ms, the component reports
    the states [es], none of them the wanted one, and then the wanted
    state, the call returns having made exactly these queries, with one
    sleep of 10 ms after each of the answers [es] and none after the
    last. *)
Theorem block_until_state_changed_returns
    (h : OMX_HANDLETYPE) (s : OMX_STATETYPE) (es : list OMX_STATETYPE)
    (fuel : nat) (w : world hw) :
  state_reports (S (length es)) h (hardware w) = es ++ [s] ->
  Forall (fun e => e <> s) es ->
  Z.of_nat (length es) + 1 < 2 ^ 31 ->
  exists w',
    block_until_state_changed (length es + 2 + fuel) h s w = Returned tt w' /\
    calls w' = calls w ++ state_polls h es ++ [Call_GetState h s].
Proof.
  intros Hrep Hne Hlen. unfold block_until_state_changed.
  apply state_changed_loop_settles; auto; lia.
Qed.

Lemma port_changed_loop_polling (h : OMX_HANDLETYPE) (b : OMX_BOOL) :
  forall vs fuel i pd w last,
  0 <= i -> i + Z.of_nat (length vs) + 1 < 2 ^ 32 ->
  ((i =? 0) || negb (bEnabled pd =? b))%bool = true ->
  port_reports (S (length vs)) h (nPortIndex pd) (hardware w) =
    map (pair OMX_ErrorNone) vs ++ [last] ->
  Forall (fun v => v <> b) vs ->
  exists i' pd' w1 hw',
    hw_get_port_definition h (nPortIndex pd) (hardware w1) = (fst last, snd last, hw') /\
    nPortIndex pd' = nPortIndex pd /\
    0 < i' + 1 < 2 ^ 32 /\
    ((i' =? 0) || negb (bEnabled pd' =? b))%bool = true /\
    calls w1 = calls w ++ port_polls h (nPortIndex pd) vs /\
    port_changed_loop (length vs + fuel) h b i pd w = port_changed_loop fuel h b i' pd' w1.
Proof.
  induction vs as [|v1 vs IH]; intros fuel i pd w last Hi Hlen Hagain Hrep Hne.
  - cbn [length] in Hrep, Hlen. rewrite port_reports_S in Hrep.
    destruct (hw_get_port_definition h (nPortIndex pd) (hardware w)) as [[r v] hw'] eqn:Eq.
    cbn [port_reports map app] in Hrep. injection Hrep as <-.
    exists i, pd, w, hw'. cbn [fst snd port_polls flat_map length Nat.add].
    rewrite app_nil_r. repeat split; auto; lia.
  - cbn [length] in Hrep, Hlen |- *. rewrite port_reports_S in Hrep.
    cbn [Nat.add]. rewrite port_changed_loop_step, Hagain.
    destruct (hw_get_port_definition h (nPortIndex pd) (hardware w)) as [[r v] hw0].
    cbn [map app] in Hrep. injection Hrep as -> -> Hrep. cbv zeta.
    inversion Hne as [|? ? Hne1 Hne']; subst.
    cbn [OMX_ErrorNone Z.eqb].
    replace (v1 =? b) with false by (symmetry; apply Z.eqb_neq; exact Hne1).
    rewrite u32_id by lia.
    match goal with |- context [port_changed_loop _ h b (i + 1) ?pd2 ?w2] =>
      destruct (IH fuel (i + 1) pd2 w2 last) as (i' & pd' & w1 & hw' & Eq & Ep & Hi' & Ha & Ec & E);
      [ lia | lia
      | cbn [bEnabled set_bEnabled];
        replace (v1 =? b) with false by (symmetry; apply Z.eqb_neq; exact Hne1);
        apply orb_true_r
      | exact Hrep | exact Hne' |]
    end.
    cbn [nPortIndex set_bEnabled] in *.
    exists i', pd', w1, hw'. repeat split; auto; try lia.
    rewrite Ec. cbn [calls port_polls flat_map app]. rewrite <- !app_assoc. reflexivity.
Qed.

(** X8. [block_until_port_changed] ends with the first answer that
    settles the matter: if, queried every 10 ms, the port reports the
    flag values [vs], none of them the wanted one, each with status
    [OMX_ErrorNone], then a query that reports the wanted value returns
    the call, and a query that fails ends the process with the status
    of that query, whatever flag value came with it.  The calls made
    are exactly these queries, with one sleep after each of the
    answers [vs]. *)
Theorem block_until_port_changed_settles
    (h : OMX_HANDLETYPE) (port : Z) (b : OMX_BOOL) (vs : list OMX_BOOL)
    (r : OMX_ERRORTYPE) (v : OMX_BOOL) (fuel : nat) (w : world hw) :
  port_reports (S (length vs)) h port (hardware w) =
    map (pair OMX_ErrorNone) vs ++ [(r, v)] ->
  Forall (fun v' => v' <> b) vs ->
  Z.of_nat (length vs) + 1 < 2 ^ 32 ->
  (r = OMX_ErrorNone -> v = b ->
   exists w',
     block_until_port_changed (length vs + S (S fuel)) h port b w = Returned tt w' /\
     calls w' = calls w ++ port_polls h port vs ++ [Call_GetParameter h port OMX_ErrorNone b])
  /\
  (r <> OMX_ErrorNone ->
   exists w',
     block_until_port_changed (length vs + S fuel) h port b w =
       Died (Fatal 1 (Some r) "Failed to get port definition") w' /\
     calls w' = calls w ++ port_polls h port vs ++ [Call_GetParameter h port r v]).
Proof.
  intros Hrep Hne Hlen. unfold block_until_port_changed.
  split.
  - intros -> ->.
    destruct (port_changed_loop_polling h b vs (S (S fuel)) 0
                (set_nPortIndex OMX_INIT_STRUCTURE port) w (OMX_ErrorNone, b))
      as (i' & pd' & w1 & hw' & Eq & Ep & Hi' & Ha & Ec & E);
      [lia | lia | reflexivity | exact Hrep | exact Hne |].
    cbn [nPortIndex set_nPortIndex fst snd] in *.
    rewrite E, port_changed_loop_step, Ha, Ep, Eq. cbv zeta.
    cbn [OMX_ErrorNone Z.eqb]. rewrite Z.eqb_refl.
    rewrite port_changed_loop_step. cbn [bEnabled set_bEnabled].
    rewrite Z.eqb_refl, u32_id by lia.
    replace (i' + 1 =? 0) with false by (symmetry; apply Z.eqb_neq; lia).
    cbn [orb negb]. eexists. split; [reflexivity |].
    cbn [calls]. rewrite Ec, <- app_assoc. reflexivity.
  - intros Hr.
    destruct (port_changed_loop_polling h b vs (S fuel) 0
                (set_nPortIndex OMX_INIT_STRUCTURE port) w (r, v))
      as (i' & pd' & w1 & hw' & Eq & Ep & Hi' & Ha & Ec & E);
      [lia | lia | reflexivity | exact Hrep | exact Hne |].
    cbn [nPortIndex set_nPortIndex fst snd] in *.
    rewrite E, port_changed_loop_step, Ha, Ep, Eq. cbv zeta.
    replace (r =? OMX_ErrorNone) with false by (symmetry; apply Z.eqb_neq; exact Hr).
    eexists. split; [reflexivity |].
    cbn [calls]. rewrite Ec, <- app_assoc. reflexivity.
Qed.

(** *** Ports taken through a command one after the other *)

Lemma port_changed_loop_queries (h : OMX_HANDLETYPE) (b : OMX_BOOL) :
  forall fuel i pd w,
  exists X,
    calls (final_world (port_changed_loop fuel h b i pd w)) = calls w ++ X /\
    Forall (is_port_query h (nPortIndex pd)) X.
Proof.
  induction fuel as [|fuel IH]; intros i pd w.
  - exists []. cbn. rewrite app_nil_r. auto.
  - rewrite port_changed_loop_step.
    destruct ((i =? 0) || negb (bEnabled pd =? b))%bool.
    + destruct (hw_get_port_definition h (nPortIndex pd) (hardware w)) as [[r v] hw'].
      cbv zeta.
      destruct (r =? OMX_ErrorNone); [destruct (v =? b) |].
      * match goal with |- context [port_changed_loop fuel h b ?i' ?pd' ?w1] =>
          destruct (IH i' pd' w1) as (X & EX & HX) end.
        cbn [calls nPortIndex set_bEnabled] in EX, HX |- *.
        exists (Call_GetParameter h (nPortIndex pd) r v :: X).
        split; [rewrite EX, <- app_assoc; reflexivity |].
        constructor; [split; reflexivity | exact HX].
      * match goal with |- context [port_changed_loop fuel h b ?i' ?pd' ?w1] =>
          destruct (IH i' pd' w1) as (X & EX & HX) end.
        cbn [calls nPortIndex set_bEnabled] in EX, HX |- *.
        exists (Call_GetParameter h (nPortIndex pd) r v :: Call_usleep 10000 :: X).
        split; [rewrite EX, <- !app_assoc; reflexivity |].
        constructor; [split; reflexivity |]. constructor; [exact I | exact HX].
      * exists [Call_GetParameter h (nPortIndex pd) r v].
        split; [reflexivity |]. constructor; [split; reflexivity | constructor].
    + exists []. cbn. rewrite app_nil_r. auto.
Qed.



Lemma is_port_poll_of_query (h : OMX_HANDLETYPE) (port : Z) (X : list call) :
  Forall (is_port_query h port) X -> Forall query_succeeded X ->
  Forall (is_port_poll h port) X.
Proof.
  induction 1 as [|c X Hc _ IH]; intros Hs; [constructor |].
  inversion Hs; subst. constructor; [| apply IH; assumption].
  destruct c; cbn in *; tauto.
Qed.






End ControllerOutcomes.

(** ** State queries that fail *)

Section StateQueryFacts.
Import StateQuery.
Context {hw : Type} `{OMX_IL_status hw}.

Lemma state_query_loop_step (h : OMX_HANDLETYPE) (s : OMX_STATETYPE) fuel i e w :
  state_changed_loop (S fuel) h s i e w =
  if ((i =? 0) || negb (OMX_STATETYPE_eqb e s))%bool then
    let '(r, stored, hw') := hw_state_query h (q_hardware w) in
    let e' := match stored with Some e' => e' | None => e end in
    let w1 := mk_qworld hw' (q_calls w ++ [Poll_GetState h r stored]) in
    if OMX_STATETYPE_eqb e' s then
      state_changed_loop fuel h s (int32 (i + 1)) e' w1
    else
      state_changed_loop fuel h s (int32 (i + 1)) e'
        (mk_qworld (hw_state_sleep 10000 hw') (q_calls w1 ++ [Poll_usleep 10000]))
  else Returned tt w.
Proof.
  cbn [state_changed_loop].
  destruct ((i =? 0) || negb (OMX_STATETYPE_eqb e s))%bool; [| reflexivity].
  unfold bind, OMX_GetState.
  destruct (hw_state_query h (q_hardware w)) as [[r stored] hw']. cbn [snd].
  destruct (OMX_STATETYPE_eqb _ s); reflexivity.
Qed.

Lemma eState_after_app (e : OMX_STATETYPE) (X Y : list poll) :
  eState_after e (X ++ Y) = eState_after (eState_after e X) Y.
Proof.
  revert e. induction X as [|c X IH]; intros e; [reflexivity |].
  destruct c as [h r [e'|] | usec]; cbn [app eState_after]; apply IH.
Qed.

(** The variable holds [s] after a log only if the last query that
    stored a state stored [s], or none stored any and it held [s]
    before. *)
Lemma eState_after_reported (s : OMX_STATETYPE) (X : list poll) :
  forall e, eState_after e X = s -> Exists (reported s) X \/ e = s.
Proof.
  induction X as [|c X IH]; intros e He; [right; exact He |].
  destruct c as [h r [e'|] | usec]; cbn [eState_after] in He.
  - destruct (IH e' He) as [Hx | ->].
    + left. apply Exists_cons_tl. exact Hx.
    + left. apply Exists_cons_hd. reflexivity.
  - destruct (IH e He) as [Hx | ->]; [left; apply Exists_cons_tl; exact Hx | right; reflexivity].
  - destruct (IH e He) as [Hx | ->]; [left; apply Exists_cons_tl; exact Hx | right; reflexivity].
Qed.

Lemma state_query_loop_log (h : OMX_HANDLETYPE) (s : OMX_STATETYPE) :
  forall fuel i e w,
  exists X,
    q_calls (final_world (state_changed_loop fuel h s i e w)) = q_calls w ++ X /\
    Forall (is_query_of h) X /\
    is_Died (state_changed_loop fuel h s i e w) = false /\
    (is_Returned (state_changed_loop fuel h s i e w) = true ->
       eState_after e X = s /\
       ((X = [] /\ (i =? 0) = false) \/
        (exists pre r stored, X = pre ++ [Poll_GetState h r stored]))).
Proof.
  induction fuel as [|fuel IH]; intros i e w.
  - exists []. cbn. rewrite app_nil_r. repeat split; auto; discriminate.
  - rewrite state_query_loop_step.
    destruct ((i =? 0) || negb (OMX_STATETYPE_eqb e s))%bool eqn:Eagain.
    + destruct (hw_state_query h (q_hardware w)) as [[r stored] hw']. cbv zeta.
      set (e' := match stored with Some e' => e' | None => e end).
      assert (Ee' : forall X, eState_after e (Poll_GetState h r stored :: X) =
                              eState_after e' X)
        by (intros X; unfold e'; destruct stored; reflexivity).
      destruct (OMX_STATETYPE_eqb e' s) eqn:Ee.
      * match goal with |- context [state_changed_loop fuel h s ?i' ?e1 ?w1] =>
          destruct (IH i' e1 w1) as (X & EX & HF & HD & HR) end.
        cbn [q_calls] in EX |- *.
        exists (Poll_GetState h r stored :: X).
        split; [rewrite EX, <- app_assoc; reflexivity |].
        split; [constructor; [reflexivity | exact HF] |].
        split; [exact HD |].
        intros HRet. destruct (HR HRet) as (Hafter & Hlast).
        split; [rewrite Ee'; exact Hafter |]. right.
        destruct Hlast as [(-> & _) | (pre & r' & st' & ->)].
        -- exists [], r, stored. reflexivity.
        -- exists (Poll_GetState h r stored :: pre), r', st'. reflexivity.
      * match goal with |- context [state_changed_loop fuel h s ?i' ?e1 ?w1] =>
          destruct (IH i' e1 w1) as (X & EX & HF & HD & HR) end.
        cbn [q_calls] in EX |- *.
        exists (Poll_GetState h r stored :: Poll_usleep 10000 :: X).
        split; [rewrite EX, <- !app_assoc; reflexivity |].
        split; [repeat constructor; exact HF |].
        split; [exact HD |].
        intros HRet. destruct (HR HRet) as (Hafter & Hlast).
        split; [rewrite Ee'; exact Hafter |]. right.
        destruct Hlast as [(-> & _) | (pre & r' & st' & ->)].
        -- cbn [eState_after] in Hafter.
           rewrite Hafter, (proj2 (OMX_STATETYPE_eqb_eq s s) eq_refl) in Ee. discriminate.
        -- exists (Poll_GetState h r stored :: Poll_usleep 10000 :: pre), r', st'.
           reflexivity.
    + apply orb_false_iff in Eagain. destruct Eagain as [Ei Ee].
      apply negb_false_iff, OMX_STATETYPE_eqb_eq in Ee.
      exists []. cbn. rewrite app_nil_r. repeat split; auto.
Qed.

(** X9. [block_until_state_changed] never ends the process (the status
    of [OMX_GetState] is not looked at) and sends no command: every
    call it makes is a state query of the component it waits for, or a
    sleep.  When it returns, its last call is a query, and [eState]
    holds the wanted state: the last query that stored a state stored
    it, or no query stored any and the uninitialised variable held it
    from the start.  So a first query that fails and stores nothing
    makes the call return at once when the storage of [eState] happens
    to hold the wanted state: no query reported it, and no sleep was
    made. *)
Theorem block_until_state_changed_only_polls
    (fuel : nat) (h : OMX_HANDLETYPE) (s e0 : OMX_STATETYPE) (w : qworld hw) :
  (let out := block_until_state_changed fuel h s e0 w in
   exists X,
     q_calls (final_world out) = q_calls w ++ X
     /\ is_Died out = false
     /\ Forall (is_query_of h) X
     /\ (is_Returned out = true ->
         (exists pre r stored, X = pre ++ [Poll_GetState h r stored])
         /\ eState_after e0 X = s
         /\ (Exists (reported s) X \/ e0 = s)))
  /\ (forall r hw',
        hw_state_query h (q_hardware w) = (r, None, hw') ->
        e0 = s ->
        block_until_state_changed (S (S fuel)) h s e0 w =
        Returned tt (mk_qworld hw' (q_calls w ++ [Poll_GetState h r None]))).
Proof.
  split.
  - cbv zeta. unfold block_until_state_changed.
    destruct (state_query_loop_log h s fuel 0 e0 w) as (X & EX & HF & HD & HR).
    exists X. split; [exact EX |]. split; [exact HD |]. split; [exact HF |].
    intros HRet. destruct (HR HRet) as (Hafter & Hlast).
    split; [destruct Hlast as [(_ & Hi) | Hpre]; [discriminate | exact Hpre] |].
    split; [exact Hafter | apply eState_after_reported; exact Hafter].
  - intros r hw' Hq ->. unfold block_until_state_changed.
    rewrite state_query_loop_step. cbn [Z.eqb orb]. rewrite Hq. cbv zeta.
    rewrite (proj2 (OMX_STATETYPE_eqb_eq s s) eq_refl).
    rewrite state_query_loop_step.
    rewrite (proj2 (OMX_STATETYPE_eqb_eq s s) eq_refl). reflexivity.
Qed.

End StateQueryFacts.

(** On a layer whose state queries succeed and store what they report,
    the function is the one of the StateController above, whatever the
    storage of [eState] holds on entry. *)
Section AnsweringLayer.
Context {hw : Type} `{OMX_IL hw}.

Lemma answering_loop_agrees (h : OMX_HANDLETYPE) (s : OMX_STATETYPE) :
  forall fuel i e (w : world hw),
  @StateQuery.state_changed_loop hw StateQuery.answering fuel h s i e
    (StateQuery.as_answering w) =
  match state_changed_loop fuel h s i e w with
  | Returned a w' => Returned a (StateQuery.as_answering w')
  | Died d w' => Died d (StateQuery.as_answering w')
  | Spinning w' => Spinning (StateQuery.as_answering w')
  end.
Proof.
  induction fuel as [|fuel IH]; intros i e w; [reflexivity |].
  rewrite state_query_loop_step, state_changed_loop_step.
  destruct ((i =? 0) || negb (OMX_STATETYPE_eqb e s))%bool; [| reflexivity].
  cbn [StateQuery.hw_state_query StateQuery.hw_state_sleep StateQuery.answering
       StateQuery.as_answering StateQuery.q_hardware StateQuery.q_calls].
  destruct (hw_get_state h (hardware w)) as [e' hw']. cbv zeta.
  destruct (OMX_STATETYPE_eqb e' s).
  - rewrite <- IH. unfold StateQuery.as_answering. cbn [hardware calls].
    rewrite flat_map_app. reflexivity.
  - rewrite <- IH. unfold StateQuery.as_answering. cbn [hardware calls].
    rewrite !flat_map_app. reflexivity.
Qed.

Lemma answering_layer_agrees (fuel : nat) (h : OMX_HANDLETYPE) (s e0 : OMX_STATETYPE)
    (w : world hw) :
  @StateQuery.block_until_state_changed hw StateQuery.answering fuel h s e0
    (StateQuery.as_answering w) =
  match block_until_state_changed fuel h s w with
  | Returned a w' => Returned a (StateQuery.as_answering w')
  | Died d w' => Died d (StateQuery.as_answering w')
  | Spinning w' => Spinning (StateQuery.as_answering w')
  end.
Proof.
  unfold StateQuery.block_until_state_changed, block_until_state_changed.
  destruct fuel as [|fuel]; [reflexivity |].
  rewrite state_query_loop_step, state_changed_loop_step. cbn [Z.eqb orb].
  cbn [StateQuery.hw_state_query StateQuery.hw_state_sleep StateQuery.answering
       StateQuery.as_answering StateQuery.q_hardware StateQuery.q_calls].
  destruct (hw_get_state h (hardware w)) as [e' hw']. cbv zeta.
  destruct (OMX_STATETYPE_eqb e' s).
  - rewrite <- answering_loop_agrees. unfold StateQuery.as_answering. cbn [hardware calls].
    rewrite flat_map_app. reflexivity.
  - rewrite <- answering_loop_agrees. unfold StateQuery.as_answering. cbn [hardware calls].
    rewrite !flat_map_app. reflexivity.
Qed.

End AnsweringLayer.

(** ** The stride computed for the camera ports *)

Section StrideFacts.

Lemma land_clear_low (x k : Z) :
  0 <= k -> 0 <= x ->
  Z.land x (Z.lnot (2 ^ k - 1)) = 2 ^ k * (x / 2 ^ k).
Proof.
  intros Hk Hx.
  rewrite <- Z.ldiff_land.
  replace (2 ^ k - 1) with (Z.ones k) by (rewrite Z.ones_equiv; lia).
  rewrite Z.ldiff_ones_r by exact Hk.
  rewrite Z.shiftl_mul_pow2, Z.shiftr_div_pow2 by exact Hk. lia.
Qed.

(** X11. For a buffer alignment that is a power of two, the stride
    [main] and [camera_param_set] compute is the frame width rounded up
    to the alignment: the least multiple of the alignment that is not
    below the width.  For a port that reports alignment 0 the stride
    comes out as 0, whatever the width. *)
Theorem nStride_of_rounds_up (width k : Z) :
  0 <= k <= 30 -> 0 <= width -> width + 2 ^ k <= 2 ^ 31 ->
  let stride := nStride_of width (2 ^ k) in
  stride mod 2 ^ k = 0
  /\ width <= stride < width + 2 ^ k
  /\ (forall m, m mod 2 ^ k = 0 -> width <= m -> stride <= m)
  /\ nStride_of width 0 = 0.
Proof.
  intros Hk Hw Hfit. cbv zeta.
  assert (Hpos : 0 < 2 ^ k) by (apply Z.pow_pos_nonneg; lia).
  assert (Hstride : nStride_of width (2 ^ k) = 2 ^ k * ((width + 2 ^ k - 1) / 2 ^ k)).
  { unfold nStride_of.
    rewrite (u32_id (width + 2 ^ k)) by lia.
    rewrite (u32_id (width + 2 ^ k - 1)) by lia.
    rewrite (u32_id (2 ^ k - 1)) by lia.
    unfold u32 at 1. rewrite <- Z.land_ones by lia.
    rewrite Z.land_assoc, (Z.land_comm _ (Z.lnot _)), <- Z.land_assoc.
    rewrite Z.land_ones by lia.
    rewrite (Z.mod_small (width + 2 ^ k - 1)) by lia.
    rewrite Z.land_comm, land_clear_low by lia.
    apply int32_id.
    pose proof (Z.mul_div_le (width + 2 ^ k - 1) (2 ^ k) Hpos). 
    pose proof (Z.div_pos (width + 2 ^ k - 1) (2 ^ k)). nia. }
  rewrite Hstride.
  assert (Hnz : 2 ^ k <> 0) by lia.
  pose proof (Z.div_mod (width + 2 ^ k - 1) (2 ^ k) Hnz) as Hdm.
  pose proof (Z.mod_pos_bound (width + 2 ^ k - 1) (2 ^ k) Hpos) as Hb.
  split; [rewrite Z.mul_comm; apply Z.mod_mul; lia |].
  split; [lia |]. split.
  - intros m Hm Hwm.
    apply Z.mod_divide in Hm; [| lia]. destruct Hm as [q ->].
    assert ((width + 2 ^ k - 1) / 2 ^ k < q + 1); [| nia].
    apply Z.div_lt_upper_bound; [exact Hpos |]. nia.
  - unfold nStride_of.
    replace (u32 (0 - 1)) with (2 ^ 32 - 1) by reflexivity.
    replace (u32 (Z.lnot (2 ^ 32 - 1))) with 0 by reflexivity.
    rewrite Z.land_0_r. reflexivity.
Qed.

End StrideFacts.

(** ** The context [main] starts from *)

Section ContextFacts.
Import Layout.

(** X12. In [main] the context is completely initialised when the
    component handles are requested: every byte of it is zero except
    the bytes of [handler_lock], which hold the created semaphore; in
    particular the flags [camera.ready], [encoder.ready] and [flushed]
    read as 0.  The [memset] of the registration step changes no byte
    there.  In the rearranged sources the same [memset], run after
    [common_context_init], does change the context. *)
Theorem main_context_initialised (a : abi) :
  In a [ILP32; LP64] ->
  let m := main_init a in
  ctx_registered m = ctx_initialised m
  /\ ctx_registered m =
     store (static (struct_size (appctx a)))
           (field_offset (appctx a) "handler_lock") (sem_size a) "handler_lock, count 1"
  /\ Forall (fun name =>
               field_bytes (appctx a) name (ctx_registered m) =
               repeat (Byte 0) (field_size (appctx a) name))
            ["camera"; "encoder"; "null_sink"; "flushed"; "fd_out"]%string
  /\ ctx_registered (rearranged_init a) <> ctx_initialised (rearranged_init a).
Proof.
  intros [<- | [<- | []]]; cbv zeta.
  - split; [reflexivity |]. split; [reflexivity |].
    split; [repeat constructor |]. vm_compute. discriminate.
  - split; [reflexivity |]. split; [reflexivity |].
    split; [repeat constructor |]. vm_compute. discriminate.
Qed.

End ContextFacts.

(** ** Strings built in character arrays *)

Section StringFacts.
Import CStr.

Lemma chars_no_nul (s : string) : no_nul (chars s).
Proof.
  induction s as [|c s IH]; cbn [chars]; [constructor |].
  destruct (Ascii.eqb c NUL) eqn:E; [constructor | constructor; assumption].
Qed.

Lemma no_nul_firstn (n : nat) (cs : list Ascii.ascii) : no_nul cs -> no_nul (firstn n cs).
Proof.
  unfold no_nul. intros H. revert n.
  induction H as [|c cs Hc _ IH]; intros [|n]; cbn [firstn]; constructor; auto.
Qed.

Lemma no_nul_app (cs ds : list Ascii.ascii) : no_nul cs -> no_nul ds -> no_nul (cs ++ ds).
Proof. intros. apply Forall_app. auto. Qed.

Lemma held_terminated (cs rest : list Ascii.ascii) :
  no_nul cs -> held (cs ++ NUL :: rest) = cs.
Proof.
  induction 1 as [|c cs Hc _ IH]; cbn [app held]; [reflexivity |].
  rewrite Hc, IH. reflexivity.
Qed.

Lemma strlen_terminated (cs rest : list Ascii.ascii) :
  no_nul cs -> strlen (cs ++ NUL :: rest) = Some (length cs).
Proof.
  induction 1 as [|c cs Hc _ IH]; cbn [app strlen length]; [reflexivity |].
  rewrite Hc, IH. reflexivity.
Qed.

Lemma strnlen_terminated (cs rest : list Ascii.ascii) (maxlen : nat) :
  no_nul cs -> (length cs < maxlen)%nat ->
  strnlen (cs ++ NUL :: rest) maxlen = length cs.
Proof.
  intros H. revert maxlen.
  induction H as [|c cs Hc _ IH]; intros [|n] Hn; cbn [app strnlen length] in *;
    try lia; [reflexivity |].
  rewrite Hc, IH by lia. reflexivity.
Qed.

(** A string in an array that is zero from the end of the string on. *)
Lemma strlen_padded (pre : list Ascii.ascii) (k : nat) :
  no_nul pre -> (1 <= k)%nat -> strlen (pre ++ repeat NUL k) = Some (length pre).
Proof.
  intros Hpre Hk. destruct k as [|k]; [lia |]. apply strlen_terminated, Hpre.
Qed.

Lemma held_padded (pre : list Ascii.ascii) (k : nat) :
  no_nul pre -> (1 <= k)%nat -> held (pre ++ repeat NUL k) = pre.
Proof.
  intros Hpre Hk. destruct k as [|k]; [lia |]. apply held_terminated, Hpre.
Qed.

Lemma skipn_repeat_same {A} (x : A) (n k : nat) :
  skipn n (repeat x k) = repeat x (k - n).
Proof.
  revert k. induction n as [|n IH]; intros k; [rewrite Nat.sub_0_r; reflexivity |].
  destruct k as [|k]; [reflexivity | apply IH].
Qed.

Lemma firstn_repeat_same {A} (x : A) (n k : nat) :
  firstn n (repeat x k) = repeat x (Nat.min n k).
Proof.
  revert k. induction n as [|n IH]; intros k; [reflexivity |].
  destruct k as [|k]; [reflexivity |]. cbn. rewrite IH. reflexivity.
Qed.

Lemma store_string_padded (pre cs : list Ascii.ascii) (k : nat) :
  store_string (pre ++ repeat NUL k) (length pre) cs =
  if (length cs + 1 <=? k)%nat
  then Some ((pre ++ cs) ++ repeat NUL (k - length cs))
  else None.
Proof.
  unfold store_string. rewrite length_app, repeat_length.
  destruct (length cs + 1 <=? k)%nat eqn:E.
  - replace (length pre + length cs + 1 <=? length pre + k)%nat with true
      by (symmetry; apply Nat.leb_le; apply Nat.leb_le in E; lia).
    apply Nat.leb_le in E. f_equal.
    rewrite firstn_app, firstn_all, Nat.sub_diag, firstn_O, app_nil_r.
    rewrite skipn_app, skipn_all2 by lia. cbn [app].
    replace (length pre + length cs + 1 - length pre)%nat with (length cs + 1)%nat by lia.
    rewrite skipn_repeat_same.
    replace (k - length cs)%nat with (S (k - (length cs + 1))) by lia.
    cbn [repeat]. rewrite <- app_assoc. reflexivity.
  - replace (length pre + length cs + 1 <=? length pre + k)%nat with false
      by (symmetry; apply Nat.leb_gt; apply Nat.leb_gt in E; lia).
    reflexivity.
Qed.

Lemma strcat_padded (pre cs : list Ascii.ascii) (k : nat) :
  no_nul pre -> (1 <= k)%nat ->
  strcat (pre ++ repeat NUL k) cs =
  if (length cs + 1 <=? k)%nat
  then Some ((pre ++ cs) ++ repeat NUL (k - length cs))
  else None.
Proof.
  intros Hpre Hk. unfold strcat.
  rewrite strlen_padded by assumption. apply store_string_padded.
Qed.

(** X13. The name [init_component_handle] asks the layer for.  In
    part_000 it is "OMX.broadcom." followed by at most the first 12
    characters of the component's name: longer names are cut, and the
    32-character array is never overrun.  In the rearranged sources
    the name is appended whole: it is kept in full when it has at most
    50 characters, and a longer one overruns the 64-character array. *)
Theorem fullname_of_component (name : string) :
  (exists buf,
     fullname_bounded (chars name) = Some buf /\ length buf = 32%nat /\
     held buf = chars "OMX.broadcom." ++ firstn 12 (chars name))
  /\
  ((length (chars name) <= 50)%nat ->
   exists buf,
     fullname_unbounded (chars name) = Some buf /\ length buf = 64%nat /\
     held buf = chars "OMX.broadcom." ++ chars name)
  /\
  ((50 < length (chars name))%nat -> fullname_unbounded (chars name) = None).
Proof.
  pose proof (chars_no_nul name) as Hname.
  set (cs := chars name) in *. clearbody cs.
  unfold fullname_bounded, fullname_unbounded.
  pose proof (chars_no_nul "OMX.broadcom.") as HP.
  assert (HlP : length (chars "OMX.broadcom.") = 13%nat) by reflexivity.
  set (P := chars "OMX.broadcom.") in *. clearbody P.
  assert (Hfirst : forall size, (14 <= size)%nat ->
            strcat (zeroed size) P = Some (P ++ repeat NUL (size - 13))).
  { intros size Hsize.
    change (zeroed size) with ([] ++ repeat NUL size).
    rewrite strcat_padded by (try constructor; lia).
    replace (length P + 1 <=? size)%nat with true by (symmetry; apply Nat.leb_le; lia).
    rewrite HlP. reflexivity. }
  split; [| split].
  - rewrite Hfirst by lia. cbv beta iota.
    rewrite strlen_padded by (try assumption; lia). rewrite HlP.
    change (size_sub 13 1) with 12%nat.
    unfold strncat. rewrite strlen_padded by (try assumption; lia).
    rewrite store_string_padded.
    pose proof (firstn_le_length 12 cs) as Hlen.
    replace (length (firstn 12 cs) + 1 <=? 32 - 13)%nat with true
      by (symmetry; apply Nat.leb_le; lia).
    eexists. split; [reflexivity |]. split.
    + rewrite !length_app, repeat_length. lia.
    + apply held_padded; [| lia].
      apply no_nul_app; [exact HP | apply no_nul_firstn, Hname].
  - intros Hlen. rewrite Hfirst by lia. cbv beta iota.
    rewrite strcat_padded by (try assumption; lia).
    replace (length cs + 1 <=? 64 - 13)%nat with true
      by (symmetry; apply Nat.leb_le; lia).
    eexists. split; [reflexivity |]. split.
    + rewrite !length_app, repeat_length. lia.
    + apply held_padded; [| lia]. apply no_nul_app; assumption.
  - intros Hlen. rewrite Hfirst by lia. cbv beta iota.
    rewrite strcat_padded by (try assumption; lia).
    replace (length cs + 1 <=? 64 - 13)%nat with false
      by (symmetry; apply Nat.leb_gt; lia).
    reflexivity.
Qed.

Lemma strnlen_padded (pre : list Ascii.ascii) (k maxlen : nat) :
  no_nul pre -> (1 <= k)%nat -> (length pre < maxlen)%nat ->
  strnlen (pre ++ repeat NUL k) maxlen = length pre.
Proof.
  intros Hpre Hk Hlen. destruct k as [|k]; [lia |].
  apply strnlen_terminated; assumption.
Qed.

Lemma nth_error_last {A} (t r : list A) (d : A) :
  t <> [] -> nth_error (t ++ r) (length t - 1) = Some (last t d).
Proof.
  induction t as [|x t IH]; intros Ht; [contradiction |].
  destruct t as [|y t]; [reflexivity |].
  cbn [length Nat.sub] in *. rewrite Nat.sub_0_r in *.
  change (nth_error ((x :: y :: t) ++ r) (S (length t))) with
    (nth_error ((y :: t) ++ r) (length t)).
  rewrite IH by discriminate. reflexivity.
Qed.

Lemma size_sub_small (a b : nat) :
  (b <= a)%nat -> Z.of_nat a < 2 ^ 32 -> size_sub a b = (a - b)%nat.
Proof.
  intros Hb Ha. unfold size_sub. rewrite Z.mod_small by lia. lia.
Qed.

(** X14. What [say] prints.  For a message that expands to at least
    one character, the string handed to [fprintf] is the first 1022
    characters of the expansion, followed by a newline unless they end
    in one already; it is at most 1023 characters long, so it is
    terminated inside the 1024-character array, and it always ends in a
    newline.  For a message that expands to nothing, [say] looks at
    [str[str_len - 1]] with [str_len] zero, outside the array. *)
Theorem say_str_text (expansion : string) :
  let text := chars expansion in
  (text = [] -> say_str text = None)
  /\ (text <> [] ->
      exists str,
        say_str text = Some str /\ length str = 1024%nat /\
        held str =
          firstn 1022 text ++
          (if ends_in_newline (firstn 1022 text) then [] else [newline]) /\
        (length (held str) <= 1023)%nat /\
        ends_in_newline (held str) = true).
Proof.
  cbv zeta. pose proof (chars_no_nul expansion) as Htext.
  set (text := chars expansion) in *. clearbody text.
  assert (Hstr : snprintf (zeroed 1024) (1024 - 1) text =
                 Some (firstn 1022 text ++ repeat NUL (1024 - length (firstn 1022 text)))).
  { change (1024 - 1)%nat with (S 1022). cbn [snprintf]. unfold zeroed.
    pose proof (store_string_padded [] (firstn 1022 text) 1024) as Hs.
    cbn [app length] in Hs. rewrite Hs.
    pose proof (firstn_le_length 1022 text).
    replace (length (firstn 1022 text) + 1 <=? 1024)%nat with true
      by (symmetry; apply Nat.leb_le; lia).
    reflexivity. }
  unfold say_str. rewrite Hstr. cbv zeta.
  pose proof (firstn_le_length 1022 text) as Hn.
  pose proof (no_nul_firstn 1022 text Htext) as Ht.
  set (t := firstn 1022 text) in *.
  rewrite strnlen_padded by (try assumption; lia).
  split.
  - intros ->. subst t. cbn [firstn length].
    unfold peek.
    replace (nth_error _ _) with (@None Ascii.ascii); [reflexivity |].
    symmetry. apply nth_error_None.
    rewrite length_app, repeat_length. cbn [length app].
    unfold size_sub. change ((Z.of_nat 0 - Z.of_nat 1) mod 2 ^ 32) with 4294967295. lia.
  - intros Hne.
    assert (Htne : t <> []).
    { subst t. destruct text; [contradiction | discriminate]. }
    assert (Hlen : (1 <= length t)%nat).
    { destruct t; [contradiction | cbn; lia]. }
    rewrite size_sub_small by lia.
    unfold peek. rewrite (nth_error_last t _ NUL Htne).
    unfold ends_in_newline at 1.
    destruct (Ascii.eqb (last t NUL) newline) eqn:Elast; cbn [negb].
    + eexists. split; [reflexivity |]. split.
      * rewrite length_app, repeat_length. lia.
      * rewrite held_padded by (try assumption; lia).
        rewrite app_nil_r. split; [reflexivity |]. split; [lia | exact Elast].
    + unfold poke. rewrite length_app, repeat_length.
      replace (length t <? length t + (1024 - length t))%nat with true
        by (symmetry; apply Nat.ltb_lt; lia).
      eexists. split; [reflexivity |].
      rewrite firstn_app, firstn_all, Nat.sub_diag, firstn_O, app_nil_r.
      rewrite skipn_app, skipn_all2 by lia. cbn [app].
      replace (S (length t) - length t)%nat with 1%nat by lia.
      rewrite skipn_repeat_same.
      split.
      * rewrite length_app. cbn [length]. rewrite repeat_length. lia.
      * assert (Hheld : held (t ++ newline :: repeat NUL (1024 - length t - 1)) =
                        t ++ [newline]).
        { change (t ++ newline :: ?r) with (t ++ [newline] ++ r).
          rewrite app_assoc. apply held_padded; [| lia].
          apply no_nul_app; [exact Ht | repeat constructor]. }
        rewrite Hheld. split; [reflexivity |]. split.
        -- rewrite length_app. cbn [length]. lia.
        -- unfold ends_in_newline. rewrite last_last. reflexivity.
Qed.

Lemma hex_digit_no_nul (d : Z) : Ascii.eqb (hex_digit d) NUL = false.
Proof.
  unfold hex_digit. generalize (Z.to_nat d). intros n.
  do 16 (destruct n as [|n]; [reflexivity |]).
  destruct n; reflexivity.
Qed.

Lemma hex_no_nul (n : nat) : forall z, no_nul (hex n z).
Proof.
  induction n as [|n IH]; intros z; cbn [hex]; [constructor |].
  apply no_nul_app; [apply IH |]. constructor; [apply hex_digit_no_nul | constructor].
Qed.

Lemma hex_length (n : nat) : forall z, length (hex n z) = n.
Proof.
  induction n as [|n IH]; intros z; cbn [hex]; [reflexivity |].
  rewrite length_app, IH. cbn. lia.
Qed.

Lemma switch_case_default {A : Type} (c : Z) (cases : list (Z * A)) :
  ~ In c (map fst cases) -> switch_case c cases = None.
Proof.
  induction cases as [|[v r] cases IH]; intros Hc; [reflexivity |].
  cbn [switch_case]. cbn [map fst In] in Hc.
  destruct (c =? v) eqn:E.
  - apply Z.eqb_eq in E. exfalso. apply Hc. left. symmetry. exact E.
  - apply IH. intros Hin. apply Hc. right. exact Hin.
Qed.

(** X15. The name [dump_compression_format] gives to a coding type
    that is none of the sixteen it has a case for.  The eight
    hexadecimal digits of the value need 22 characters after
    "format type 0x"; [snprintf] is given a size of 22 and stores 21, so
    the text ends after the seventh digit and the last digit is lost:
    two such types that differ only in it get the same name.  The 23
    characters allocated are not overrun.  When [calloc] fails the
    process is ended.  A type the function has a case for gets the
    name of its case, and nothing is allocated. *)
Theorem unknown_format_loses_last_digit {St : Type} (c : OMX_VIDEO_CODINGTYPE) (s : St) :
  ~ In c (map fst compression_format_cases) ->
  dump_compression_format true c s =
    Returned (Some (chars "format type 0x" ++ hex 7 ((c mod 2 ^ 32) / 16))) s
  /\ dump_compression_format false c s =
     Died (Fatal 1 None "Failed to allocate memory") s
  /\ (forall c',
        ~ In c' (map fst compression_format_cases) ->
        (c' mod 2 ^ 32) / 16 = (c mod 2 ^ 32) / 16 ->
        dump_compression_format true c' s = dump_compression_format true c s)
  /\ (forall v name calloc_succeeds,
        In (v, name) compression_format_cases ->
        dump_compression_format calloc_succeeds v s = Returned (Some (chars name)) s).
Proof.
  intros Hc.
  assert (Hname : forall z,
            option_map held
              (snprintf (zeroed 23) (23 * 1 - 1) (chars "format type 0x" ++ hex 8 z)) =
            Some (chars "format type 0x" ++ hex 7 (z / 16))).
  { intros z. change (23 * 1 - 1)%nat with (S 21). cbn [snprintf].
    change (hex 8 z) with (hex 7 (z / 16) ++ [hex_digit (z mod 16)]).
    pose proof (hex_length 7 (z / 16)) as Hl.
    pose proof (hex_no_nul 7 (z / 16)) as Hn.
    set (digits := hex 7 (z / 16)) in *. clearbody digits.
    pose proof (chars_no_nul "format type 0x") as HP.
    assert (HlP : length (chars "format type 0x") = 14%nat) by reflexivity.
    set (P := chars "format type 0x") in *. clearbody P.
    assert (Hcut : firstn 21 (P ++ digits ++ [hex_digit (z mod 16)]) = P ++ digits).
    { rewrite app_assoc, firstn_app, firstn_all2 by (rewrite length_app; lia).
      rewrite length_app, HlP, Hl. cbn [Nat.sub firstn]. apply app_nil_r. }
    rewrite Hcut. unfold zeroed.
    pose proof (store_string_padded [] (P ++ digits) 23) as Hs.
    cbn [app length] in Hs. rewrite Hs.
    replace (length (P ++ digits) + 1 <=? 23)%nat with true
      by (symmetry; apply Nat.leb_le; rewrite length_app; lia).
    cbn [option_map]. f_equal.
    apply held_padded; [apply no_nul_app; assumption | rewrite length_app; lia]. }
  assert (Hdefault : forall z b,
            ~ In z (map fst compression_format_cases) ->
            @dump_compression_format St b z s =
            if b then Returned (Some (chars "format type 0x" ++ hex 7 ((z mod 2 ^ 32) / 16))) s
            else Died (Fatal 1 None "Failed to allocate memory") s).
  { intros z b Hz. unfold dump_compression_format.
    rewrite (switch_case_default z _ Hz).
    unfold calloc, printf_08x, ret, die. destruct b; [rewrite Hname |]; reflexivity. }
  split; [exact (Hdefault c true Hc) |]. split; [exact (Hdefault c false Hc) |]. split.
  - intros c' Hc' E. rewrite (Hdefault c' true Hc'), (Hdefault c true Hc), E. reflexivity.
  - intros v name b Hin. cbn [compression_format_cases In] in Hin.
    repeat (destruct Hin as [[= <- <-] | Hin]; [reflexivity |]). contradiction.
Qed.

End StringFacts.

(** ** Acquiring a component *)

Section SetupFacts.
Import Setup.
Context {hw : Type} `{OMX_IL hw} `{OMX_Core hw}.

Lemma il_calls_app (l l' : list step) : il_calls (l ++ l') = il_calls l ++ il_calls l'.
Proof.
  induction l as [|s l IH]; [reflexivity |]. destruct s; cbn; rewrite IH; reflexivity.
Qed.

Lemma handle_requests_app (l l' : list step) :
  handle_requests (l ++ l') = handle_requests l ++ handle_requests l'.
Proof.
  induction l as [|s l IH]; [reflexivity |]. destruct s; cbn; rewrite IH; reflexivity.
Qed.

Lemma group_queries_app (l l' : list step) :
  group_queries (l ++ l') = group_queries l ++ group_queries l'.
Proof.
  induction l as [|s l IH]; [reflexivity |]. destruct s; cbn; rewrite IH; reflexivity.
Qed.

Lemma readers_of_calls (X : list call) :
  il_calls (map IL X) = X /\ handle_requests (map IL X) = [] /\
  group_queries (map IL X) = [].
Proof.
  induction X as [|c X (IH1 & IH2 & IH3)]; [auto |]. cbn. rewrite IH1. auto.
Qed.

(** The wait on a port, run in a session. *)
Lemma lift_block_until_port_changed (fuel : nat) (h : OMX_HANDLETYPE) (port : Z)
    (b : OMX_BOOL) (x : session hw) :
  exists X,
    steps (final_world (lift (block_until_port_changed fuel h port b) x)) =
      steps x ++ map IL X /\
    (is_Returned (lift (block_until_port_changed fuel h port b) x) = true ->
     exists pre, X = pre ++ [Call_GetParameter h port OMX_ErrorNone b] /\
                 Forall (is_port_poll h port) pre).
Proof.
  unfold lift, block_until_port_changed.
  match goal with |- context [port_changed_loop fuel h b ?i ?pd ?w] =>
    destruct (port_changed_loop_queries h b fuel i pd w) as (X & EX & HQ);
    destruct (port_changed_loop_log h b fuel i pd w) as (X' & EX' & HX');
    assert (X' = X) by (rewrite EX in EX'; apply app_inv_head in EX'; congruence);
    subst X';
    destruct (port_changed_loop fuel h b i pd w) as [[] w2 | d w2 | w2]
  end;
  cbn [final_world calls app nPortIndex set_nPortIndex] in *;
  exists X; cbv zeta; cbn [final_world steps is_Returned]; rewrite EX;
  (split; [reflexivity |]); try discriminate.
  intros _. destruct HX' as [(_ & Hi & _) | (pre & -> & Hpre)]; [discriminate |].
  exists pre. split; [reflexivity |].
  apply Forall_app in HQ. destruct HQ as [HQ _].
  apply is_port_poll_of_query; assumption.
Qed.

Lemma port_numbers_step (a b : Z) :
  a < b -> port_numbers a b = a :: port_numbers (a + 1) b.
Proof.
  intros Hab. unfold port_numbers.
  replace (Z.to_nat (b - a)) with (S (Z.to_nat (b - (a + 1)))) by lia.
  cbn [seq map]. rewrite <- seq_shift, map_map. f_equal; [lia |].
  apply map_ext. intros i. lia.
Qed.

Lemma port_numbers_empty (a b : Z) : b <= a -> port_numbers a b = [].
Proof.
  intros Hab. unfold port_numbers. replace (Z.to_nat (b - a)) with 0%nat by lia.
  reflexivity.
Qed.

Lemma disable_ports_loop_step (fuel : nat) (h : OMX_HANDLETYPE)
    (fullname : list Ascii.ascii) (ports : OMX_PORT_PARAM_TYPE) (p : Z) (x : session hw) :
  disable_ports_loop (S fuel) h fullname ports p x =
  if p <? u32 (nStartPortNumber ports + nPorts ports) then
    let '(r, hw1) := hw_send_command h OMX_CommandPortDisable p (layer x) in
    let x2 :=
      mk_session hw1
        (steps x ++
         [Say "Disabling port %d of component %s" [Arg_int p; Arg_str fullname];
          IL (Call_SendCommand h OMX_CommandPortDisable p r)]) in
    if r =? OMX_ErrorNone then
      match lift (block_until_port_changed fuel h p OMX_FALSE) x2 with
      | Returned _ x3 => disable_ports_loop fuel h fullname ports (u32 (p + 1)) x3
      | Died d x3 => Died d x3
      | Spinning x3 => Spinning x3
      end
    else Died (Fatal 1 (Some r) "Failed to disable port %d of component %s") x2
  else Returned tt x.
Proof.
  cbn [disable_ports_loop].
  destruct (p <? u32 (nStartPortNumber ports + nPorts ports)); [| reflexivity].
  unfold bind at 1, say at 1. unfold bind at 1, lift at 1, OMX_SendCommand.
  cbn [layer steps hardware calls].
  destruct (hw_send_command h OMX_CommandPortDisable p (layer x)) as [r hw1].
  cbn [final_world hardware calls app map]. rewrite <- app_assoc. cbn [app].
  destruct (r =? OMX_ErrorNone); unfold bind at 1; cbn [negb when ret omx_die];
    reflexivity.
Qed.

Lemma disable_ports_loop_log (h : OMX_HANDLETYPE) (fullname : list Ascii.ascii)
    (ports : OMX_PORT_PARAM_TYPE) :
  forall fuel p x,
  0 <= p ->
  exists new,
    steps (final_world (disable_ports_loop fuel h fullname ports p x)) = steps x ++ new /\
    handle_requests new = [] /\ group_queries new = [] /\
    (is_Returned (disable_ports_loop fuel h fullname ports p x) = true ->
     exists segs,
       il_calls new = concat segs /\
       Forall2 (port_confirmed OMX_CommandPortDisable OMX_FALSE)
               (map (fun q => (h, q, ""%string))
                    (port_numbers p (u32 (nStartPortNumber ports + nPorts ports))))
               segs).
Proof.
  assert (Hbound : u32 (nStartPortNumber ports + nPorts ports) < 2 ^ 32)
    by (apply Z.mod_pos_bound; lia).
  induction fuel as [|fuel IH]; intros p x Hp.
  - exists []. cbn. rewrite app_nil_r. repeat split; auto. discriminate.
  - rewrite disable_ports_loop_step.
    set (bound := u32 (nStartPortNumber ports + nPorts ports)) in *.
    destruct (p <? bound) eqn:Elt.
    + apply Z.ltb_lt in Elt.
      destruct (hw_send_command h OMX_CommandPortDisable p (layer x)) as [r hw1].
      cbv zeta.
      destruct (r =? OMX_ErrorNone) eqn:Er.
      * apply Z.eqb_eq in Er. subst r.
        match goal with |- context [lift ?w ?x2] =>
          destruct (lift_block_until_port_changed fuel h p OMX_FALSE x2) as (X & EX & HX);
          destruct (lift w x2) as [[] x3 | d x3 | x3]
        end; cbn [final_world steps is_Returned] in EX, HX |- *.
        -- destruct (HX eq_refl) as (pre & -> & Hpre).
           rewrite u32_id by lia.
           destruct (IH (p + 1) x3) as (new' & Enew & Hh & Hg & Hret); [lia |].
           destruct (readers_of_calls (pre ++ [Call_GetParameter h p OMX_ErrorNone OMX_FALSE]))
             as (R1 & R2 & R3).
           eexists. split; [rewrite Enew, EX, <- !app_assoc; cbn [app]; reflexivity |].
           split; [cbn [handle_requests]; rewrite handle_requests_app, R2, Hh; reflexivity |].
           split; [cbn [group_queries]; rewrite group_queries_app, R3, Hg; reflexivity |].
           intros HR. destruct (Hret HR) as (segs & Esegs & Hsegs).
           exists ((Call_SendCommand h OMX_CommandPortDisable p OMX_ErrorNone
                      :: pre ++ [Call_GetParameter h p OMX_ErrorNone OMX_FALSE]) :: segs).
           split.
           ++ cbn [il_calls concat]. rewrite il_calls_app, R1, Esegs. reflexivity.
           ++ rewrite port_numbers_step by exact Elt. cbn [map].
              constructor; [exists pre; auto | exact Hsegs].
        -- eexists. split; [rewrite EX, <- !app_assoc; cbn [app]; reflexivity |].
           destruct (readers_of_calls X) as (R1 & R2 & R3).
           cbn [handle_requests group_queries]. rewrite R2, R3.
           repeat split; auto. discriminate.
        -- eexists. split; [rewrite EX, <- !app_assoc; cbn [app]; reflexivity |].
           destruct (readers_of_calls X) as (R1 & R2 & R3).
           cbn [handle_requests group_queries]. rewrite R2, R3.
           repeat split; auto. discriminate.
      * eexists. cbn [final_world steps].
        split; [reflexivity |].
        repeat split; auto. discriminate.
    + apply Z.ltb_ge in Elt. exists []. cbn. rewrite app_nil_r.
      repeat split; auto. intros _. exists []. split; [reflexivity |].
      rewrite port_numbers_empty by exact Elt. constructor.
Qed.

Lemma disable_port_groups_step (fuel : nat) (h : OMX_HANDLETYPE)
    (fullname : list Ascii.ascii) (index : OMX_INDEXTYPE) (indices : list OMX_INDEXTYPE)
    (x : session hw) :
  disable_port_groups fuel h fullname (index :: indices) x =
  let '(r, ports, hw1) := hw_get_ports h index (layer x) in
  let x1 := mk_session hw1 (steps x ++ [GetPorts h index r ports]) in
  if r =? OMX_ErrorNone then
    match disable_ports_loop fuel h fullname ports (u32 (nStartPortNumber ports)) x1 with
    | Returned _ x2 => disable_port_groups fuel h fullname indices x2
    | Died d x2 => Died d x2
    | Spinning x2 => Spinning x2
    end
  else disable_port_groups fuel h fullname indices x1.
Proof.
  cbn [disable_port_groups]. unfold bind at 1, OMX_GetParameter.
  destruct (hw_get_ports h index (layer x)) as [[r ports] hw1].
  cbn [fst snd]. unfold bind at 1.
  destruct (r =? OMX_ErrorNone); reflexivity.
Qed.

Lemma disable_port_groups_log (fuel : nat) (h : OMX_HANDLETYPE)
    (fullname : list Ascii.ascii) :
  forall indices x,
  exists new,
    steps (final_world (disable_port_groups fuel h fullname indices x)) = steps x ++ new /\
    handle_requests new = [] /\
    (is_Returned (disable_port_groups fuel h fullname indices x) = true ->
     map (fun q => (fst (fst (fst q)), snd (fst (fst q)))) (group_queries new) =
       map (pair h) indices /\
     exists segs,
       il_calls new = concat segs /\
       Forall2 (port_confirmed OMX_CommandPortDisable OMX_FALSE)
               (map (fun q => (h, q, ""%string))
                    (flat_map ports_reported (group_queries new)))
               segs).
Proof.
  induction indices as [|index indices IH]; intros x.
  - exists []. cbn. rewrite app_nil_r. repeat split; auto.
    exists []. split; [reflexivity | constructor].
  - rewrite disable_port_groups_step.
    destruct (hw_get_ports h index (layer x)) as [[r ports] hw1]. cbv zeta.
    destruct (r =? OMX_ErrorNone) eqn:Er.
    + match goal with |- context [disable_ports_loop fuel h fullname ports ?p ?x1] =>
        destruct (disable_ports_loop_log h fullname ports fuel p x1)
          as (new1 & E1 & Hh1 & Hg1 & Hret1);
        [apply Z.mod_pos_bound; lia |];
        destruct (disable_ports_loop fuel h fullname ports p x1) as [[] x2 | d x2 | x2]
      end; cbn [final_world steps is_Returned] in E1, Hret1 |- *.
      * destruct (IH x2) as (new2 & E2 & Hh2 & Hret2).
        exists (GetPorts h index r ports :: new1 ++ new2).
        split; [rewrite E2, E1, <- !app_assoc; reflexivity |].
        split; [cbn [handle_requests]; rewrite handle_requests_app, Hh1, Hh2; reflexivity |].
        intros HR. destruct (Hret2 HR) as (Hq2 & segs2 & Es2 & Hs2).
        destruct (Hret1 eq_refl) as (segs1 & Es1 & Hs1).
        cbn [group_queries]. rewrite group_queries_app, Hg1. cbn [app map fst snd].
        split; [rewrite Hq2; reflexivity |].
        exists (segs1 ++ segs2). split.
        -- cbn [il_calls]. rewrite il_calls_app, Es1, Es2, concat_app. reflexivity.
        -- cbn [flat_map ports_reported]. rewrite Er, map_app.
           apply Forall2_app; assumption.
      * exists (GetPorts h index r ports :: new1).
        split; [rewrite E1, <- !app_assoc; reflexivity |].
        split; [cbn [handle_requests]; exact Hh1 | discriminate].
      * exists (GetPorts h index r ports :: new1).
        split; [rewrite E1, <- !app_assoc; reflexivity |].
        split; [cbn [handle_requests]; exact Hh1 | discriminate].
    + match goal with |- context [disable_port_groups fuel h fullname indices ?x1] =>
        destruct (IH x1) as (new2 & E2 & Hh2 & Hret2) end.
      cbn [steps] in E2.
      exists (GetPorts h index r ports :: new2).
      split; [rewrite E2, <- !app_assoc; reflexivity |].
      split; [cbn [handle_requests]; exact Hh2 |].
      intros HR. destruct (Hret2 HR) as (Hq2 & segs2 & Es2 & Hs2).
      cbn [group_queries map fst snd flat_map ports_reported]. rewrite Er.
      split; [rewrite Hq2; reflexivity |].
      exists segs2. cbn [il_calls app]. auto.
Qed.

(** X16. [init_component_handle], once the name is built.  When it
    returns, it has asked the core once for a handle, by that name, and
    was given the handle it returns; it has queried the port groups of
    that handle in the order video (this first answer is not used),
    audio, video, image, other; and it has disabled, strictly one
    after the other, every port of every group whose query succeeded,
    a group's ports being walked from its start number upwards as
    32-bit numbers: for each, the command was accepted and the port was
    seen disabled before the next command was sent.  A group whose
    query fails is passed over.  When the core refuses the handle the
    process ends with the status of the refusal, and nothing else is
    asked of the layer. *)
Theorem init_component_handle_disables_ports
    (fuel : nat) (fullname : list Ascii.ascii) (x : session hw) :
  (forall h x',
     init_component_handle_named fuel fullname x = Returned h x' ->
     exists new q0 qs,
       steps x' = steps x ++ new /\
       handle_requests new = [(fullname, OMX_ErrorNone, h)] /\
       group_queries new = q0 :: qs /\
       map (fun q => (fst (fst (fst q)), snd (fst (fst q)))) (q0 :: qs) =
         map (pair h) (OMX_IndexParamVideoInit :: types) /\
       exists segs,
         il_calls new = concat segs /\
         Forall2 (port_confirmed OMX_CommandPortDisable OMX_FALSE)
                 (map (fun p => (h, p, ""%string)) (flat_map ports_reported qs))
                 segs)
  /\
  (forall r h hw',
     hw_get_handle fullname (layer x) = (r, h, hw') ->
     r <> OMX_ErrorNone ->
     init_component_handle_named fuel fullname x =
     Died (Fatal 1 (Some r) "Failed to get handle for component %s")
          (mk_session hw'
             (steps x ++ [Say "Initializing component %s" [Arg_str fullname];
                          GetHandle fullname r h]))).
Proof.
  assert (Estep :
    init_component_handle_named fuel fullname x =
    let '(r, h, hw1) := hw_get_handle fullname (layer x) in
    let x2 := mk_session hw1
                (steps x ++ [Say "Initializing component %s" [Arg_str fullname];
                             GetHandle fullname r h]) in
    if r =? OMX_ErrorNone then
      let '(r0, p0, hw2) := hw_get_ports h OMX_IndexParamVideoInit hw1 in
      let x3 := mk_session hw2 (steps x2 ++ [GetPorts h OMX_IndexParamVideoInit r0 p0]) in
      match disable_port_groups fuel h fullname types x3 with
      | Returned _ x4 => Returned h x4
      | Died d x4 => Died d x4
      | Spinning x4 => Spinning x4
      end
    else Died (Fatal 1 (Some r) "Failed to get handle for component %s") x2).
  { unfold init_component_handle_named.
    unfold bind at 1, say at 1. unfold bind at 1, OMX_GetHandle.
    cbn [layer steps].
    destruct (hw_get_handle fullname (layer x)) as [[r h] hw1].
    cbn [fst snd]. rewrite <- app_assoc. cbn [app].
    unfold bind at 1.
    destruct (r =? OMX_ErrorNone); cbn [negb when ret omx_die]; [| reflexivity].
    unfold bind at 1, OMX_GetParameter. cbn [layer steps].
    destruct (hw_get_ports h OMX_IndexParamVideoInit hw1) as [[r0 p0] hw2].
    unfold bind at 1.
    destruct (disable_port_groups fuel h fullname types _); reflexivity. }
  rewrite Estep. clear Estep. split.
  - intros h x' Hrun.
    destruct (hw_get_handle fullname (layer x)) as [[r h0] hw1]. cbv zeta in Hrun.
    destruct (r =? OMX_ErrorNone) eqn:Er; [| discriminate].
    apply Z.eqb_eq in Er. subst r.
    destruct (hw_get_ports h0 OMX_IndexParamVideoInit hw1) as [[r0 p0] hw2].
    match type of Hrun with context [disable_port_groups fuel h0 fullname types ?x3] =>
      destruct (disable_port_groups_log fuel h0 fullname types x3)
        as (new & Enew & Hh & Hret);
      destruct (disable_port_groups fuel h0 fullname types x3) as [[] x4 | d x4 | x4]
    end; try discriminate.
    injection Hrun as <- <-. cbn [final_world steps is_Returned] in Enew, Hret.
    destruct (Hret eq_refl) as (Hq & segs & Esegs & Hsegs).
    exists ([Say "Initializing component %s" [Arg_str fullname];
             GetHandle fullname OMX_ErrorNone h0;
             GetPorts h0 OMX_IndexParamVideoInit r0 p0] ++ new),
           (h0, OMX_IndexParamVideoInit, r0, p0), (group_queries new).
    split; [rewrite Enew, <- !app_assoc; reflexivity |].
    split; [cbn [app handle_requests]; rewrite Hh; reflexivity |].
    split; [reflexivity |].
    split; [cbn [map fst snd]; rewrite Hq; reflexivity |].
    exists segs. cbn [app il_calls]. auto.
  - intros r h hw' Eh Hr. rewrite Eh. cbv zeta.
    replace (r =? OMX_ErrorNone) with false by (symmetry; apply Z.eqb_neq; exact Hr).
    reflexivity.
Qed.

End SetupFacts.

(** *** Scenarios on the simulated layer *)

Lemma block_until_state_changed_returns_witness :
  exists w',
    block_until_state_changed 3 camera_handle OMX_StateIdle camera_told_idle =
      Returned tt w' /\
    calls w' =
      calls camera_told_idle ++
      state_polls camera_handle [OMX_StateExecuting] ++
      [Call_GetState camera_handle OMX_StateIdle].
Proof.
  apply (block_until_state_changed_returns camera_handle OMX_StateIdle
           [OMX_StateExecuting] 0 camera_told_idle).
  - reflexivity.
  - repeat constructor. discriminate.
  - cbn. lia.
Defined.

Lemma block_until_port_changed_settles_witness :
  (exists w',
     block_until_port_changed 3 encoder_handle 201 OMX_FALSE port_201_told_off =
       Returned tt w' /\
     calls w' =
       calls port_201_told_off ++ port_polls encoder_handle 201 [OMX_TRUE] ++
       [Call_GetParameter encoder_handle 201 OMX_ErrorNone OMX_FALSE])
  /\
  (exists w',
     block_until_port_changed 1 encoder_handle 999 OMX_FALSE port_201_told_off =
       Died (Fatal 1 (Some OMX_ErrorBadPortIndex) "Failed to get port definition") w' /\
     calls w' =
       calls port_201_told_off ++ port_polls encoder_handle 999 [] ++
       [Call_GetParameter encoder_handle 999 OMX_ErrorBadPortIndex 0]).
Proof.
  assert (Hoff : port_reports 2 encoder_handle 201 (hardware port_201_told_off) =
                 map (pair OMX_ErrorNone) [OMX_TRUE] ++ [(OMX_ErrorNone, OMX_FALSE)])
    by (vm_compute; reflexivity).
  assert (Hbad : port_reports 1 encoder_handle 999 (hardware port_201_told_off) =
                 map (pair OMX_ErrorNone) [] ++ [(OMX_ErrorBadPortIndex, 0)])
    by (vm_compute; reflexivity).
  assert (Hne : Forall (fun v' => v' <> OMX_FALSE) [OMX_TRUE])
    by (repeat constructor; discriminate).
  split.
  - apply (proj1 (block_until_port_changed_settles encoder_handle 201 OMX_FALSE
                    [OMX_TRUE] OMX_ErrorNone OMX_FALSE 0 port_201_told_off Hoff Hne
                    eq_refl));
      reflexivity.
  - apply (proj2 (block_until_port_changed_settles encoder_handle 999 OMX_FALSE
                    [] OMX_ErrorBadPortIndex 0 0 port_201_told_off Hbad
                    (Forall_nil _) eq_refl)).
    discriminate.
Defined.

Lemma block_until_state_changed_only_polls_witness :
  StateQuery.block_until_state_changed 2 camera_handle OMX_StateIdle OMX_StateIdle
    (StateQuery.mk_qworld tt []) =
  Returned tt
    (StateQuery.mk_qworld tt [StateQuery.Poll_GetState camera_handle OMX_ErrorHardware None]).
Proof.
  apply (proj2 (block_until_state_changed_only_polls 0 camera_handle OMX_StateIdle
                  OMX_StateIdle (StateQuery.mk_qworld tt []))); reflexivity.
Defined.

(** On the same layer, from any other content of the storage, the wait
    never returns. *)
Example stale_state_keeps_polling :
  is_Spinning
    (StateQuery.block_until_state_changed 200 camera_handle OMX_StateIdle OMX_StateLoaded
       (StateQuery.mk_qworld tt [])) = true.
Proof. vm_compute. reflexivity. Qed.


Lemma nStride_of_rounds_up_witness :
  nStride_of VIDEO_WIDTH (2 ^ 5) mod 2 ^ 5 = 0
  /\ VIDEO_WIDTH <= nStride_of VIDEO_WIDTH (2 ^ 5) < VIDEO_WIDTH + 2 ^ 5
  /\ (forall m, m mod 2 ^ 5 = 0 -> VIDEO_WIDTH <= m -> nStride_of VIDEO_WIDTH (2 ^ 5) <= m)
  /\ nStride_of VIDEO_WIDTH 0 = 0.
Proof.
  apply (nStride_of_rounds_up VIDEO_WIDTH 5); unfold VIDEO_WIDTH; lia.
Defined.

Lemma main_context_initialised_witness :
  Layout.ctx_registered (Layout.main_init Layout.ILP32) =
  Layout.ctx_initialised (Layout.main_init Layout.ILP32).
Proof.
  apply (main_context_initialised Layout.ILP32). left. reflexivity.
Defined.

Lemma say_str_text_witness :
  exists str,
    CStr.say_str (CStr.chars "Exit!") = Some str /\ length str = 1024%nat /\
    CStr.held str =
      firstn 1022 (CStr.chars "Exit!") ++
      (if CStr.ends_in_newline (firstn 1022 (CStr.chars "Exit!")) then []
       else [CStr.newline]) /\
    (length (CStr.held str) <= 1023)%nat /\
    CStr.ends_in_newline (CStr.held str) = true.
Proof.
  apply (proj2 (say_str_text "Exit!")). discriminate.
Defined.

Lemma fullname_of_component_witness :
  exists buf,
    CStr.fullname_unbounded (CStr.chars "video_splitter") = Some buf /\
    length buf = 64%nat /\
    CStr.held buf = CStr.chars "OMX.broadcom." ++ CStr.chars "video_splitter".
Proof.
  apply (proj1 (proj2 (fullname_of_component "video_splitter"))). cbn. lia.
Defined.

Lemma init_component_handle_disables_ports_witness :
  acquire_camera = Returned camera_handle (final_world acquire_camera)
  /\ exists new q0 qs,
       Setup.steps (final_world acquire_camera) = [] ++ new /\
       Setup.handle_requests new =
         [(CStr.chars "OMX.broadcom.camera", OMX_ErrorNone, camera_handle)] /\
       Setup.group_queries new = q0 :: qs /\
       map (fun q => (fst (fst (fst q)), snd (fst (fst q)))) (q0 :: qs) =
         map (pair camera_handle) (Setup.OMX_IndexParamVideoInit :: Setup.types) /\
       exists segs,
         Setup.il_calls new = concat segs /\
         Forall2 (port_confirmed OMX_CommandPortDisable OMX_FALSE)
                 (map (fun p => (camera_handle, p, ""%string))
                      (flat_map Setup.ports_reported qs))
                 segs.
Proof.
  split; [vm_compute; reflexivity |].
  apply (proj1 (init_component_handle_disables_ports 10
                  (CStr.chars "OMX.broadcom.camera") (Setup.mk_session vc_running []))
               camera_handle (final_world acquire_camera)).
  vm_compute. reflexivity.
Defined.

(** The simulated camera: the ports disabled on acquisition are 70 and
    71 (video group) and 73 (other group); the failed audio query
    disables nothing. *)
Example acquire_camera_ports :
  port_commands (Setup.il_calls (Setup.steps (final_world acquire_camera))) =
  [(camera_handle, OMX_CommandPortDisable, 70);
   (camera_handle, OMX_CommandPortDisable, 71);
   (camera_handle, OMX_CommandPortDisable, 73)].
Proof. vm_compute. reflexivity. Qed.

(** The names the two versions build for the three components and for a
    longer one. *)
Example fullname_examples :
  option_map CStr.held (CStr.fullname_bounded (CStr.chars "video_encode")) =
    Some (CStr.chars "OMX.broadcom.video_encode")
  /\ option_map CStr.held (CStr.fullname_bounded (CStr.chars "video_splitter")) =
     Some (CStr.chars "OMX.broadcom.video_splitt")
  /\ option_map CStr.held (CStr.fullname_unbounded (CStr.chars "video_splitter")) =
     Some (CStr.chars "OMX.broadcom.video_splitter").
Proof. repeat split; vm_compute; reflexivity. Qed.

Lemma block_until_flushed_returns_on_completion_witness :
  exists m',
    App.block_until_flushed 4 0 (waiting_with [[]; [flush_completed 71]; []]) =
      Returned tt m' /\
    App.deliveries m' = [[]] /\
    App.flushed (App.ctx m') = 0 /\
    App.handler_lock (App.ctx m') = 1.
Proof.
  apply (block_until_flushed_returns_on_completion
           (waiting_with [[]; [flush_completed 71]; []]) [[]] [flush_completed 71] [[]] 0);
    try reflexivity.
  repeat constructor.
Defined.

Lemma main_wait_camera_ready_returns_witness :
  exists m',
    App.main_wait_camera_ready 152 (camera_answering_after 150) = Returned tt m' /\
    App.deliveries m' = [] /\
    App.camera_ready (App.ctx m') = 1.
Proof.
  apply (main_wait_camera_ready_returns
           (camera_answering_after 150) (repeat [] 150) [camera_ready_event] [] 0);
    try reflexivity.
  apply Forall_forall. intros es Hin. apply repeat_spec in Hin. subst es. reflexivity.
Defined.

(** The same camera, answering during the 151st sleep, as the wait of
    the camera component sees it. *)
Example camera_block_until_camera_ready_too_late :
  is_Died (App.camera_block_until_camera_ready 152 (camera_answering_after 150)) = true.
Proof. vm_compute. reflexivity. Qed.

Lemma unknown_format_loses_last_digit_witness :
  CStr.dump_compression_format true 0x7F000008 tt =
    Returned (Some (CStr.chars "format type 0x7f00000")) tt
  /\ CStr.dump_compression_format true 0x7F00000F tt =
     CStr.dump_compression_format true 0x7F000008 tt
  /\ CStr.dump_compression_format false CStr.OMX_VIDEO_CodingVP6 tt =
     Returned (Some (CStr.chars "VP6")) tt.
Proof.
  destruct (unknown_format_loses_last_digit 0x7F000008 tt) as (Hname & _ & Hsame & Hcase).
  - vm_compute. intuition discriminate.
  - split; [rewrite Hname; reflexivity |]. split.
    + apply Hsame; [vm_compute; intuition discriminate | reflexivity].
    + apply Hcase. vm_compute. auto 20.
Defined.

Lemma camera_block_until_camera_ready_takes_no_lock_witness :
  exists X,
    App.accesses
      (final_world (App.camera_block_until_camera_ready 3 (camera_answering_after 1))) =
      App.accesses (camera_answering_after 1) ++ X /\
    ~ In (App.Control, App.Acquire) X /\
    App.disciplined None X = false.
Proof.
  destruct (camera_block_until_camera_ready_takes_no_lock 3 (camera_answering_after 1))
    as (X & Hlog & _ & Hno & Hbad).
  exists X. repeat split; [exact Hlog | exact Hno | apply Hbad; discriminate].
Defined.
